(** * Country Farm Matugga (CFM): ledger, order and activity-feed handlers

    A shallow embedding of the Express route handlers of
    [server/routes/sales.ts], [server/routes/poultry.ts],
    [server/routes/orders.ts] and [server/routes/dashboard.ts] over a
    model of the SQLite store declared in [server/db/schema.ts].

    Conventions of the embedding.
    - The numbers the handlers compute with (quantities, prices, amounts,
      head counts) are JavaScript numbers, that is binary64 doubles
      ([float]); the driver binds every JavaScript number as a double, and
      SQLite adds and subtracts doubles in double arithmetic. A column
      holds the double that a SELECT reads back. NaN stands for NULL:
      SQLite stores a NaN as NULL, and NULL + x is NULL as NaN + x is NaN.
      Row ids, user ids, timestamps and the numbers that are only stored
      are integers ([Z]).
    - A request field that may be missing is an [option]; JavaScript
      truthiness ([!x], [x || d]) is written out on it.
    - A table is the list of its rows in rowid order; AUTOINCREMENT keeps
      the largest rowid ever used.
    - Every statement is committed on its own (no handler below opens a
      transaction); a statement that violates a constraint, or that hits a
      storage failure, throws and leaves the store as it was before that
      statement. *)

From Stdlib Require Import ZArith NArith Lia Ascii String Floats.
From stdpp Require Import base option list strings gmap.

Local Open Scope string_scope.
Local Open Scope Z_scope.

(** Decimal literals stand for the nearest double, as in JavaScript. *)
Set Warnings "-inexact-float".

(** ** JavaScript numbers *)

(** The double nearest to the integer [z]: what a whole number in a JSON
    body parses to. *)
Definition whole_SF (z : Z) : spec_float := binary_normalize prec emax z 0 false.
Definition whole (z : Z) : float := SF2Prim (whole_SF z).

(** The 53 significant bits of a positive integer below 2^53 and the
    exponent that goes with them. *)
Definition mant (p : positive) : positive := Pos.shiftl p (Z.to_N (53 - Zpos (Pos.size p))).
Definition expo (p : positive) : Z := Zpos (Pos.size p) - 53.

(** The representation of an integer of magnitude below 2^53. *)
Definition canon (z : Z) : spec_float :=
  match z with
  | Z0 => S754_zero false
  | Zpos p => S754_finite false (mant p) (expo p)
  | Zneg p => S754_finite true (mant p) (expo p)
  end.

(** Magnitude below 2^53: the integers that doubles count without gaps. *)
Definition safe (z : Z) : Prop := Z.abs z < 2 ^ 53.

#[global] Instance spec_float_eq_dec : EqDecision spec_float.
Proof. solve_decision. Defined.

(** The integer a double is, when it is a whole number of magnitude
    below 2^53 (and not -0). *)
Definition integer (x : float) : option Z :=
  match Prim2SF x with
  | S754_zero false => Some 0
  | S754_finite s m e =>
      let z := cond_Zopp s (Z.shiftl (Zpos m) e) in
      if bool_decide (canon z = S754_finite s m e) && (Z.abs z <? 2 ^ 53)
      then Some z else None
  | _ => None
  end.

(** The exact value of a finite double, counted in units of 2^-1074. *)
Definition dyadic (x : float) : option Z :=
  match Prim2SF x with
  | S754_zero _ => Some 0
  | S754_finite s m e => Some (cond_Zopp s (Zpos m * 2 ^ (e + 1074)))
  | _ => None
  end.

(** [Math.trunc(x)] of a finite double. *)
Definition trunc (x : float) : Z :=
  match Prim2SF x with
  | S754_finite s m e => cond_Zopp s (Z.shiftl (Zpos m) e)
  | _ => 0
  end.

(** What an INTEGER column reads back for a double written to it: the
    same number, -0 as 0. *)
Definition integer_column (x : float) : float := if (x =? 0)%float then 0%float else x.

(** A REAL column likewise: SQLite keeps a double that is a whole number
    as an integer and gives it back as a double, which loses the sign of
    -0 and nothing else. *)
Definition real_column (x : float) : float := if (x =? 0)%float then 0%float else x.

(** ** JavaScript values of request bodies *)

(** [!x] for a number: 0, -0 and NaN. *)
Definition falsy_float (x : float) : bool := (x =? 0)%float || is_nan x.

(** [!x] for a numeric field that may be missing. *)
Definition falsy_number (o : option float) : bool :=
  match o with
  | Some x => falsy_float x
  | None => true
  end.

(** [x || d] *)
Definition number_or (o : option float) (d : float) : float :=
  match o with
  | Some x => if falsy_float x then d else x
  | None => d
  end.

(** The value of a numeric field that a preceding guard has shown to be
    present. *)
Definition number (o : option float) : float := default 0%float o.

(** [!n] for a numeric field: missing, or zero. *)
Definition falsy_num (o : option Z) : bool :=
  match o with
  | Some n => n =? 0
  | None => true
  end.

(** [!s] for a string field: missing, or the empty string. *)
Definition falsy_str (o : option string) : bool :=
  match o with
  | Some s => if decide (s = "") then true else false
  | None => true
  end.

(** [n || d] *)
Definition num_or (o : option Z) (d : Z) : Z :=
  match o with
  | Some n => if n =? 0 then d else n
  | None => d
  end.

(** [s || d] *)
Definition str_or (o : option string) (d : string) : string :=
  match o with
  | Some s => if decide (s = "") then d else s
  | None => d
  end.

(** [s || null] *)
Definition str_or_null (o : option string) : option string :=
  if falsy_str o then None else o.

(** [n || null] *)
Definition num_or_null (o : option Z) : option Z :=
  if falsy_num o then None else o.

(** The value of a field that a preceding guard has shown to be present. *)
Definition num (o : option Z) : Z := default 0 o.
Definition str (o : option string) : string := default "" o.

(** A value held by a property of a result row; a property the row does
    not have reads as [undefined], which is [None] of a map lookup. *)
Inductive jsval :=
| JNull
| JNumber (n : Z)      (* a whole number: an id, a count that is only stored *)
| JReal (x : float)
| JString (s : string).

(** ** Rows of the store ([db/schema.ts]) *)

Record customer := {
  customer_id : Z;
  customer_name : string;
  customer_email : option string;
  customer_phone : string;
  customer_address : option string;
  customer_notes : option string;
  total_purchases : float;
  customer_created_by : Z;
  customer_created_at : Z;
  customer_updated_at : Z
}.

Record poultry_batch := {
  batch_id : Z;
  batch_name : string;
  bird_type : string;
  initial_count : float;
  current_count : float;
  date_acquired : string;
  batch_source : option string;
  cost_per_bird : option Z;
  batch_notes : option string;
  batch_status : option string;
  batch_created_by : Z;
  batch_created_at : Z;
  batch_updated_at : Z
}.

Record egg_record := {
  egg_id : Z;
  egg_batch_id : Z;
  egg_date : string;
  eggs_collected : Z;
  broken_eggs : Z;
  egg_notes : option string;
  egg_recorded_by : Z;
  egg_created_at : Z
}.

Record health_record := {
  health_id : Z;
  health_batch_id : Z;
  health_date : string;
  record_type : string;
  health_description : string;
  mortality_count : float;
  health_cost : Z;
  administered_by : option string;
  health_notes : option string;
  health_recorded_by : Z;
  health_created_at : Z
}.

Record sale := {
  sale_id : Z;
  sale_customer_id : Z;
  sale_date : string;
  sale_type : string;
  quantity : float;
  unit_price : float;
  total_amount : float;
  payment_status : option string;
  payment_method : option string;
  sale_notes : option string;
  sale_recorded_by : Z;
  sale_created_at : Z
}.

(** One line of an order as the storefront submits it; a numeric field is
    [None] when it is missing or null. *)
Module OrderItem.
Record t := {
  product : option string;
  quantity : option float;
  unit : option string;
  unitPrice : option float
}.
End OrderItem.

Record order := {
  order_id : Z;
  order_number : string;
  order_customer_name : string;
  order_customer_email : option string;
  order_customer_phone : string;
  delivery_address : option string;
  order_items : list OrderItem.t;   (* the JSON text, as JSON.parse reads it back *)
  order_total_amount : float;
  order_notes : option string;
  order_status : string;
  order_created_at : Z;
  order_updated_at : Z
}.

(** The store: the tables the handlers touch, and for each AUTOINCREMENT
    table the largest rowid handed out so far ([sqlite_sequence]). *)
Record db := {
  users : list Z;
  customers : list customer;
  poultry_batches : list poultry_batch;
  egg_production : list egg_record;
  health_records : list health_record;
  sales : list sale;
  orders : list order;
  seq_batches : Z;
  seq_health : Z;
  seq_sales : Z;
  seq_orders : Z;
  foreign_keys : bool   (* PRAGMA foreign_keys *)
}.

Definition empty_db : db :=
  {| users := []; customers := []; poultry_batches := []; egg_production := [];
     health_records := []; sales := []; orders := [];
     seq_batches := 0; seq_health := 0; seq_sales := 0; seq_orders := 0;
     foreign_keys := true |}.

Definition set_customers (cs : list customer) (d : db) : db :=
  {| users := users d; customers := cs; poultry_batches := poultry_batches d;
     egg_production := egg_production d; health_records := health_records d;
     sales := sales d; orders := orders d;
     seq_batches := seq_batches d; seq_health := seq_health d;
     seq_sales := seq_sales d; seq_orders := seq_orders d;
     foreign_keys := foreign_keys d |}.

Definition set_batches (bs : list poultry_batch) (sq : Z) (d : db) : db :=
  {| users := users d; customers := customers d; poultry_batches := bs;
     egg_production := egg_production d; health_records := health_records d;
     sales := sales d; orders := orders d;
     seq_batches := sq; seq_health := seq_health d;
     seq_sales := seq_sales d; seq_orders := seq_orders d;
     foreign_keys := foreign_keys d |}.

Definition set_health (hs : list health_record) (sq : Z) (d : db) : db :=
  {| users := users d; customers := customers d; poultry_batches := poultry_batches d;
     egg_production := egg_production d; health_records := hs;
     sales := sales d; orders := orders d;
     seq_batches := seq_batches d; seq_health := sq;
     seq_sales := seq_sales d; seq_orders := seq_orders d;
     foreign_keys := foreign_keys d |}.

Definition set_sales (ss : list sale) (sq : Z) (d : db) : db :=
  {| users := users d; customers := customers d; poultry_batches := poultry_batches d;
     egg_production := egg_production d; health_records := health_records d;
     sales := ss; orders := orders d;
     seq_batches := seq_batches d; seq_health := seq_health d;
     seq_sales := sq; seq_orders := seq_orders d;
     foreign_keys := foreign_keys d |}.

Definition set_orders (os : list order) (sq : Z) (d : db) : db :=
  {| users := users d; customers := customers d; poultry_batches := poultry_batches d;
     egg_production := egg_production d; health_records := health_records d;
     sales := sales d; orders := os;
     seq_batches := seq_batches d; seq_health := seq_health d;
     seq_sales := seq_sales d; seq_orders := sq;
     foreign_keys := foreign_keys d |}.

(** ** What a request sees besides its body *)

Record env := {
  faults : nat -> bool;   (* does the k-th statement of this request hit a storage failure *)
  now : Z;                (* CURRENT_TIMESTAMP *)
  date_now : N;           (* Date.now(), milliseconds *)
  random : N;             (* Math.random() = random / 2^53 *)
  email_fails : bool      (* does sendOrderEmail reject *)
}.

Definition no_faults : nat -> bool := fun _ => false.

(** ** Responses *)

Inductive body :=
| JError (error : string)
| JMessage (message : string)
| JSale (s : option sale)
| JBatch (b : option poultry_batch)
| JHealth (h : option health_record)
| JOrder (o : order)
| JOrderPlaced (message : string) (orderNumber : string) (o : order)
| JActivities (rows : list (gmap string jsval)).

Record response := { status : nat; json : body }.

(** ** Statements and [try]/[catch] *)

(** A statement either returns ([Done]) or throws ([Thrown]); either way
    the store carries what has been committed so far. *)
Inductive outcome (A : Type) :=
| Done (a : A) (d : db)
| Thrown (d : db).
Arguments Done {A} a d.
Arguments Thrown {A} d.

Definition M (A : Type) := db -> outcome A.

Definition ret {A} (a : A) : M A := fun d => Done a d.

Definition bind {A B} (m : M A) (k : A -> M B) : M B :=
  fun d => match m d with
           | Done a d' => k a d'
           | Thrown d' => Thrown d'
           end.

Notation "'let*' x ':=' m 'in' k" := (bind m (fun x => k))
  (at level 10, x name, m at level 100, k at level 200).

(** [db.prepare(sql).run(...)]: the statement [s] gives [None] when a
    constraint rejects it; [fails] is an injected storage failure. *)
Definition run {A} (fails : bool) (s : db -> option (A * db)) : M A :=
  fun d => if fails then Thrown d
           else match s d with
                | Some (a, d') => Done a d'
                | None => Thrown d
                end.

(** [try { ... } catch (error) { res.status(500).json(...) }] *)
Definition try_catch (m : M response) (on_error : response) (d : db) : db * response :=
  match m d with
  | Done r d' => (d', r)
  | Thrown d' => (d', on_error)
  end.

(** A foreign key is checked only when enforcement is on. *)
Definition references (d : db) (ids : list Z) (id : Z) : bool :=
  negb (foreign_keys d) || bool_decide (id ∈ ids).

(** A CHECK (col IN (...)) constraint; NULL passes. *)
Definition check_in (allowed : list string) (v : option string) : bool :=
  match v with
  | Some s => bool_decide (s ∈ allowed)
  | None => true
  end.

(** ** Request bodies, with the field names the handlers destructure *)

Module SaleBody.
Record t := {
  customerId : option Z;
  saleDate : option string;
  saleType : option string;
  quantity : option float;
  unitPrice : option float;
  paymentStatus : option string;
  paymentMethod : option string;
  notes : option string;
  totalAmount : option float   (* a total the client may send along; never read *)
}.
End SaleBody.

Module SaleUpdate.
Record t := {
  paymentStatus : option string;
  paymentMethod : option string;
  notes : option string
}.
End SaleUpdate.

Module BatchBody.
Record t := {
  batchName : option string;
  birdType : option string;
  initialCount : option float;
  dateAcquired : option string;
  source : option string;
  costPerBird : option Z;
  notes : option string
}.
End BatchBody.

Module HealthBody.
Record t := {
  batchId : option Z;
  date : option string;
  recordType : option string;
  description : option string;
  mortalityCount : option float;
  cost : option Z;
  administeredBy : option string;
  notes : option string
}.
End HealthBody.

Module OrderBody.
Record t := {
  customerName : option string;
  customerEmail : option string;
  customerPhone : option string;
  deliveryAddress : option string;
  items : option (list OrderItem.t);   (* [None]: missing, or not an array *)
  notes : option string;
  totalAmount : option float   (* a total the client may send along; never read *)
}.
End OrderBody.

(** ** [routes/sales.ts] *)

Definition sale_types : list string := ["eggs"; "birds"; "manure"; "other"].
Definition payment_statuses : list string := ["pending"; "partial"; "paid"].

(** INSERT INTO sales (...) VALUES (...); gives [lastInsertRowid].
    quantity (an INTEGER column), unit_price and total_amount are NOT NULL. *)
Definition insert_sale (t customerId : Z) (saleDate saleType : string)
    (qty unitPrice totalAmount : float) (paymentStatus : string)
    (paymentMethod notes : option string) (userId : Z) (d : db) : option (Z * db) :=
  if references d (customer_id <$> customers d) customerId
     && references d (users d) userId
     && check_in sale_types (Some saleType)
     && check_in payment_statuses (Some paymentStatus)
     && negb (is_nan qty) && negb (is_nan unitPrice) && negb (is_nan totalAmount)
  then
    let id := seq_sales d + 1 in
    Some (id, set_sales (sales d ++
      [ {| sale_id := id; sale_customer_id := customerId; sale_date := saleDate;
           sale_type := saleType; quantity := integer_column qty;
           unit_price := real_column unitPrice; total_amount := real_column totalAmount; payment_status := Some paymentStatus;
           payment_method := paymentMethod; sale_notes := notes;
           sale_recorded_by := userId; sale_created_at := t |} ]) id d)
  else None.

Definition with_total_purchases (v : float) (t : Z) (c : customer) : customer :=
  {| customer_id := customer_id c; customer_name := customer_name c;
     customer_email := customer_email c; customer_phone := customer_phone c;
     customer_address := customer_address c; customer_notes := customer_notes c;
     total_purchases := v; customer_created_by := customer_created_by c;
     customer_created_at := customer_created_at c; customer_updated_at := t |}.

(** UPDATE customers SET total_purchases = total_purchases + ?,
    updated_at = CURRENT_TIMESTAMP WHERE id = ? *)
Definition increase_total_purchases (t : Z) (amount : float) (customerId : Z) (d : db)
    : option (unit * db) :=
  Some (tt, set_customers
    ((fun c => if decide (customer_id c = customerId)
               then with_total_purchases (real_column (total_purchases c + amount)%float) t c
               else c)
       <$> customers d) d).

(** UPDATE customers SET total_purchases = total_purchases - ?,
    updated_at = CURRENT_TIMESTAMP WHERE id = ? *)
Definition decrease_total_purchases (t : Z) (amount : float) (customerId : Z) (d : db)
    : option (unit * db) :=
  Some (tt, set_customers
    ((fun c => if decide (customer_id c = customerId)
               then with_total_purchases (real_column (total_purchases c - amount)%float) t c
               else c)
       <$> customers d) d).

(** SELECT * FROM sales WHERE id = ? *)
Definition select_sale (id : Z) (d : db) : option (option sale * db) :=
  Some (head (filter (fun s => sale_id s = id) (sales d)), d).

Definition with_payment (ps pm n : option string) (s : sale) : sale :=
  {| sale_id := sale_id s; sale_customer_id := sale_customer_id s;
     sale_date := sale_date s; sale_type := sale_type s; quantity := quantity s;
     unit_price := unit_price s; total_amount := total_amount s;
     payment_status := ps; payment_method := pm; sale_notes := n;
     sale_recorded_by := sale_recorded_by s; sale_created_at := sale_created_at s |}.

(** UPDATE sales SET payment_status = ?, payment_method = ?, notes = ? WHERE id = ?
    The CHECK on payment_status is evaluated when a row is rewritten. *)
Definition update_sale_payment (ps pm n : option string) (id : Z) (d : db) : option (unit * db) :=
  if bool_decide (Exists (fun s => sale_id s = id) (sales d)) && negb (check_in payment_statuses ps)
  then None
  else Some (tt, set_sales
    ((fun s => if decide (sale_id s = id) then with_payment ps pm n s else s) <$> sales d)
    (seq_sales d) d).

(** DELETE FROM sales WHERE id = ? *)
Definition delete_sale (id : Z) (d : db) : option (unit * db) :=
  Some (tt, set_sales (filter (fun s => sale_id s <> id) (sales d)) (seq_sales d) d).

(** POST /api/sales *)
Definition post_sale (e : env) (userId : Z) (b : SaleBody.t) : db -> db * response :=
  try_catch
    (if falsy_num (SaleBody.customerId b) || falsy_str (SaleBody.saleDate b)
        || falsy_str (SaleBody.saleType b) || falsy_number (SaleBody.quantity b)
        || falsy_number (SaleBody.unitPrice b)
     then ret {| status := 400;
                 json := JError "Customer ID, sale date, sale type, quantity, and unit price are required" |}
     else
       let totalAmount := (number (SaleBody.quantity b) * number (SaleBody.unitPrice b))%float in
       let* result := run (faults e 0%nat)
         (insert_sale (now e) (num (SaleBody.customerId b)) (str (SaleBody.saleDate b))
            (str (SaleBody.saleType b)) (number (SaleBody.quantity b))
            (number (SaleBody.unitPrice b))
            totalAmount (str_or (SaleBody.paymentStatus b) "pending")
            (str_or_null (SaleBody.paymentMethod b)) (str_or_null (SaleBody.notes b)) userId) in
       let* _ := run (faults e 1%nat)
         (increase_total_purchases (now e) totalAmount (num (SaleBody.customerId b))) in
       let* sale := run (faults e 2%nat) (select_sale result) in
       ret {| status := 201; json := JSale sale |})
    {| status := 500; json := JError "Failed to create sale" |}.

(** PUT /api/sales/:id *)
Definition put_sale (e : env) (id : Z) (b : SaleUpdate.t) : db -> db * response :=
  try_catch
    (let* _ := run (faults e 0%nat)
       (update_sale_payment (SaleUpdate.paymentStatus b) (SaleUpdate.paymentMethod b)
          (SaleUpdate.notes b) id) in
     let* sale := run (faults e 1%nat) (select_sale id) in
     ret {| status := 200; json := JSale sale |})
    {| status := 500; json := JError "Failed to update sale" |}.

(** DELETE /api/sales/:id *)
Definition delete_sale_by_id (e : env) (id : Z) : db -> db * response :=
  try_catch
    (let* sale := run (faults e 0%nat) (select_sale id) in
     let* _ := match sale with
               | Some s => run (faults e 1%nat)
                   (decrease_total_purchases (now e) (total_amount s) (sale_customer_id s))
               | None => ret tt
               end in
     let* _ := run (faults e 2%nat) (delete_sale id) in
     ret {| status := 200; json := JMessage "Sale deleted successfully" |})
    {| status := 500; json := JError "Failed to delete sale" |}.

(** ** [routes/poultry.ts] *)

Definition record_types : list string :=
  ["vaccination"; "medication"; "checkup"; "mortality"; "other"].

(** INSERT INTO poultry_batches (..., initial_count, current_count, ...)
    VALUES (..., initialCount, initialCount, ...); status takes its default.
    Both counts are INTEGER NOT NULL columns. *)
Definition insert_batch (t : Z) (batchName birdType : string) (initialCount : float)
    (dateAcquired : string) (source : option string) (costPerBird : option Z)
    (notes : option string) (userId : Z) (d : db) : option (Z * db) :=
  if references d (users d) userId && negb (is_nan initialCount) then
    let id := seq_batches d + 1 in
    Some (id, set_batches (poultry_batches d ++
      [ {| batch_id := id; batch_name := batchName; bird_type := birdType;
           initial_count := integer_column initialCount;
           current_count := integer_column initialCount;
           date_acquired := dateAcquired; batch_source := source;
           cost_per_bird := costPerBird; batch_notes := notes;
           batch_status := Some "active"; batch_created_by := userId;
           batch_created_at := t; batch_updated_at := t |} ]) id d)
  else None.

(** SELECT * FROM poultry_batches WHERE id = ? *)
Definition select_batch (id : Z) (d : db) : option (option poultry_batch * db) :=
  Some (head (filter (fun b => batch_id b = id) (poultry_batches d)), d).

(** INSERT INTO health_records (...) VALUES (...); mortality_count is an
    INTEGER column. *)
Definition insert_health (t batchId : Z) (date recordType description : string)
    (mortalityCount : float) (cost : Z) (administeredBy notes : option string) (userId : Z)
    (d : db) : option (Z * db) :=
  if references d (batch_id <$> poultry_batches d) batchId
     && references d (users d) userId
     && check_in record_types (Some recordType)
  then
    let id := seq_health d + 1 in
    Some (id, set_health (health_records d ++
      [ {| health_id := id; health_batch_id := batchId; health_date := date;
           record_type := recordType; health_description := description;
           mortality_count := integer_column mortalityCount; health_cost := cost;
           administered_by := administeredBy; health_notes := notes;
           health_recorded_by := userId; health_created_at := t |} ]) id d)
  else None.

Definition with_current_count (v : float) (t : Z) (b : poultry_batch) : poultry_batch :=
  {| batch_id := batch_id b; batch_name := batch_name b; bird_type := bird_type b;
     initial_count := initial_count b; current_count := v;
     date_acquired := date_acquired b; batch_source := batch_source b;
     cost_per_bird := cost_per_bird b; batch_notes := batch_notes b;
     batch_status := batch_status b; batch_created_by := batch_created_by b;
     batch_created_at := batch_created_at b; batch_updated_at := t |}.

(** UPDATE poultry_batches SET current_count = current_count - ?,
    updated_at = CURRENT_TIMESTAMP WHERE id = ?
    A difference that is NaN (infinity minus infinity) is NULL, which the
    NOT NULL column refuses. *)
Definition decrease_current_count (t : Z) (amount : float) (batchId : Z) (d : db)
    : option (unit * db) :=
  if bool_decide (Exists (fun b => batch_id b = batchId
                                   /\ is_nan (current_count b - amount)%float = true)
                         (poultry_batches d))
  then None
  else Some (tt, set_batches
    ((fun b => if decide (batch_id b = batchId)
               then with_current_count (integer_column (current_count b - amount)%float) t b
               else b)
       <$> poultry_batches d) (seq_batches d) d).

(** SELECT * FROM health_records WHERE id = ? *)
Definition select_health (id : Z) (d : db) : option (option health_record * db) :=
  Some (head (filter (fun h => health_id h = id) (health_records d)), d).

(** POST /api/poultry/batches *)
Definition post_batch (e : env) (userId : Z) (b : BatchBody.t) : db -> db * response :=
  try_catch
    (if falsy_str (BatchBody.batchName b) || falsy_str (BatchBody.birdType b)
        || falsy_number (BatchBody.initialCount b) || falsy_str (BatchBody.dateAcquired b)
     then ret {| status := 400;
                 json := JError "Batch name, bird type, initial count, and date acquired are required" |}
     else
       let* result := run (faults e 0%nat)
         (insert_batch (now e) (str (BatchBody.batchName b)) (str (BatchBody.birdType b))
            (number (BatchBody.initialCount b)) (str (BatchBody.dateAcquired b))
            (str_or_null (BatchBody.source b)) (num_or_null (BatchBody.costPerBird b))
            (str_or_null (BatchBody.notes b)) userId) in
       let* batch := run (faults e 1%nat) (select_batch result) in
       ret {| status := 201; json := JBatch batch |})
    {| status := 500; json := JError "Failed to create batch" |}.

(** POST /api/poultry/health *)
Definition post_health (e : env) (userId : Z) (b : HealthBody.t) : db -> db * response :=
  try_catch
    (if falsy_num (HealthBody.batchId b) || falsy_str (HealthBody.date b)
        || falsy_str (HealthBody.recordType b) || falsy_str (HealthBody.description b)
     then ret {| status := 400;
                 json := JError "Batch ID, date, record type, and description are required" |}
     else
       let* result := run (faults e 0%nat)
         (insert_health (now e) (num (HealthBody.batchId b)) (str (HealthBody.date b))
            (str (HealthBody.recordType b)) (str (HealthBody.description b))
            (number_or (HealthBody.mortalityCount b) 0) (num_or (HealthBody.cost b) 0)
            (str_or_null (HealthBody.administeredBy b)) (str_or_null (HealthBody.notes b))
            userId) in
       let* _ := if negb (falsy_number (HealthBody.mortalityCount b))
                    && (0 <? number (HealthBody.mortalityCount b))%float
                 then run (faults e 1%nat)
                   (decrease_current_count (now e) (number (HealthBody.mortalityCount b))
                      (num (HealthBody.batchId b)))
                 else ret tt in
       let* record := run (faults e 2%nat) (select_health result) in
       ret {| status := 201; json := JHealth record |})
    {| status := 500; json := JError "Failed to create health record" |}.

(** ** [routes/orders.ts] *)

Definition base36_digits : string := "0123456789abcdefghijklmnopqrstuvwxyz".

Definition digit36 (d : N) : ascii :=
  default "0"%char (String.get (N.to_nat d) base36_digits).

Fixpoint digits36 (fuel : nat) (n : N) (acc : string) : string :=
  match fuel with
  | O => acc
  | S fuel' =>
      let acc' := String (digit36 (n mod 36)) acc in
      if (n / 36 =? 0)%N then acc' else digits36 fuel' (n / 36) acc'
  end.

(** [n.toString(36)] for a non-negative integer. *)
Definition toString36 (n : N) : string := digits36 (S (N.to_nat (N.log2 n))) n "".

(** [Math.random()] as a double: [r / 2^53], one of the 2^53 doubles of
    that form in [0, 1). *)
Definition random_double (r : N) : float := Z.ldexp (whole (Z.of_N r)) (-53).

(** The back-trace of a carry over the digits written so far (last digit
    first); [None] when it runs into the integer part. *)
Fixpoint carry36 (written : list N) : option (list N) :=
  match written with
  | [] => None
  | digit :: written' =>
      if (digit + 1 <? 36)%N then Some ((digit + 1)%N :: written') else carry36 written'
  end.

(** The loop of the runtime's number-to-string conversion in radix 36
    (V8, DoubleToRadixCString): digits are produced until they identify
    the double, the last one rounded to even. *)
Fixpoint fraction36 (fuel : nat) (fraction delta : float) (written : list N)
    : option (list N) :=
  match fuel with
  | O => Some written
  | S fuel' =>
      let fraction := (fraction * 36)%float in
      let delta := (delta * 36)%float in
      let digit := Z.to_N (trunc fraction) in
      let written := digit :: written in
      let fraction := (fraction - whole (Z.of_N digit))%float in
      if ((0.5 <? fraction)%float || ((fraction =? 0.5)%float && N.odd digit))
         && (1 <? fraction + delta)%float
      then carry36 written
      else if (delta <=? fraction)%float then fraction36 fuel' fraction delta written
           else Some written
  end.

(** [x.toString(36)] for a double [0 <= x < 1]: "0" for zero, otherwise
    "0." and the digits, or "1" when rounding carries all the way up. The
    precision kept is half the distance to the next double; the loop runs
    at most 208 times, since that distance grows by 36 each time. *)
Definition double_toString36 (x : float) : string :=
  let delta := (0.5 * (next_up x - x))%float in
  let delta := if (delta <? next_up 0)%float then next_up 0%float else delta in
  if (delta <=? x)%float
  then match fraction36 256 x delta [] with
       | Some written => "0." ++ string_of_list_ascii (digit36 <$> reverse written)
       | None => "1"
       end
  else "0".

(** [Math.random().toString(36)] *)
Definition fraction_toString36 (r : N) : string := double_toString36 (random_double r).

Definition upper (c : ascii) : ascii :=
  let n := nat_of_ascii c in
  if (97 <=? n)%nat && (n <=? 122)%nat then ascii_of_nat (n - 32) else c.

Fixpoint toUpperCase (s : string) : string :=
  match s with
  | EmptyString => EmptyString
  | String c s' => String (upper c) (toUpperCase s')
  end.

(** [s.substring(from, to)] for [from <= to]. *)
Definition substring (from to : nat) (s : string) : string :=
  String.substring from (to - from) s.

Definition generateOrderNumber (e : env) : string :=
  let prefix := "CFM" in
  let timestamp := toUpperCase (toString36 (date_now e)) in
  let random := toUpperCase (substring 2 6 (fraction_toString36 (random e))) in
  prefix ++ "-" ++ timestamp ++ "-" ++ random.

Definition validStatuses : list string :=
  ["new"; "confirmed"; "processing"; "delivered"; "cancelled"].

(** [item.quantity * (item.unitPrice || 0)] *)
Definition item_amount (item : OrderItem.t) : float :=
  (number (OrderItem.quantity item) * number_or (OrderItem.unitPrice item) 0)%float.

(** [items.reduce((sum, item) => sum + item.quantity * (item.unitPrice || 0), 0)] *)
Definition items_total (items : list OrderItem.t) : float :=
  foldl (fun sum item => (sum + item_amount item)%float) 0%float items.

(** [!item.product || !item.quantity || item.quantity < 1] *)
Definition item_invalid (item : OrderItem.t) : bool :=
  falsy_str (OrderItem.product item) || falsy_number (OrderItem.quantity item)
  || (number (OrderItem.quantity item) <? 1)%float.

(** A number after [JSON.stringify] and [JSON.parse]: Infinity and NaN are
    written as null, -0 as 0. *)
Definition json_number (x : float) : option float :=
  if is_nan x || is_infinity x then None
  else Some (if (x =? 0)%float then 0%float else x).

(** An item as the stored JSON text gives it back. *)
Definition json_item (item : OrderItem.t) : OrderItem.t :=
  {| OrderItem.product := OrderItem.product item;
     OrderItem.quantity := OrderItem.quantity item ≫= json_number;
     OrderItem.unit := OrderItem.unit item;
     OrderItem.unitPrice := OrderItem.unitPrice item ≫= json_number |}.

(** INSERT INTO orders (...) VALUES (..., 'new'); order_number is UNIQUE,
    total_amount is NOT NULL, order_items is [JSON.stringify(items)]. *)
Definition insert_order (t : Z) (orderNumber customerName : string)
    (customerEmail : option string) (customerPhone : string)
    (deliveryAddress : option string) (items : list OrderItem.t) (totalAmount : float)
    (notes : option string) (d : db) : option (Z * db) :=
  if bool_decide (orderNumber ∈ order_number <$> orders d) || is_nan totalAmount then None
  else
    let id := seq_orders d + 1 in
    Some (id, set_orders (orders d ++
      [ {| order_id := id; order_number := orderNumber;
           order_customer_name := customerName; order_customer_email := customerEmail;
           order_customer_phone := customerPhone; delivery_address := deliveryAddress;
           order_items := json_item <$> items;
           order_total_amount := real_column totalAmount;
           order_notes := notes; order_status := "new";
           order_created_at := t; order_updated_at := t |} ]) id d).

(** SELECT * FROM orders WHERE id = ? *)
Definition select_order (id : Z) (d : db) : option (option order * db) :=
  Some (head (filter (fun o => order_id o = id) (orders d)), d).

Definition with_status (st : string) (t : Z) (o : order) : order :=
  {| order_id := order_id o; order_number := order_number o;
     order_customer_name := order_customer_name o;
     order_customer_email := order_customer_email o;
     order_customer_phone := order_customer_phone o;
     delivery_address := delivery_address o; order_items := order_items o;
     order_total_amount := order_total_amount o; order_notes := order_notes o;
     order_status := st; order_created_at := order_created_at o;
     order_updated_at := t |}.

(** UPDATE orders SET status = ?, updated_at = CURRENT_TIMESTAMP WHERE id = ?
    The CHECK on status is evaluated when a row is rewritten. *)
Definition update_order_status (t : Z) (st : string) (id : Z) (d : db) : option (unit * db) :=
  if bool_decide (Exists (fun o => order_id o = id) (orders d))
     && negb (check_in validStatuses (Some st))
  then None
  else Some (tt, set_orders
    ((fun o => if decide (order_id o = id) then with_status st t o else o) <$> orders d)
    (seq_orders d) d).

(** DELETE FROM orders WHERE id = ? *)
Definition delete_order (id : Z) (d : db) : option (unit * db) :=
  Some (tt, set_orders (filter (fun o => order_id o <> id) (orders d)) (seq_orders d) d).

(** The inner [try { ... sendOrderEmail ... } catch (emailError) { }]:
    whatever happens inside, the handler goes on. *)
Definition swallow {A} (m : M A) : M unit :=
  fun d => match m d with
           | Done _ d' => Done tt d'
           | Thrown d' => Done tt d'
           end.

(** SELECT setting_value FROM site_settings WHERE setting_key = 'email',
    then [await sendOrderEmail(order, companyEmail)]; neither writes. *)
Definition notify_operator (e : env) : M unit :=
  let* _ := run (faults e 2%nat) (fun d => Some (tt, d)) in
  run (email_fails e) (fun d => Some (tt, d)).

(** POST /api/orders *)
Definition post_order (e : env) (b : OrderBody.t) : db -> db * response :=
  try_catch
    (if falsy_str (OrderBody.customerName b) || falsy_str (OrderBody.customerPhone b)
        || match OrderBody.items b with
           | Some items => bool_decide (length items = 0%nat)
           | None => true
           end
     then ret {| status := 400;
                 json := JError "Customer name, phone, and at least one item are required" |}
     else
       let items := default [] (OrderBody.items b) in
       if existsb item_invalid items
       then ret {| status := 400;
                   json := JError "Each item must have a product and quantity >= 1" |}
       else
         let totalAmount := items_total items in
         let orderNumber := generateOrderNumber e in
         let* result := run (faults e 0%nat)
           (insert_order (now e) orderNumber (str (OrderBody.customerName b))
              (str_or_null (OrderBody.customerEmail b)) (str (OrderBody.customerPhone b))
              (str_or_null (OrderBody.deliveryAddress b)) items totalAmount
              (str_or_null (OrderBody.notes b))) in
         let* order := run (faults e 1%nat) (select_order result) in
         match order with
         | None => fun d => Thrown d   (* [order.order_number] on undefined *)
         | Some o =>
             let* _ := swallow (notify_operator e) in
             ret {| status := 201;
                    json := JOrderPlaced "Order placed successfully!" (order_number o) o |}
         end)
    {| status := 500; json := JError "Failed to place order" |}.

(** PUT /api/orders/:id/status *)
Definition put_order_status (e : env) (id : Z) (status : option string) : db -> db * response :=
  try_catch
    (if falsy_str status || negb (bool_decide (str status ∈ validStatuses))
     then ret {| status := 400;
                 json := JError ("Invalid status. Must be one of: " ++
                                 String.concat ", " validStatuses) |}
     else
       let* _ := run (faults e 0%nat) (update_order_status (now e) (str status) id) in
       let* order := run (faults e 1%nat) (select_order id) in
       match order with
       | None => ret {| status := 404; json := JError "Order not found" |}
       | Some o => ret {| status := 200; json := JOrder o |}
       end)
    {| status := 500; json := JError "Failed to update order status" |}.

(** DELETE /api/orders/:id *)
Definition delete_order_by_id (e : env) (id : Z) : db -> db * response :=
  try_catch
    (let* order := run (faults e 0%nat) (select_order id) in
     match order with
     | None => ret {| status := 404; json := JError "Order not found" |}
     | Some _ =>
         let* _ := run (faults e 1%nat) (delete_order id) in
         ret {| status := 200; json := JMessage "Order deleted successfully" |}
     end)
    {| status := 500; json := JError "Failed to delete order" |}.

(** ** [routes/dashboard.ts]: the recent-activity feed *)

Fixpoint insert_desc {A} (key : A -> Z) (x : A) (l : list A) : list A :=
  match l with
  | [] => [x]
  | y :: l' => if key y <=? key x then x :: l else y :: insert_desc key x l'
  end.

(** ORDER BY key DESC; rows with equal keys stay in rowid order. *)
Definition order_by_desc {A} (key : A -> Z) (l : list A) : list A :=
  foldr (insert_desc key) [] l.

(** LIMIT ?: a negative bound means no bound. *)
Definition sql_limit {A} (n : Z) (l : list A) : list A :=
  if n <? 0 then l else take (Z.to_nat n) l.

(** The bound of LIMIT ? arrives as a double and has to be an integer that
    SQLite can hold; 2^63 and beyond, and -2^63, are refused with a
    datatype mismatch. *)
Definition limit_admissible (n : Z) : bool := (- 2 ^ 63 <? n) && (n <? 2 ^ 63).

(** The object the driver builds for a row of the three SELECTs below:
    its properties are the column aliases type, id, timestamp, value and
    description. *)
Definition activity (type : string) (id : Z) (timestamp : string)
    (value description : jsval) : gmap string jsval :=
  {[ "type" := JString type; "id" := JNumber id; "timestamp" := JString timestamp;
     "value" := value; "description" := description ]}.

(** SELECT 'egg' as type, id, date as timestamp, eggs_collected as value,
    'Eggs collected' as description
    FROM egg_production ORDER BY created_at DESC LIMIT ? *)
Definition select_recent_eggs (limit : Z) (d : db) : option (list (gmap string jsval) * db) :=
  if negb (limit_admissible limit) then None else
  Some ((fun r => activity "egg" (egg_id r) (egg_date r) (JNumber (eggs_collected r))
                    (JString "Eggs collected"))
          <$> sql_limit limit (order_by_desc egg_created_at (egg_production d)), d).

(** SELECT 'sale' as type, s.id, s.sale_date as timestamp, s.total_amount as value,
    c.name || ' - ' || s.sale_type as description
    FROM sales s LEFT JOIN customers c ON s.customer_id = c.id
    ORDER BY s.created_at DESC LIMIT ? *)
Definition select_recent_sales (limit : Z) (d : db) : option (list (gmap string jsval) * db) :=
  if negb (limit_admissible limit) then None else
  Some ((fun s => activity "sale" (sale_id s) (sale_date s) (JReal (total_amount s))
                    match head (filter (fun c => customer_id c = sale_customer_id s) (customers d)) with
                    | Some c => JString (customer_name c ++ " - " ++ sale_type s)
                    | None => JNull
                    end)
          <$> sql_limit limit (order_by_desc sale_created_at (sales d)), d).

(** SELECT 'health' as type, hr.id, hr.date as timestamp, hr.record_type as value,
    pb.batch_name || ' - ' || hr.description as description
    FROM health_records hr LEFT JOIN poultry_batches pb ON hr.batch_id = pb.id
    ORDER BY hr.created_at DESC LIMIT ? *)
Definition select_recent_health (limit : Z) (d : db) : option (list (gmap string jsval) * db) :=
  if negb (limit_admissible limit) then None else
  Some ((fun h => activity "health" (health_id h) (health_date h) (JString (record_type h))
                    match head (filter (fun b => batch_id b = health_batch_id h) (poultry_batches d)) with
                    | Some b => JString (batch_name b ++ " - " ++ health_description h)
                    | None => JNull
                    end)
          <$> sql_limit limit (order_by_desc health_created_at (health_records d)), d).

Fixpoint sort_insert {A} (cmp : A -> A -> option Z) (x : A) (l : list A) : list A :=
  match l with
  | [] => [x]
  | y :: l' => if 0 <? default 0 (cmp x y) then y :: sort_insert cmp x l' else x :: l
  end.

(** [Array.prototype.sort(cmp)]: stable, and a comparator result of NaN
    ([None]) counts as 0. *)
Definition js_sort {A} (cmp : A -> A -> option Z) (l : list A) : list A :=
  foldr (sort_insert cmp) [] l.

(** [l.slice(0, n)]: a negative end counts from the end of the array. *)
Definition js_slice0 {A} (n : Z) (l : list A) : list A :=
  take (Z.to_nat (if n <? 0 then Z.max 0 (Z.of_nat (length l) + n) else n)) l.

Section Activities.

(** The runtime's parser of date strings; [None] is an invalid date. *)
Variable Date_parse : string -> option Z.

(** The time value of a number: its integer part, NaN beyond 8.64e15
    milliseconds either side of the epoch. *)
Definition time_clip (n : Z) : option Z :=
  if Z.abs n <=? 8640000000000000 then Some n else None.

(** [new Date(v).getTime()]; [None] is NaN. *)
Definition Date_getTime (v : option jsval) : option Z :=
  match v with
  | None => None
  | Some JNull => Some 0
  | Some (JNumber n) => time_clip n
  | Some (JReal x) => if is_nan x || is_infinity x then None else time_clip (trunc x)
  | Some (JString s) => Date_parse s
  end.

(** [(a, b) => new Date(b.date).getTime() - new Date(a.date).getTime()] *)
Definition by_date (a b : gmap string jsval) : option Z :=
  match Date_getTime (b !! "date"), Date_getTime (a !! "date") with
  | Some tb, Some ta => Some (tb - ta)
  | _, _ => None
  end.

(** GET /api/dashboard/activities; [limit_query] is
    [parseInt(req.query.limit)]: [None] when that is NaN, otherwise the
    integer it is (Infinity, which a long digit string parses to, counts
    as an integer beyond 2^63). *)
Definition get_activities (e : env) (limit_query : option Z) : db -> db * response :=
  try_catch
    (let limit := num_or limit_query 20 in
     let* recentEggs := run (faults e 0%nat) (select_recent_eggs limit) in
     let* recentSales := run (faults e 1%nat) (select_recent_sales limit) in
     let* recentHealth := run (faults e 2%nat) (select_recent_health limit) in
     let activities := (recentEggs ++ recentSales ++ recentHealth)%list in
     let activities := js_sort by_date activities in
     let limitedActivities := js_slice0 limit activities in
     ret {| status := 200; json := JActivities limitedActivities |})
    {| status := 500; json := JError "Failed to fetch activities" |}.

End Activities.

(** * Specification-level definitions *)

(** The requests that move the ledger, each with its environment. *)
Inductive ledger_op :=
| RecordSale (e : env) (userId : Z) (b : SaleBody.t)
| DeleteSale (e : env) (id : Z).

Inductive sale_op :=
| Ledger (op : ledger_op)
| UpdateSale (e : env) (id : Z) (b : SaleUpdate.t).

Definition ledger_step (d : db) (op : ledger_op) : db :=
  match op with
  | RecordSale e userId b => fst (post_sale e userId b d)
  | DeleteSale e id => fst (delete_sale_by_id e id d)
  end.

Definition sale_step (d : db) (op : sale_op) : db :=
  match op with
  | Ledger op => ledger_step d op
  | UpdateSale e id b => fst (put_sale e id b d)
  end.

Definition run_ledger_ops (ops : list ledger_op) (d : db) : db := foldl ledger_step d ops.
Definition run_sale_ops (ops : list sale_op) (d : db) : db := foldl sale_step d ops.

(** No statement of the request hits a storage failure. *)
Definition reliable (e : env) : Prop := forall k, faults e k = false.

Definition ledger_op_env (op : ledger_op) : env :=
  match op with
  | RecordSale e _ _ => e
  | DeleteSale e _ => e
  end.

(** The customer's running total, if the customer exists. *)
Definition purchases_of (cid : Z) (d : db) : option float :=
  total_purchases <$> head (filter (fun c => customer_id c = cid) (customers d)).

(** The sales that reference the customer. *)
Definition sales_of (cid : Z) (d : db) : list sale :=
  filter (fun s => sale_customer_id s = cid) (sales d).

(** The sum of the exact values of doubles, in units of 2^-1074; [None]
    when one of them is infinite or NaN. *)
Definition sum_dyadic (l : list float) : option Z :=
  foldr (fun x acc => v ← dyadic x; a ← acc; Some (v + a)) (Some 0) l.

(** The amount of a sale as an integer, when it is a whole number. *)
Definition amount_Z (s : sale) : Z := default 0 (integer (total_amount s)).

Definition sum_amounts (l : list sale) : Z := foldr (fun s acc => amount_Z s + acc) 0 l.

(** The absolute amounts, added up. *)
Definition volume (l : list sale) : Z := foldr (fun s acc => Z.abs (amount_Z s) + acc) 0 l.

(** [id] is the primary key of sales, below the AUTOINCREMENT mark. *)
Definition sales_wf (d : db) : Prop :=
  NoDup (sale_id <$> sales d) /\ Forall (fun s => sale_id s <= seq_sales d) (sales d).

(** The ledger equation: the value of the customer's counter is the sum
    of the values of the amounts of the customer's sales. *)
Definition ledger_ok (cid : Z) (d : db) : Prop :=
  exists tp v,
    purchases_of cid d = Some tp /\ dyadic tp = Some v
    /\ sum_dyadic (total_amount <$> sales_of cid d) = Some v.

(** The customer's ledger is kept in whole numbers whose absolute values
    add up to at most [B], and the counter is their sum. *)
Definition ledger_whole (cid B : Z) (d : db) : Prop :=
  Forall (fun s => is_Some (integer (total_amount s))) (sales_of cid d)
  /\ volume (sales_of cid d) <= B
  /\ purchases_of cid d = Some (whole (sum_amounts (sales_of cid d))).

(** The amount a RecordSale request of whole numbers asks for. *)
Definition request_amount (b : SaleBody.t) : option Z :=
  q ← integer (number (SaleBody.quantity b));
  p ← integer (number (SaleBody.unitPrice b));
  Some (q * p).

Definition ledger_op_volume (op : ledger_op) : option Z :=
  match op with
  | RecordSale _ _ b => Z.abs <$> request_amount b
  | DeleteSale _ _ => Some 0
  end.

(** The absolute amounts that the requests ask for, added up; [None] when
    a request carries a quantity or a price that is no whole number of
    magnitude below 2^53. *)
Fixpoint ledger_volume (ops : list ledger_op) : option Z :=
  match ops with
  | [] => Some 0
  | op :: ops' => a ← ledger_op_volume op; v ← ledger_volume ops'; Some (a + v)
  end.

(** total_amount == quantity * unit_price, as the program multiplies and
    compares. *)
Definition sale_total_ok (d : db) : Prop :=
  Forall (fun s => (total_amount s =? quantity s * unit_price s)%float = true) (sales d).

(** The same equation between the values of the three numbers. *)
Definition sale_total_exact (s : sale) : Prop :=
  exists t q p,
    dyadic (total_amount s) = Some t /\ dyadic (quantity s) = Some q
    /\ dyadic (unit_price s) = Some p /\ t * 2 ^ 1074 = q * p.

(** The response of a [catch] block. *)
Definition server_error (msg : string) : response := {| status := 500; json := JError msg |}.

(** ** Mortality (poultry.ts) *)

Inductive health_op :=
| RecordHealthEvent (e : env) (userId : Z) (b : HealthBody.t).

Definition health_step (d : db) (op : health_op) : db :=
  match op with
  | RecordHealthEvent e userId b => fst (post_health e userId b d)
  end.

Definition run_health_ops (ops : list health_op) (d : db) : db := foldl health_step d ops.

Definition health_op_env (op : health_op) : env :=
  match op with RecordHealthEvent e _ _ => e end.

(** The deaths a request reports: a whole number that is not negative, or
    nothing. *)
Definition deaths_asked (op : health_op) : option Z :=
  match op with
  | RecordHealthEvent _ _ b =>
      match HealthBody.mortalityCount b with
      | Some m => z ← integer m; if 0 <=? z then Some z else None
      | None => Some 0
      end
  end.

(** The deaths that the requests report, added up; [None] when a request
    carries a mortalityCount that is negative or no whole number of
    magnitude below 2^53. *)
Fixpoint total_deaths_asked (ops : list health_op) : option Z :=
  match ops with
  | [] => Some 0
  | op :: ops' => m ← deaths_asked op; v ← total_deaths_asked ops'; Some (m + v)
  end.

(** The batch's live headcount, if the batch exists. *)
Definition count_of (bid : Z) (d : db) : option float :=
  current_count <$> head (filter (fun b => batch_id b = bid) (poultry_batches d)).

(** The health events recorded for the batch. *)
Definition health_of (bid : Z) (d : db) : list health_record :=
  filter (fun h => health_batch_id h = bid) (health_records d).

(** The deaths of a health event as an integer, when they are a whole
    number. *)
Definition mortality_Z (h : health_record) : Z := default 0 (integer (mortality_count h)).

Definition sum_mortality (l : list health_record) : Z :=
  foldr (fun h acc => mortality_Z h + acc) 0 l.

(** The batch is one row, its health events carry whole numbers that are
    not negative, and its headcount is [n] minus their sum. *)
Definition mortality_ok (bid n : Z) (d : db) : Prop :=
  Forall (fun h => exists m, integer (mortality_count h) = Some m /\ 0 <= m) (health_of bid d)
  /\ current_count <$> filter (fun b => batch_id b = bid) (poultry_batches d)
     = [whole (n - sum_mortality (health_of bid d))].

(** Batch ids, and the batch ids that health records point to, are below
    the AUTOINCREMENT mark of poultry_batches. *)
Definition batches_wf (d : db) : Prop :=
  Forall (fun b => batch_id b <= seq_batches d) (poultry_batches d)
  /\ Forall (fun h => health_batch_id h <= seq_batches d) (health_records d).

(** ** Orders (orders.ts) *)

Inductive order_op :=
| PlaceOrder (e : env) (b : OrderBody.t)
| UpdateStatus (e : env) (id : Z) (status : option string)
| DeleteOrder (e : env) (id : Z).

Definition order_step (d : db) (op : order_op) : db :=
  match op with
  | PlaceOrder e b => fst (post_order e b d)
  | UpdateStatus e id st => fst (put_order_status e id st d)
  | DeleteOrder e id => fst (delete_order_by_id e id d)
  end.

Definition run_order_ops (ops : list order_op) (d : db) : db := foldl order_step d ops.





(** Every number of the item is finite; the price may be missing. *)
Definition finite_item (item : OrderItem.t) : Prop :=
  match OrderItem.quantity item with
  | Some q => is_finite q = true
  | None => True
  end
  /\ match OrderItem.unitPrice item with
     | Some p => is_finite p = true
     | None => True
     end.

Definition finite_order (op : order_op) : Prop :=
  match op with
  | PlaceOrder _ b => Forall finite_item (default [] (OrderBody.items b))
  | _ => True
  end.






(** The same body with another client-supplied total. *)
Definition with_client_total (x : option float) (b : SaleBody.t) : SaleBody.t :=
  {| SaleBody.customerId := SaleBody.customerId b; SaleBody.saleDate := SaleBody.saleDate b;
     SaleBody.saleType := SaleBody.saleType b; SaleBody.quantity := SaleBody.quantity b;
     SaleBody.unitPrice := SaleBody.unitPrice b;
     SaleBody.paymentStatus := SaleBody.paymentStatus b;
     SaleBody.paymentMethod := SaleBody.paymentMethod b; SaleBody.notes := SaleBody.notes b;
     SaleBody.totalAmount := x |}.

(** The columns of a sale that the ledger and the total equation read. *)
Definition sale_core (s : sale) : Z * Z * float * float * float :=
  (sale_id s, sale_customer_id s, quantity s, unit_price s, total_amount s).

(** A sale with the three columns that PUT /api/sales/:id writes blanked. *)
Definition sale_frame (s : sale) : sale := with_payment None None None s.

(** ** Concrete data for the examples *)

Definition env0 : env :=
  {| faults := no_faults; now := 100; date_now := 1700000000000%N;
     random := (2 ^ 52)%N; email_fails := false |}.

(** The same environment, but the second statement of the request fails. *)
Definition env_fail1 : env :=
  {| faults := fun k => bool_decide (k = 1%nat); now := 100; date_now := 1700000000000%N;
     random := (2 ^ 52)%N; email_fails := false |}.

Definition amina : customer :=
  {| customer_id := 1; customer_name := "Amina"; customer_email := None;
     customer_phone := "0700000000"; customer_address := None; customer_notes := None;
     total_purchases := 0; customer_created_by := 1; customer_created_at := 1;
     customer_updated_at := 1 |}.

(** One user, one customer with nothing bought yet. *)
Definition db1 : db :=
  {| users := [1]; customers := [amina]; poultry_batches := []; egg_production := [];
     health_records := []; sales := []; orders := [];
     seq_batches := 0; seq_health := 0; seq_sales := 0; seq_orders := 0;
     foreign_keys := true |}.

Definition sale_body (qty price : float) : SaleBody.t :=
  {| SaleBody.customerId := Some 1; SaleBody.saleDate := Some "2024-06-01";
     SaleBody.saleType := Some "eggs"; SaleBody.quantity := Some qty;
     SaleBody.unitPrice := Some price; SaleBody.paymentStatus := None;
     SaleBody.paymentMethod := None; SaleBody.notes := None;
     SaleBody.totalAmount := Some 1%float |}.

(** Sales of 0.1 and of 0.2 to customer 1, then the first one deleted. *)
Definition drift_ops : list ledger_op :=
  [RecordSale env0 1 (sale_body 1 0.1); RecordSale env0 1 (sale_body 1 0.2);
   DeleteSale env0 1].

Definition paid_update : SaleUpdate.t :=
  {| SaleUpdate.paymentStatus := Some "paid"; SaleUpdate.paymentMethod := Some "cash";
     SaleUpdate.notes := None |}.

Definition batch_body (n : float) : BatchBody.t :=
  {| BatchBody.batchName := Some "Layers A"; BatchBody.birdType := Some "layer";
     BatchBody.initialCount := Some n; BatchBody.dateAcquired := Some "2024-01-10";
     BatchBody.source := None; BatchBody.costPerBird := None; BatchBody.notes := None |}.

Definition health_body (m : float) : HealthBody.t :=
  {| HealthBody.batchId := Some 1; HealthBody.date := Some "2024-02-01";
     HealthBody.recordType := Some "mortality"; HealthBody.description := Some "found dead";
     HealthBody.mortalityCount := Some m; HealthBody.cost := None;
     HealthBody.administeredBy := None; HealthBody.notes := None |}.

Definition eggs_tray (qty : float) : OrderItem.t :=
  {| OrderItem.product := Some "eggs_tray"; OrderItem.quantity := Some qty;
     OrderItem.unit := Some "tray"; OrderItem.unitPrice := Some 15000%float |}.


Definition order_body (items : list OrderItem.t) : OrderBody.t :=
  {| OrderBody.customerName := Some "Brian"; OrderBody.customerEmail := None;
     OrderBody.customerPhone := Some "0711111111"; OrderBody.deliveryAddress := None;
     OrderBody.items := Some items; OrderBody.notes := None;
     OrderBody.totalAmount := Some 1%float |}.

(** The store after one order of two trays has been placed. *)
Definition db_one_order : db := fst (post_order env0 (order_body [eggs_tray 2]) db1).

(** A store with an egg record of January, a sale of June and a health
    record of March, entered in that order. *)
Definition db_feed : db :=
  {| users := [1]; customers := [amina];
     poultry_batches :=
       [ {| batch_id := 1; batch_name := "Layers A"; bird_type := "layer";
            initial_count := 500; current_count := 500; date_acquired := "2024-01-01";
            batch_source := None; cost_per_bird := None; batch_notes := None;
            batch_status := Some "active"; batch_created_by := 1;
            batch_created_at := 5; batch_updated_at := 5 |} ];
     egg_production :=
       [ {| egg_id := 1; egg_batch_id := 1; egg_date := "2024-01-05"; eggs_collected := 120;
            broken_eggs := 2; egg_notes := None; egg_recorded_by := 1;
            egg_created_at := 10 |} ];
     health_records :=
       [ {| health_id := 1; health_batch_id := 1; health_date := "2024-03-01";
            record_type := "checkup"; health_description := "routine"; mortality_count := 0;
            health_cost := 0; administered_by := None; health_notes := None;
            health_recorded_by := 1; health_created_at := 30 |} ];
     sales :=
       [ {| sale_id := 1; sale_customer_id := 1; sale_date := "2024-06-01";
            sale_type := "eggs"; quantity := 10; unit_price := 1000; total_amount := 10000;
            payment_status := Some "pending"; payment_method := None; sale_notes := None;
            sale_recorded_by := 1; sale_created_at := 20 |} ];
     orders := [];
     seq_batches := 1; seq_health := 1; seq_sales := 1; seq_orders := 0;
     foreign_keys := true |}.

(** The timestamps of the rows of a feed response, in the order returned. *)
Definition feed_timestamps (r : response) : list (option jsval) :=
  match json r with
  | JActivities rows => (fun row => row !! "timestamp") <$> rows
  | _ => []
  end.

(** * Further handlers of the same routers

    The handlers below share the store, the statements and the
    [try]/[catch] discipline of the ones above. Tables and AUTOINCREMENT
    marks that the store above does not carry live in [store]. *)

Record feed_record := {
  feed_id : Z;
  feed_batch_id : Z;
  feed_date : string;
  feed_type : string;
  quantity_kg : Z;
  feed_cost : option Z;
  supplier : option string;
  feed_notes : option string;
  feed_recorded_by : Z;
  feed_created_at : Z
}.

Record site_setting := {
  setting_id : Z;
  setting_key : string;
  setting_value : string;
  setting_type : string;
  updated_by : option Z;
  setting_updated_at : Z
}.

(** What the handlers of this part answer with. *)
Inductive payload :=
| PError (error : string)
| PMessage (message : string)
| PCustomer (c : option customer)
| PEgg (r : option egg_record)
| PFeed (r : option feed_record)
| POrders (l : list order)
| POrder (o : order)
| PCount (count : Z)
| PSalesSummary (totalSales todaySales monthSales pendingPayments : float)
                (salesByType : list (string * float * Z))
| PSettings (settingsObj : gmap string string)
| PSetting (s : site_setting).

Record reply := { code : nat; content : payload }.

(** [try { ... } catch (error) { res.status(500).json(...) }] for a [reply]. *)
Definition try_catch_reply (m : M reply) (on_error : reply) (d : db) : db * reply :=
  match m d with
  | Done r d' => (d', r)
  | Thrown d' => (d', on_error)
  end.

(** ** [routes/sales.ts]: the summary *)

(** The sale types in ascending order, as the sorter behind GROUP BY emits
    its groups. *)
Fixpoint insert_asc (x : string) (l : list string) : list string :=
  match l with
  | [] => [x]
  | y :: l' => if String.leb x y then x :: l else y :: insert_asc x l'
  end.

Definition sort_asc (l : list string) : list string := foldr insert_asc [] l.

Section SalesSummary.

(** SQLite's [date(x)] and [strftime('%Y-%m', x)] (NULL on text that is no
    date), and their values at 'now'. *)
Variable sql_date : string -> option string.
Variable sql_month : string -> option string.
Variable today : string.
Variable this_month : string.

(** What SQLite's SUM makes of the REAL values of one or more rows: a
    floating-point sum whose rounding depends on the library version, left
    open here. *)
Variable sql_total : list float -> float.

(** SUM(col): NULL over no rows. *)
Definition sql_sum (l : list float) : option float :=
  match l with
  | [] => None
  | _ => Some (sql_total l)
  end.

(** GROUP BY sale_type with SUM(total_amount) and COUNT( * ): one row for
    each sale type that occurs, in ascending order of the type. *)
Definition group_by_sale_type (l : list sale) : list (string * float * Z) :=
  (fun t => (t, sql_total (total_amount <$> filter (fun s => sale_type s = t) l),
             Z.of_nat (length (filter (fun s => sale_type s = t) l))))
    <$> sort_asc (remove_dups (sale_type <$> l)).

(** SELECT SUM(total_amount) as total FROM sales *)
Definition select_total_sales (d : db) : option (option float * db) :=
  Some (sql_sum (total_amount <$> sales d), d).

(** ... WHERE date(sale_date) = date('now') *)
Definition select_today_sales (d : db) : option (option float * db) :=
  Some (sql_sum (total_amount <$>
          filter (fun s => sql_date (sale_date s) = Some today) (sales d)), d).

(** ... WHERE strftime('%Y-%m', sale_date) = strftime('%Y-%m', 'now') *)
Definition select_month_sales (d : db) : option (option float * db) :=
  Some (sql_sum (total_amount <$>
          filter (fun s => sql_month (sale_date s) = Some this_month) (sales d)), d).

(** ... WHERE payment_status = 'pending' *)
Definition select_pending_payments (d : db) : option (option float * db) :=
  Some (sql_sum (total_amount <$>
          filter (fun s => payment_status s = Some "pending") (sales d)), d).

(** SELECT sale_type, SUM(total_amount) as total, COUNT( * ) as count
    FROM sales GROUP BY sale_type *)
Definition select_sales_by_type (d : db) : option (list (string * float * Z) * db) :=
  Some (group_by_sale_type (sales d), d).

(** GET /api/sales/stats/summary *)
Definition get_sales_summary (e : env) : db -> db * reply :=
  try_catch_reply
    (let* totalSales := run (faults e 0%nat) select_total_sales in
     let* todaySales := run (faults e 1%nat) select_today_sales in
     let* monthSales := run (faults e 2%nat) select_month_sales in
     let* pendingPayments := run (faults e 3%nat) select_pending_payments in
     let* salesByType := run (faults e 4%nat) select_sales_by_type in
     ret {| code := 200;
            content := PSalesSummary (number_or totalSales 0) (number_or todaySales 0)
                         (number_or monthSales 0) (number_or pendingPayments 0)
                         salesByType |})
    {| code := 500; content := PError "Failed to fetch sales statistics" |}.

End SalesSummary.

(** ** [routes/poultry.ts]: batch update *)

Module BatchUpdate.
Record t := {
  batchName : option string;
  birdType : option string;
  currentCount : option float;
  status : option string;
  notes : option string
}.
End BatchUpdate.

Definition batch_statuses : list string := ["active"; "sold"; "archived"].

Definition with_batch_update (b : BatchUpdate.t) (t : Z) (x : poultry_batch) : poultry_batch :=
  {| batch_id := batch_id x; batch_name := str (BatchUpdate.batchName b);
     bird_type := str (BatchUpdate.birdType b); initial_count := initial_count x;
     current_count := integer_column (number (BatchUpdate.currentCount b));
     date_acquired := date_acquired x; batch_source := batch_source x;
     cost_per_bird := cost_per_bird x; batch_notes := BatchUpdate.notes b;
     batch_status := BatchUpdate.status b; batch_created_by := batch_created_by x;
     batch_created_at := batch_created_at x; batch_updated_at := t |}.

(** The row the UPDATE would write is admissible: batch_name, bird_type and
    current_count are NOT NULL (a missing field is bound as NULL, and so
    is NaN), status is checked against its list. *)
Definition batch_update_admissible (b : BatchUpdate.t) : bool :=
  bool_decide (is_Some (BatchUpdate.batchName b))
  && bool_decide (is_Some (BatchUpdate.birdType b))
  && match BatchUpdate.currentCount b with
     | Some c => negb (is_nan c)
     | None => false
     end
  && check_in batch_statuses (BatchUpdate.status b).

(** UPDATE poultry_batches SET batch_name = ?, bird_type = ?, current_count = ?,
    status = ?, notes = ?, updated_at = CURRENT_TIMESTAMP WHERE id = ? *)
Definition update_batch (t : Z) (b : BatchUpdate.t) (id : Z) (d : db) : option (unit * db) :=
  if bool_decide (Exists (fun x => batch_id x = id) (poultry_batches d))
     && negb (batch_update_admissible b)
  then None
  else Some (tt, set_batches
    ((fun x => if decide (batch_id x = id) then with_batch_update b t x else x)
       <$> poultry_batches d) (seq_batches d) d).

(** PUT /api/poultry/batches/:id *)
Definition put_batch (e : env) (id : Z) (b : BatchUpdate.t) : db -> db * response :=
  try_catch
    (let* _ := run (faults e 0%nat) (update_batch (now e) b id) in
     let* batch := run (faults e 1%nat) (select_batch id) in
     ret {| status := 200; json := JBatch batch |})
    {| status := 500; json := JError "Failed to update batch" |}.

(** ** [routes/orders.ts]: the listings *)

(** SELECT * FROM orders [WHERE status = ?] ORDER BY created_at DESC *)
Definition select_orders (status : option string) (d : db) : option (list order * db) :=
  Some (order_by_desc order_created_at
          match status with
          | Some st => filter (fun o => order_status o = st) (orders d)
          | None => orders d
          end, d).

(** GET /api/orders; [status] is [req.query.status]. *)
Definition get_orders (e : env) (status : option string) : db -> db * reply :=
  try_catch_reply
    (let* orders :=
       run (faults e 0%nat)
           (select_orders (if negb (falsy_str status) && negb (bool_decide (status = Some "all"))
                           then status else None)) in
     ret {| code := 200; content := POrders orders |})
    {| code := 500; content := PError "Failed to fetch orders" |}.

(** SELECT COUNT( * ) as count FROM orders WHERE status = 'new' *)
Definition select_new_order_count (d : db) : option (Z * db) :=
  Some (Z.of_nat (length (filter (fun o => order_status o = "new") (orders d))), d).

(** GET /api/orders/count/new *)
Definition get_new_order_count (e : env) : db -> db * reply :=
  try_catch_reply
    (let* result := run (faults e 0%nat) select_new_order_count in
     ret {| code := 200; content := PCount result |})
    {| code := 500; content := PError "Failed to count new orders" |}.

(** GET /api/orders/:id *)
Definition get_order (e : env) (id : Z) : db -> db * reply :=
  try_catch_reply
    (let* order := run (faults e 0%nat) (select_order id) in
     match order with
     | None => ret {| code := 404; content := PError "Order not found" |}
     | Some o => ret {| code := 200; content := POrder o |}
     end)
    {| code := 500; content := PError "Failed to fetch order" |}.

(** ** [routes/customers.ts]: update and delete *)

Module CustomerBody.
Record t := {
  name : option string;
  email : option string;
  phone : option string;
  address : option string;
  notes : option string
}.
End CustomerBody.

Definition with_customer_update (b : CustomerBody.t) (t : Z) (c : customer) : customer :=
  {| customer_id := customer_id c; customer_name := str (CustomerBody.name b);
     customer_email := CustomerBody.email b; customer_phone := str (CustomerBody.phone b);
     customer_address := CustomerBody.address b; customer_notes := CustomerBody.notes b;
     total_purchases := total_purchases c; customer_created_by := customer_created_by c;
     customer_created_at := customer_created_at c; customer_updated_at := t |}.

(** UPDATE customers SET name = ?, email = ?, phone = ?, address = ?, notes = ?,
    updated_at = CURRENT_TIMESTAMP WHERE id = ?
    name and phone are NOT NULL; a missing field is bound as NULL. *)
Definition update_customer (t : Z) (b : CustomerBody.t) (id : Z) (d : db) : option (unit * db) :=
  if bool_decide (Exists (fun c => customer_id c = id) (customers d))
     && negb (bool_decide (is_Some (CustomerBody.name b))
              && bool_decide (is_Some (CustomerBody.phone b)))
  then None
  else Some (tt, set_customers
    ((fun c => if decide (customer_id c = id) then with_customer_update b t c else c)
       <$> customers d) d).

(** SELECT * FROM customers WHERE id = ? *)
Definition select_customer (id : Z) (d : db) : option (option customer * db) :=
  Some (head (filter (fun c => customer_id c = id) (customers d)), d).

(** DELETE FROM customers WHERE id = ?
    With foreign keys enforced, a deleted row that a sale still references
    aborts the statement. *)
Definition delete_customer (id : Z) (d : db) : option (unit * db) :=
  if foreign_keys d
     && bool_decide (Exists (fun c => customer_id c = id) (customers d))
     && bool_decide (Exists (fun s => sale_customer_id s = id) (sales d))
  then None
  else Some (tt, set_customers (filter (fun c => customer_id c <> id) (customers d)) d).

(** PUT /api/customers/:id *)
Definition put_customer (e : env) (id : Z) (b : CustomerBody.t) : db -> db * reply :=
  try_catch_reply
    (let* _ := run (faults e 0%nat) (update_customer (now e) b id) in
     let* customer := run (faults e 1%nat) (select_customer id) in
     ret {| code := 200; content := PCustomer customer |})
    {| code := 500; content := PError "Failed to update customer" |}.

(** DELETE /api/customers/:id *)
Definition delete_customer_by_id (e : env) (id : Z) : db -> db * reply :=
  try_catch_reply
    (let* _ := run (faults e 0%nat) (delete_customer id) in
     ret {| code := 200; content := PMessage "Customer deleted successfully" |})
    {| code := 500; content := PError "Failed to delete customer" |}.

(** ** [middleware/auth.ts] *)

(** The payload of a verified token, which becomes [req.user]. *)
Record jwt_user := { userId : Z; email : string; role : string }.

(** [s.replace(pat, rep)] for a string pattern: the first occurrence only. *)
Fixpoint replace_first (pat rep s : string) : string :=
  if String.prefix pat s
  then rep ++ String.substring (String.length pat) (String.length s - String.length pat) s
  else match s with
       | EmptyString => EmptyString
       | String c s' => String c (replace_first pat rep s')
       end.

Section Auth.

(** [jwt.verify(token, JWT_SECRET)]; [None] when it throws. *)
Variable jwt_verify : string -> option jwt_user.

(** [req.cookies?.token || req.headers.authorization?.replace('Bearer ', '')] *)
Definition request_token (cookie authorization : option string) : option string :=
  if falsy_str cookie then replace_first "Bearer " "" <$> authorization else cookie.

(** [authMiddleware]: a response, or [next()] with [req.user] set. *)
Definition authMiddleware (cookie authorization : option string) : response + jwt_user :=
  let token := request_token cookie authorization in
  if falsy_str token
  then inl {| status := 401; json := JError "Authentication required" |}
  else match jwt_verify (str token) with
       | Some decoded => inr decoded
       | None => inl {| status := 401; json := JError "Invalid or expired token" |}
       end.

(** [employeeMiddleware]: a response, or [None] for [next()]. *)
Definition employeeMiddleware (user : option jwt_user) : option response :=
  match user with
  | None => Some {| status := 401; json := JError "Authentication required" |}
  | Some u =>
      if negb (bool_decide (role u = "employee")) && negb (bool_decide (role u = "admin"))
      then Some {| status := 403;
                   json := JError "Access denied. Employee or admin role required." |}
      else None
  end.

(** [adminMiddleware] *)
Definition adminMiddleware (user : option jwt_user) : option response :=
  match user with
  | None => Some {| status := 401; json := JError "Authentication required" |}
  | Some u =>
      if negb (bool_decide (role u = "admin"))
      then Some {| status := 403; json := JError "Access denied. Admin role required." |}
      else None
  end.

(** [router.use(authMiddleware); router.use(employeeMiddleware);] in front
    of a handler, as in sales.ts, poultry.ts, expenses.ts and dashboard.ts. *)
Definition employee_route (cookie authorization : option string)
    (handler : jwt_user -> db -> db * response) (d : db) : db * response :=
  match authMiddleware cookie authorization with
  | inl r => (d, r)
  | inr user =>
      match employeeMiddleware (Some user) with
      | Some r => (d, r)
      | None => handler user d
      end
  end.

End Auth.

(** ** The store with the remaining tables *)

Record store := {
  core : db;
  feed_records : list feed_record;
  site_settings : list site_setting;
  seq_customers : Z;
  seq_eggs : Z;
  seq_feed : Z;
  seq_settings : Z
}.

Definition set_core (d : db) (s : store) : store :=
  {| core := d; feed_records := feed_records s; site_settings := site_settings s;
     seq_customers := seq_customers s; seq_eggs := seq_eggs s; seq_feed := seq_feed s;
     seq_settings := seq_settings s |}.

Definition set_egg_production (l : list egg_record) (d : db) : db :=
  {| users := users d; customers := customers d; poultry_batches := poultry_batches d;
     egg_production := l; health_records := health_records d;
     sales := sales d; orders := orders d;
     seq_batches := seq_batches d; seq_health := seq_health d;
     seq_sales := seq_sales d; seq_orders := seq_orders d;
     foreign_keys := foreign_keys d |}.

Inductive outcome_on (A : Type) :=
| Done_on (a : A) (s : store)
| Thrown_on (s : store).
Arguments Done_on {A} a s.
Arguments Thrown_on {A} s.

Definition MS (A : Type) := store -> outcome_on A.

Definition ret_on {A} (a : A) : MS A := fun s => Done_on a s.

Definition bind_on {A B} (m : MS A) (k : A -> MS B) : MS B :=
  fun s => match m s with
           | Done_on a s' => k a s'
           | Thrown_on s' => Thrown_on s'
           end.

Notation "'let+' x ':=' m 'in' k" := (bind_on m (fun x => k))
  (at level 10, x name, m at level 100, k at level 200).

Definition run_on {A} (fails : bool) (stmt : store -> option (A * store)) : MS A :=
  fun s => if fails then Thrown_on s
           else match stmt s with
                | Some (a, s') => Done_on a s'
                | None => Thrown_on s
                end.

Definition try_catch_on (m : MS reply) (on_error : reply) (s : store) : store * reply :=
  match m s with
  | Done_on r s' => (s', r)
  | Thrown_on s' => (s', on_error)
  end.

(** [db.transaction(fn)(...)]: when [fn] throws, everything it wrote is
    rolled back and the exception goes on. *)
Definition transaction {A} (m : MS A) : MS A :=
  fun s => match m s with
           | Done_on a s' => Done_on a s'
           | Thrown_on _ => Thrown_on s
           end.

(** ** [routes/customers.ts]: create *)

(** INSERT INTO customers (name, email, phone, address, notes, created_by)
    VALUES (...); total_purchases takes its default 0. *)
Definition insert_customer (t : Z) (name : string) (email : option string) (phone : string)
    (address notes : option string) (userId : Z) (s : store) : option (Z * store) :=
  if references (core s) (users (core s)) userId then
    let id := seq_customers s + 1 in
    Some (id,
      {| core := set_customers (customers (core s) ++
           [ {| customer_id := id; customer_name := name; customer_email := email;
                customer_phone := phone; customer_address := address;
                customer_notes := notes; total_purchases := 0;
                customer_created_by := userId; customer_created_at := t;
                customer_updated_at := t |} ]) (core s);
         feed_records := feed_records s; site_settings := site_settings s;
         seq_customers := id; seq_eggs := seq_eggs s; seq_feed := seq_feed s;
         seq_settings := seq_settings s |})
  else None.

(** POST /api/customers *)
Definition post_customer (e : env) (userId : Z) (b : CustomerBody.t) : store -> store * reply :=
  try_catch_on
    (if falsy_str (CustomerBody.name b) || falsy_str (CustomerBody.phone b)
     then ret_on {| code := 400; content := PError "Name and phone are required" |}
     else
       let+ result := run_on (faults e 0%nat)
         (insert_customer (now e) (str (CustomerBody.name b))
            (str_or_null (CustomerBody.email b)) (str (CustomerBody.phone b))
            (str_or_null (CustomerBody.address b)) (str_or_null (CustomerBody.notes b))
            userId) in
       let+ customer := run_on (faults e 1%nat)
         (fun s => Some (head (filter (fun c => customer_id c = result)
                                 (customers (core s))), s)) in
       ret_on {| code := 201; content := PCustomer customer |})
    {| code := 500; content := PError "Failed to create customer" |}.

(** ** [routes/poultry.ts]: egg and feed records *)

Module EggBody.
Record t := {
  batchId : option Z;
  date : option string;
  eggsCollected : option Z;
  brokenEggs : option Z;
  notes : option string
}.
End EggBody.

Module FeedBody.
Record t := {
  batchId : option Z;
  date : option string;
  feedType : option string;
  quantityKg : option Z;
  cost : option Z;
  supplier : option string;
  notes : option string
}.
End FeedBody.

(** INSERT INTO egg_production (batch_id, date, eggs_collected, broken_eggs,
    notes, recorded_by) VALUES (...) *)
Definition insert_egg (t batchId : Z) (date : string) (eggsCollected brokenEggs : Z)
    (notes : option string) (userId : Z) (s : store) : option (Z * store) :=
  if references (core s) (batch_id <$> poultry_batches (core s)) batchId
     && references (core s) (users (core s)) userId
  then
    let id := seq_eggs s + 1 in
    Some (id,
      {| core := set_egg_production (egg_production (core s) ++
           [ {| egg_id := id; egg_batch_id := batchId; egg_date := date;
                eggs_collected := eggsCollected; broken_eggs := brokenEggs;
                egg_notes := notes; egg_recorded_by := userId;
                egg_created_at := t |} ]) (core s);
         feed_records := feed_records s; site_settings := site_settings s;
         seq_customers := seq_customers s; seq_eggs := id; seq_feed := seq_feed s;
         seq_settings := seq_settings s |})
  else None.

(** POST /api/poultry/eggs *)
Definition post_egg (e : env) (userId : Z) (b : EggBody.t) : store -> store * reply :=
  try_catch_on
    (if falsy_num (EggBody.batchId b) || falsy_str (EggBody.date b)
        || negb (bool_decide (is_Some (EggBody.eggsCollected b)))
     then ret_on {| code := 400;
                    content := PError "Batch ID, date, and eggs collected are required" |}
     else
       let+ result := run_on (faults e 0%nat)
         (insert_egg (now e) (num (EggBody.batchId b)) (str (EggBody.date b))
            (num (EggBody.eggsCollected b)) (num_or (EggBody.brokenEggs b) 0)
            (str_or_null (EggBody.notes b)) userId) in
       let+ record := run_on (faults e 1%nat)
         (fun s => Some (head (filter (fun r => egg_id r = result)
                                 (egg_production (core s))), s)) in
       ret_on {| code := 201; content := PEgg record |})
    {| code := 500; content := PError "Failed to create egg record" |}.

(** INSERT INTO feed_records (batch_id, date, feed_type, quantity_kg, cost,
    supplier, notes, recorded_by) VALUES (...) *)
Definition insert_feed (t batchId : Z) (date feedType : string) (quantityKg : Z)
    (cost : option Z) (supplier notes : option string) (userId : Z) (s : store)
    : option (Z * store) :=
  if references (core s) (batch_id <$> poultry_batches (core s)) batchId
     && references (core s) (users (core s)) userId
  then
    let id := seq_feed s + 1 in
    Some (id,
      {| core := core s;
         feed_records := feed_records s ++
           [ {| feed_id := id; feed_batch_id := batchId; feed_date := date;
                feed_type := feedType; quantity_kg := quantityKg; feed_cost := cost;
                supplier := supplier; feed_notes := notes; feed_recorded_by := userId;
                feed_created_at := t |} ];
         site_settings := site_settings s;
         seq_customers := seq_customers s; seq_eggs := seq_eggs s; seq_feed := id;
         seq_settings := seq_settings s |})
  else None.

(** POST /api/poultry/feed *)
Definition post_feed (e : env) (userId : Z) (b : FeedBody.t) : store -> store * reply :=
  try_catch_on
    (if falsy_num (FeedBody.batchId b) || falsy_str (FeedBody.date b)
        || falsy_str (FeedBody.feedType b) || falsy_num (FeedBody.quantityKg b)
     then ret_on {| code := 400;
                    content := PError "Batch ID, date, feed type, and quantity are required" |}
     else
       let+ result := run_on (faults e 0%nat)
         (insert_feed (now e) (num (FeedBody.batchId b)) (str (FeedBody.date b))
            (str (FeedBody.feedType b)) (num (FeedBody.quantityKg b))
            (num_or_null (FeedBody.cost b)) (str_or_null (FeedBody.supplier b))
            (str_or_null (FeedBody.notes b)) userId) in
       let+ record := run_on (faults e 1%nat)
         (fun s => Some (head (filter (fun r => feed_id r = result) (feed_records s)), s)) in
       ret_on {| code := 201; content := PFeed record |})
    {| code := 500; content := PError "Failed to create feed record" |}.

(** ** Site settings ([db/schema.ts], [routes/settings.ts]) *)

(** The [defaultSettings] of [initializeDatabase]: key, value, type. *)
Definition defaultSettings : list (string * string * string) :=
  [
    ("hero_title", "Fresh From Our Farm", "text");
    ("hero_subtitle", "To Your Table", "text");
    ("hero_description", "Premium quality eggs and poultry products from Matugga's finest farm. Raised with care, delivered with love.", "text");
    ("phone_number", "+256 763 564 896", "text");
    ("email", "info@countryfarm.ug", "text");
    ("address", "Matugga, Wakiso District, Uganda", "text");
    ("whatsapp_number", "256763564896", "text");
    ("eggs_price", "From UGX 15,000/tray", "text");
    ("birds_price", "From UGX 25,000/bird", "text");
    ("manure_price", "From UGX 5,000/bag", "text");
    ("eggs_description", "Farm-fresh eggs collected daily from our healthy, free-range chickens.", "text");
    ("birds_description", "Healthy chickens raised with natural feed and proper care.", "text");
    ("manure_description", "High-quality chicken manure for your garden and farm.", "text");
    ("order_price_eggs_tray", "15000", "text");
    ("order_price_eggs_crate", "170000", "text");
    ("order_price_broiler_chicken", "25000", "text");
    ("order_price_layer_chicken", "20000", "text");
    ("order_price_kienyeji_chicken", "35000", "text");
    ("order_price_day_old_chicks", "3500", "text");
    ("order_price_manure_bag", "5000", "text");
    ("order_price_manure_truck", "200000", "text");
    ("stat_birds", "5000+", "text");
    ("stat_eggs", "10K+", "text");
    ("stat_customers", "500+", "text");
    ("stat_years", "5+", "text");
    ("testimonial_1_name", "Sarah Nakato", "text");
    ("testimonial_1_role", "Restaurant Owner", "text");
    ("testimonial_1_content", "The quality of eggs from Country Farm is exceptional. My customers love the rich taste!", "text");
    ("testimonial_1_rating", "5", "text");
    ("testimonial_2_name", "John Mukasa", "text");
    ("testimonial_2_role", "Grocery Store Owner", "text");
    ("testimonial_2_content", "Reliable delivery and consistent quality. They are my go-to supplier for fresh eggs.", "text");
    ("testimonial_2_rating", "5", "text");
    ("testimonial_3_name", "Grace Achieng", "text");
    ("testimonial_3_role", "Home Customer", "text");
    ("testimonial_3_content", "Fresh, affordable, and the team is always friendly. Highly recommend!", "text");
    ("testimonial_3_rating", "5", "text")
  ].

(** SELECT COUNT( * ) as count FROM site_settings *)
Definition count_settings (s : store) : option (Z * store) :=
  Some (Z.of_nat (length (site_settings s)), s).

(** INSERT INTO site_settings (setting_key, setting_value, setting_type)
    VALUES (?, ?, ?); setting_key is UNIQUE. *)
Definition insert_setting (t : Z) (key value type : string) (s : store) : option (unit * store) :=
  if bool_decide (key ∈ setting_key <$> site_settings s) then None
  else
    let id := seq_settings s + 1 in
    Some (tt,
      {| core := core s; feed_records := feed_records s;
         site_settings := site_settings s ++
           [ {| setting_id := id; setting_key := key; setting_value := value;
                setting_type := type; updated_by := None; setting_updated_at := t |} ];
         seq_customers := seq_customers s; seq_eggs := seq_eggs s; seq_feed := seq_feed s;
         seq_settings := id |}).

(** [for (const setting of defaultSettings) insertStmt.run(...)] *)
Fixpoint insert_settings (t : Z) (l : list (string * string * string)) : MS unit :=
  match l with
  | [] => ret_on tt
  | (key, value, type) :: l' =>
      let+ _ := run_on false (insert_setting t key value type) in
      insert_settings t l'
  end.

(** The part of [initializeDatabase] that seeds the settings; the
    CREATE TABLE IF NOT EXISTS statements before it leave existing tables
    as they are. Nothing catches a throw here. *)
Definition initializeDatabase (t : Z) : MS unit :=
  let+ existingSettings := run_on false count_settings in
  if existingSettings =? 0 then insert_settings t defaultSettings else ret_on tt.

(** [settings.forEach(s => settingsObj[s.setting_key] = s.setting_value)] *)
Definition settings_object (rows : list site_setting) : gmap string string :=
  foldl (fun obj s => <[setting_key s := setting_value s]> obj) ∅ rows.

(** SELECT setting_key, setting_value FROM site_settings *)
Definition select_settings (s : store) : option (list site_setting * store) :=
  Some (site_settings s, s).


Definition with_setting_value (value : string) (userId t : Z) (r : site_setting) : site_setting :=
  {| setting_id := setting_id r; setting_key := setting_key r; setting_value := value;
     setting_type := setting_type r; updated_by := Some userId; setting_updated_at := t |}.

Definition set_site_settings (l : list site_setting) (sq : Z) (s : store) : store :=
  {| core := core s; feed_records := feed_records s; site_settings := l;
     seq_customers := seq_customers s; seq_eggs := seq_eggs s; seq_feed := seq_feed s;
     seq_settings := sq |}.

(** UPDATE site_settings SET setting_value = ?, updated_by = ?,
    updated_at = CURRENT_TIMESTAMP WHERE setting_key = ?
    updated_by references users; it is checked when a row is rewritten. *)
Definition update_setting (t : Z) (value : string) (userId : Z) (key : string) (s : store)
    : option (unit * store) :=
  if bool_decide (Exists (fun r => setting_key r = key) (site_settings s))
     && negb (references (core s) (users (core s)) userId)
  then None
  else Some (tt, set_site_settings
    ((fun r => if decide (setting_key r = key) then with_setting_value value userId t r else r)
       <$> site_settings s) (seq_settings s) s).

(** INSERT OR IGNORE INTO site_settings (setting_key, setting_value,
    setting_type, updated_by) VALUES (?, ?, 'text', ?)
    A taken key skips the row, after the AUTOINCREMENT mark has moved on
    by the id the row would have had; a new row still has to reference a
    user. *)
Definition insert_or_ignore_setting (t : Z) (key value : string) (userId : Z) (s : store)
    : option (unit * store) :=
  if bool_decide (key ∈ setting_key <$> site_settings s)
  then Some (tt, set_site_settings (site_settings s) (seq_settings s + 1) s)
  else if references (core s) (users (core s)) userId then
    let id := seq_settings s + 1 in
    Some (tt, set_site_settings (site_settings s ++
      [ {| setting_id := id; setting_key := key; setting_value := value;
           setting_type := "text"; updated_by := Some userId;
           setting_updated_at := t |} ]) id s)
  else None.



(** The body of [updateMany]: for each entry, insert (ignored when the key
    exists), then update. [k] numbers the statements. *)
Fixpoint update_many (e : env) (userId : Z) (k : nat) (entries : list (string * string))
    : MS unit :=
  match entries with
  | [] => ret_on tt
  | (key, value) :: entries' =>
      let+ _ := run_on (faults e k) (insert_or_ignore_setting (now e) key value userId) in
      let+ _ := run_on (faults e (S k)) (update_setting (now e) value userId key) in
      update_many e userId (S (S k)) entries'
  end.

(** PUT /api/settings; [settings] is [Object.entries(req.body)], [None]
    when the body is no object. *)
Definition put_settings (e : env) (userId : Z) (settings : option (list (string * string)))
    : store -> store * reply :=
  try_catch_on
    (match settings with
     | None => ret_on {| code := 400; content := PError "Settings object is required" |}
     | Some entries =>
         let+ _ := transaction (update_many e userId 0 entries) in
         let+ updatedSettings :=
           run_on (faults e (2 * length entries)%nat) select_settings in
         ret_on {| code := 200; content := PSettings (settings_object updatedSettings) |}
     end)
    {| code := 500; content := PError "Failed to update site settings" |}.

(** ** Specification-level definitions for the further handlers *)

(** The store after a successful sale of 10 at 1000 to customer 1. *)
Definition db_one_sale : db := fst (post_sale env0 1 (sale_body 10 1000) db1).

Definition sum_Z (l : list Z) : Z := foldr Z.add 0 l.

(** The requests of poultry.ts that write, on the full store. *)
Inductive poultry_op :=
| CreateBatch (e : env) (userId : Z) (b : BatchBody.t)
| UpdateBatch (e : env) (id : Z) (b : BatchUpdate.t)
| RecordEggs (e : env) (userId : Z) (b : EggBody.t)
| RecordFeed (e : env) (userId : Z) (b : FeedBody.t)
| RecordHealth (e : env) (userId : Z) (b : HealthBody.t).

Definition poultry_step (s : store) (op : poultry_op) : store :=
  match op with
  | CreateBatch e userId b => set_core (fst (post_batch e userId b (core s))) s
  | UpdateBatch e id b => set_core (fst (put_batch e id b (core s))) s
  | RecordEggs e userId b => fst (post_egg e userId b s)
  | RecordFeed e userId b => fst (post_feed e userId b s)
  | RecordHealth e userId b => set_core (fst (post_health e userId b (core s))) s
  end.

Definition run_poultry_ops (ops : list poultry_op) (s : store) : store :=
  foldl poultry_step s ops.

(** The batch's initial headcount, if the batch exists. *)
Definition initial_of (bid : Z) (d : db) : option float :=
  initial_count <$> head (filter (fun b => batch_id b = bid) (poultry_batches d)).

(** Every health, egg and feed record points to a batch that exists. *)
Definition poultry_refs_ok (s : store) : Prop :=
  Forall (fun h => health_batch_id h ∈ batch_id <$> poultry_batches (core s))
         (health_records (core s))
  /\ Forall (fun r => egg_batch_id r ∈ batch_id <$> poultry_batches (core s))
            (egg_production (core s))
  /\ Forall (fun r => feed_batch_id r ∈ batch_id <$> poultry_batches (core s))
            (feed_records s).

Definition store1 : store :=
  {| core := db1; feed_records := []; site_settings := [];
     seq_customers := 1; seq_eggs := 0; seq_feed := 0; seq_settings := 0 |}.

(** The store after a batch of 500 has been created. *)
Definition store_one_batch : store :=
  set_core (fst (post_batch env0 1 (batch_body 500) db1)) store1.

Definition batch_update (count : float) : BatchUpdate.t :=
  {| BatchUpdate.batchName := Some "Layers A"; BatchUpdate.birdType := Some "layer";
     BatchUpdate.currentCount := Some count; BatchUpdate.status := Some "active";
     BatchUpdate.notes := None |}.

Definition egg_body (n : Z) : EggBody.t :=
  {| EggBody.batchId := Some 1; EggBody.date := Some "2024-02-02";
     EggBody.eggsCollected := Some n; EggBody.brokenEggs := None; EggBody.notes := None |}.

Definition feed_body (kg : Z) : FeedBody.t :=
  {| FeedBody.batchId := Some 1; FeedBody.date := Some "2024-02-02";
     FeedBody.feedType := Some "layers mash"; FeedBody.quantityKg := Some kg;
     FeedBody.cost := None; FeedBody.supplier := None; FeedBody.notes := None |}.

(** [id] is the primary key of orders, below the AUTOINCREMENT mark. *)
Definition orders_wf (d : db) : Prop :=
  NoDup (order_id <$> orders d) /\ Forall (fun o => order_id o <= seq_orders d) (orders d).

(** The order has at least one item, and every item has a product and a
    quantity of at least 1. *)
Definition order_items_valid (o : order) : Prop :=
  order_items o <> [] /\ Forall (fun item => item_invalid item = false) (order_items o).

(** A stored item passes the checks of the handler, or it has a product
    and the quantity null, which is what the JSON text makes of an
    infinite quantity. *)
Definition item_kept (item : OrderItem.t) : Prop :=
  item_invalid item = false
  \/ (falsy_str (OrderItem.product item) = false /\ OrderItem.quantity item = None).

Definition order_items_kept (o : order) : Prop :=
  order_items o <> [] /\ Forall item_kept (order_items o).

(** No element is followed by one with a larger key. *)
Fixpoint descending {A} (key : A -> Z) (l : list A) : Prop :=
  match l with
  | [] => True
  | x :: l' => Forall (fun y => key y <= key x) l' /\ descending key l'
  end.

(** The orders a listing request asks for. *)
Definition orders_asked_for (status : option string) (d : db) : list order :=
  match status with
  | Some st =>
      if decide (st = "" \/ st = "all") then orders d
      else filter (fun o => order_status o = st) (orders d)
  | None => orders d
  end.

(** The requests that touch customers or sales, on the full store. *)
Inductive customer_op :=
| CreateCustomer (e : env) (userId : Z) (b : CustomerBody.t)
| UpdateCustomer (e : env) (id : Z) (b : CustomerBody.t)
| DeleteCustomer (e : env) (id : Z)
| SaleRequest (op : sale_op).

Definition customer_step (s : store) (op : customer_op) : store :=
  match op with
  | CreateCustomer e userId b => fst (post_customer e userId b s)
  | UpdateCustomer e id b => set_core (fst (put_customer e id b (core s))) s
  | DeleteCustomer e id => set_core (fst (delete_customer_by_id e id (core s))) s
  | SaleRequest op => set_core (sale_step (core s) op) s
  end.

Definition run_customer_ops (ops : list customer_op) (s : store) : store :=
  foldl customer_step s ops.

(** Every sale points to a customer that exists. *)
Definition sales_refs_ok (d : db) : Prop :=
  Forall (fun s => sale_customer_id s ∈ customer_id <$> customers d) (sales d).

Definition customer_body (name : string) : CustomerBody.t :=
  {| CustomerBody.name := Some name; CustomerBody.email := None;
     CustomerBody.phone := Some "0722222222"; CustomerBody.address := None;
     CustomerBody.notes := None |}.

(** [store1] after customer 1 has bought 10 at 1000. *)
Definition store_one_sale : store := set_core db_one_sale store1.

(** Key, value and type of a setting row. *)
Definition setting_triple (r : site_setting) : string * string * string :=
  (setting_key r, setting_value r, setting_type r).


(** The same environment with no storage failure. *)
Definition calm (e : env) : env :=
  {| faults := no_faults; now := now e; date_now := date_now e; random := random e;
     email_fails := email_fails e |}.



(** What a request of poultry.ts can do to the batches: nothing, rewrite
    rows keeping id and initial_count, or append one row. *)
Inductive batches_step (l : list poultry_batch) : list poultry_batch -> Prop :=
| batches_same : batches_step l l
| batches_rewritten (f : poultry_batch -> poultry_batch) :
    (forall x, batch_id (f x) = batch_id x) ->
    (forall x, initial_count (f x) = initial_count x) ->
    batches_step l (f <$> l)
| batches_appended (x : poultry_batch) : batches_step l (l ++ [x]).

(** What a request of orders.ts can do to the orders. *)
Inductive orders_change (d : db) : list order -> Prop :=
| orders_same : orders_change d (orders d)
| orders_placed (o : order) :
    order_number o ∉ order_number <$> orders d ->
    order_status o = "new" ->
    order_items_kept o ->
    orders_change d (orders d ++ [o])
| orders_restatused (st : string) (t id : Z) :
    st ∈ validStatuses ->
    orders_change d ((fun o => if decide (order_id o = id) then with_status st t o else o)
                       <$> orders d)
| orders_removed (id : Z) :
    orders_change d (filter (fun o => order_id o <> id) (orders d)).

(** * Proofs *)

(** ** Doubles: rounding leaves whole numbers below 2^53 alone *)

Lemma digits2_size (p : positive) : digits2_pos p = Pos.size p.
Proof. induction p as [p IH|p IH|]; simpl; by rewrite ?IH. Qed.

Lemma iter_pos_nat {A} (f : A -> A) (p : positive) (x : A) :
  SpecFloat.iter_pos f p x = Nat.iter (Pos.to_nat p) f x.
Proof.
  revert x. induction p as [p IH|p IH|]; intros x; cbn [SpecFloat.iter_pos].
  - rewrite !IH, Pos2Nat.inj_xI. cbn [Nat.mul]. rewrite Nat.add_0_r.
    rewrite Nat.iter_succ_r. by rewrite Nat.iter_add.
  - rewrite !IH, Pos2Nat.inj_xO. cbn [Nat.mul]. by rewrite Nat.add_0_r, Nat.iter_add.
  - done.
Qed.

Lemma shiftl_pos_nat (m p : positive) :
  Pos.iter xO m p = Nat.iter (Pos.to_nat p) xO m.
Proof. apply Pos2Nat.inj_iter. Qed.

Lemma shr_exact_nat (k : nat) (m : positive) :
  Nat.iter k shr_1 {| shr_m := Zpos (Nat.iter k xO m); shr_r := false; shr_s := false |}
  = {| shr_m := Zpos m; shr_r := false; shr_s := false |}.
Proof.
  induction k as [|k IH]; [done|].
  rewrite Nat.iter_succ_r. simpl. exact IH.
Qed.

Lemma Zpos_shiftl (m : positive) (n : N) :
  Zpos (Pos.shiftl m n) = Zpos m * 2 ^ Z.of_N n.
Proof.
  destruct n as [|p].
  { change (Pos.shiftl m 0) with m. change (Z.of_N 0) with 0. lia. }
  change (Pos.shiftl m (N.pos p)) with (Pos.iter xO m p).
  change (Z.of_N (N.pos p)) with (Z.pos p).
  rewrite shiftl_pos_nat. rewrite <- (positive_nat_Z p).
  induction (Pos.to_nat p) as [|k IH]; [simpl; lia|].
  rewrite Nat2Z.inj_succ, Z.pow_succ_r by lia. simpl Nat.iter.
  rewrite Pos2Z.inj_xO, IH. lia.
Qed.

Lemma size_log2 (p : positive) : Zpos (Pos.size p) = Z.log2 (Zpos p) + 1.
Proof. destruct p; simpl; lia. Qed.

Lemma size_shiftl (m : positive) (n : N) :
  Zpos (Pos.size (Pos.shiftl m n)) = Zpos (Pos.size m) + Z.of_N n.
Proof.
  rewrite !size_log2, Zpos_shiftl.
  rewrite Z.log2_mul_pow2 by lia. lia.
Qed.

(** A mantissa with trailing zeros is brought to 53 bits without loss. *)
Lemma round_aux_exact (s : bool) (m : positive) (e : Z) (n : N) :
  Zpos (Pos.size m) = 53 -> -1074 <= e <= 971 ->
  binary_round_aux prec emax s (Zpos (Pos.shiftl m n)) (e - Z.of_N n) loc_Exact
  = S754_finite s m e.
Proof.
  intros Hsize He. unfold binary_round_aux.
  assert (shr_fexp prec emax (Zpos (Pos.shiftl m n)) (e - Z.of_N n) loc_Exact
          = ({| shr_m := Zpos m; shr_r := false; shr_s := false |}, e)) as ->.
  { unfold shr_fexp. cbn [Zdigits2]. rewrite digits2_size, size_shiftl, Hsize.
    replace (fexp prec emax (53 + Z.of_N n + (e - Z.of_N n)) - (e - Z.of_N n))
      with (Z.of_N n) by (unfold fexp, SpecFloat.emin, prec, emax; lia).
    destruct n as [|p].
    - change (Pos.shiftl m 0) with m. cbn [shr Z.of_N shr_record_of_loc].
      f_equal. lia.
    - change (Pos.shiftl m (N.pos p)) with (Pos.iter xO m p).
      cbn [shr Z.of_N shr_record_of_loc].
      rewrite iter_pos_nat, shiftl_pos_nat, shr_exact_nat. f_equal. lia. }
  cbn [shr_m loc_of_shr_record round_nearest_even].
  assert (shr_fexp prec emax (Zpos m) e loc_Exact
          = ({| shr_m := Zpos m; shr_r := false; shr_s := false |}, e)) as ->.
  { unfold shr_fexp. cbn [Zdigits2]. rewrite digits2_size, Hsize.
    replace (fexp prec emax (53 + e) - e) with 0
      by (unfold fexp, SpecFloat.emin, prec, emax; lia).
    done. }
  cbn [shr_m]. unfold prec, emax.
  destruct (Z.leb_spec e (1024 - 53)); [done|lia].
Qed.

(** [binary_round] finds the 53-bit representation of a value that has one. *)
Lemma round_exact (s : bool) (M m : positive) (E e : Z) :
  Zpos (Pos.size m) = 53 -> -1074 <= e <= 971 ->
  (E <= e /\ Zpos M = Zpos m * 2 ^ (e - E)) \/ (e <= E /\ Zpos m = Zpos M * 2 ^ (E - e)) ->
  binary_round prec emax s M E = S754_finite s m e.
Proof.
  intros Hsize He Hrel. unfold binary_round.
  assert (Zpos (digits2_pos M) + E = 53 + e) as Hd.
  { rewrite digits2_size, size_log2. rewrite size_log2 in Hsize.
    destruct Hrel as [[Hle HM]|[Hle Hm]].
    - rewrite HM, Z.log2_mul_pow2 by lia. lia.
    - rewrite Hm, Z.log2_mul_pow2 in Hsize by lia. lia. }
  rewrite Hd.
  replace (fexp prec emax (53 + e)) with e
    by (unfold fexp, SpecFloat.emin, prec, emax; lia).
  unfold shl_align. destruct Hrel as [[Hle HM]|[Hle Hm]].
  - assert (M = Pos.shiftl m (Z.to_N (e - E))) as HMeq.
    { apply Pos2Z.inj. rewrite Zpos_shiftl, Z2N.id by lia. exact HM. }
    assert (E = e - Z.of_N (Z.to_N (e - E))) as HE by (rewrite Z2N.id; lia).
    assert (match e - E with
            | Z.neg d => (Pos.iter xO M d, e)
            | _ => (M, E)
            end = (M, E)) as -> by (destruct (e - E) eqn:Hdiff; [done|done|lia]).
    pose proof (round_aux_exact s m e (Z.to_N (e - E)) Hsize He) as Hround.
    rewrite <- HMeq in Hround.
    replace (e - Z.of_N (Z.to_N (e - E))) with E in Hround by lia.
    exact Hround.
  - assert (match e - E with
            | Z.neg d => (Pos.iter xO M d, e)
            | _ => (M, E)
            end = (m, e)) as ->.
    { destruct (e - E) as [|d|d] eqn:Hdiff; [|lia|].
      - f_equal; [|lia]. apply Pos2Z.inj. rewrite Hm.
        replace (E - e) with 0 by lia. lia.
      - f_equal. apply Pos2Z.inj.
        change (Pos.iter xO M d) with (Pos.shiftl M (Npos d)).
        rewrite Zpos_shiftl, Hm. f_equal. f_equal. lia. }
    apply (round_aux_exact s m e 0 Hsize) in He. 
    change (Pos.shiftl m 0) with m in He. by rewrite Z.sub_0_r in He.
Qed.



Lemma canon_pos (p : positive) : canon (Zpos p) = S754_finite false (mant p) (expo p).
Proof. done. Qed.

Lemma canon_neg (p : positive) : canon (Zneg p) = S754_finite true (mant p) (expo p).
Proof. done. Qed.

Lemma size_safe (p : positive) : Zpos p < 2 ^ 53 -> Zpos (Pos.size p) <= 53.
Proof.
  intros Hp. rewrite size_log2.
  apply Z.log2_lt_pow2 in Hp; lia.
Qed.

Lemma mant_value (p : positive) :
  Zpos p < 2 ^ 53 -> Zpos (mant p) = Zpos p * 2 ^ (- expo p).
Proof.
  intros Hp%size_safe. unfold mant, expo. rewrite Zpos_shiftl, Z2N.id by lia.
  f_equal. f_equal. lia.
Qed.

Lemma mant_size (p : positive) : Zpos p < 2 ^ 53 -> Zpos (Pos.size (mant p)) = 53.
Proof.
  intros Hp%size_safe. unfold mant. rewrite size_shiftl, Z2N.id by lia. lia.
Qed.

Lemma expo_range (p : positive) : Zpos p < 2 ^ 53 -> -52 <= expo p <= 0.
Proof. intros Hp%size_safe. unfold expo. lia. Qed.

(** Rounding a positive integer below 2^53, given with any scaling, gives
    its 53-bit representation. *)
Lemma round_whole (s : bool) (M p : positive) (E : Z) :
  Zpos p < 2 ^ 53 -> E <= 0 -> Zpos M = Zpos p * 2 ^ (- E) ->
  binary_round prec emax s M E = S754_finite s (mant p) (expo p).
Proof.
  intros Hp HE HM. pose proof (expo_range p Hp) as He.
  apply round_exact; [by apply mant_size|lia|].
  rewrite mant_value by done.
  destruct (Z.le_ge_cases E (expo p)) as [Hle|Hle]; [left|right]; (split; [lia|]).
  - rewrite HM, <- Z.mul_assoc, <- Z.pow_add_r by lia. f_equal. f_equal. lia.
  - rewrite HM, <- Z.mul_assoc, <- Z.pow_add_r by lia. f_equal. f_equal. lia.
Qed.

Lemma whole_SF_canon (z : Z) : Z.abs z < 2 ^ 53 -> whole_SF z = canon z.
Proof.
  intros Hz. destruct z as [|p|p]; [done| |]; unfold whole_SF, binary_normalize.
  - apply round_whole; [lia|lia|]. simpl. lia.
  - apply round_whole; [lia|lia|]. simpl. lia.
Qed.

Lemma canon_valid (z : Z) : Z.abs z < 2 ^ 53 -> valid_binary (canon z) = true.
Proof.
  intros Hz. destruct z as [|p|p]; [done| |];
    (assert (Zpos p < 2 ^ 53) as Hp by lia;
     pose proof (mant_size p Hp) as Hsize; pose proof (expo_range p Hp) as He;
     cbn [canon valid_binary]; fold (mant p); fold (expo p);
     unfold bounded, canonical_mantissa; rewrite digits2_size, Hsize;
     apply andb_true_iff; split;
       [apply Z.eqb_eq; unfold fexp, SpecFloat.emin, prec, emax; lia
       |apply Z.leb_le; unfold prec, emax; lia]).
Qed.

Lemma Prim2SF_whole (z : Z) : Z.abs z < 2 ^ 53 -> Prim2SF (whole z) = canon z.
Proof.
  intros Hz. unfold whole. rewrite whole_SF_canon by done.
  by apply Prim2SF_SF2Prim, canon_valid.
Qed.

Lemma shl_align_fst (m : positive) (e E : Z) :
  E <= e -> Zpos (fst (shl_align m e E)) = Zpos m * 2 ^ (e - E).
Proof.
  intros Hle. unfold shl_align. destruct (E - e) as [|d|d] eqn:Hd; try lia.
  - cbn [fst]. replace (e - E) with 0 by lia. lia.
  - cbn [fst]. change (Pos.iter xO m d) with (Pos.shiftl m (Npos d)).
    rewrite Zpos_shiftl. f_equal. f_equal. lia.
Qed.

Lemma normalize_whole (S z E : Z) :
  Z.abs z < 2 ^ 53 -> E <= 0 -> S = z * 2 ^ (- E) ->
  binary_normalize prec emax S E false = canon z.
Proof.
  intros Hz HE HS. assert (0 < 2 ^ (- E)) as Hpow by (apply Z.pow_pos_nonneg; lia).
  destruct z as [|p|p].
  - by rewrite HS.
  - destruct S as [|P|P]; [nia| |nia]. cbn [binary_normalize]. rewrite canon_pos.
    apply round_whole; [lia|lia|lia].
  - destruct S as [|P|P]; [nia|nia|]. cbn [binary_normalize]. rewrite canon_neg.
    apply round_whole; [lia|lia|]. rewrite <- !Pos2Z.opp_pos in HS. lia.
Qed.

Lemma canon_aligned (z : Z) (s : bool) (m : positive) (e E : Z) :
  Z.abs z < 2 ^ 53 -> canon z = S754_finite s m e -> E <= e ->
  cond_Zopp s (Zpos (fst (shl_align m e E))) = z * 2 ^ (- E) /\ -52 <= e <= 0.
Proof.
  intros Hz Hc HE. rewrite shl_align_fst by done.
  destruct z as [|p|p]; [done| |];
    rewrite ?canon_pos, ?canon_neg in Hc; injection Hc as <- <- <-;
    (assert (Zpos p < 2 ^ 53) as Hp by lia;
     pose proof (expo_range p Hp) as He; split; [|done];
     rewrite mant_value by done; cbn [cond_Zopp];
     rewrite <- ?Pos2Z.opp_pos, ?Z.mul_opp_l, <- Z.mul_assoc, <- Z.pow_add_r by lia;
     do 2 f_equal; try f_equal; lia).
Qed.

Lemma SFadd_canon (a b : Z) :
  Z.abs a < 2 ^ 53 -> Z.abs b < 2 ^ 53 -> Z.abs (a + b) < 2 ^ 53 ->
  SFadd prec emax (canon a) (canon b) = canon (a + b).
Proof.
  intros Ha Hb Hab.
  destruct (canon a) as [sa|sa| |sa ma ea] eqn:Hca;
    [destruct a; [|done..]|destruct a; done|destruct a; done|].
  { injection Hca as <-. destruct (canon b) as [sb|sb| |sb mb eb] eqn:Hcb;
      try (destruct b; done).
    destruct b; [|done..]. by injection Hcb as <-. }
  destruct (canon b) as [sb|sb| |sb mb eb] eqn:Hcb;
    [destruct b; [|done..]|destruct b; done|destruct b; done|].
  { injection Hcb as <-. rewrite Z.add_0_r. by rewrite Hca. }
  cbn [SFadd].
  destruct (canon_aligned a sa ma ea (Z.min ea eb) Ha Hca) as [-> Hea]; [lia|].
  destruct (canon_aligned b sb mb eb (Z.min ea eb) Hb Hcb) as [-> Heb]; [lia|].
  apply normalize_whole; [done|lia|lia].
Qed.

Lemma SFsub_canon (a b : Z) :
  Z.abs a < 2 ^ 53 -> Z.abs b < 2 ^ 53 -> Z.abs (a - b) < 2 ^ 53 ->
  SFsub prec emax (canon a) (canon b) = canon (a - b).
Proof.
  intros Ha Hb Hab.
  destruct (canon a) as [sa|sa| |sa ma ea] eqn:Hca;
    [destruct a; [|done..]|destruct a; done|destruct a; done|].
  { injection Hca as <-. destruct b; done. }
  destruct (canon b) as [sb|sb| |sb mb eb] eqn:Hcb;
    [destruct b; [|done..]|destruct b; done|destruct b; done|].
  { injection Hcb as <-. rewrite Z.sub_0_r. by rewrite Hca. }
  cbn [SFsub].
  destruct (canon_aligned a sa ma ea (Z.min ea eb) Ha Hca) as [-> Hea]; [lia|].
  destruct (canon_aligned b sb mb eb (Z.min ea eb) Hb Hcb) as [-> Heb]; [lia|].
  apply normalize_whole; [done|lia|lia].
Qed.

Lemma SFmul_canon (a b : Z) :
  a <> 0 -> b <> 0 -> Z.abs (a * b) < 2 ^ 53 ->
  SFmul prec emax (canon a) (canon b) = canon (a * b).
Proof.
  intros Ha Hb Hab.
  assert (forall p q : positive, Zpos (p * q) < 2 ^ 53 ->
            forall s, binary_round_aux prec emax s (Zpos (mant p * mant q))
                        (expo p + expo q) loc_Exact
                      = S754_finite s (mant (p * q)) (expo (p * q))) as Hround.
  { intros p q Hpq s.
    assert (Zpos p < 2 ^ 53) as Hp by nia. assert (Zpos q < 2 ^ 53) as Hq by nia.
    pose proof (expo_range p Hp). pose proof (expo_range q Hq).
    pose proof (expo_range _ Hpq).
    assert (expo p + expo q <= expo (p * q) - 52) as Hle.
    { unfold expo. rewrite !size_log2. rewrite Pos2Z.inj_mul.
      pose proof (Z.log2_mul_below (Zpos p) (Zpos q)). lia. }
    pose proof (round_aux_exact s (mant (p * q)) (expo (p * q))
                  (Z.to_N (expo (p * q) - (expo p + expo q)))
                  (mant_size _ Hpq)) as Hr.
    rewrite Z2N.id in Hr by lia.
    replace (expo (p * q) - (expo (p * q) - (expo p + expo q)))
      with (expo p + expo q) in Hr by lia.
    rewrite <- Hr by lia. do 2 f_equal. apply Pos2Z.inj.
    rewrite Zpos_shiftl, Z2N.id, Pos2Z.inj_mul, !mant_value by (done || lia).
    rewrite Pos2Z.inj_mul.
    rewrite <- (Z.mul_assoc (Zpos p * Zpos q)), <- Z.pow_add_r by lia.
    replace (- expo (p * q) + (expo (p * q) - (expo p + expo q)))
      with (- expo p + - expo q) by lia.
    rewrite Z.pow_add_r by lia. ring. }
  destruct a as [|p|p], b as [|q|q]; try done;
    cbn [Z.mul]; rewrite ?canon_pos, ?canon_neg; cbn [SFmul xorb];
    apply Hround; simpl in Hab; lia.
Qed.

(** ** Whole numbers as doubles *)

Lemma whole_add (a b : Z) :
  safe a -> safe b -> safe (a + b) -> (whole a + whole b)%float = whole (a + b).
Proof.
  intros Ha Hb Hab. apply Prim2SF_inj.
  rewrite FloatAxioms.add_spec, !Prim2SF_whole by done. by apply SFadd_canon.
Qed.

Lemma whole_sub (a b : Z) :
  safe a -> safe b -> safe (a - b) -> (whole a - whole b)%float = whole (a - b).
Proof.
  intros Ha Hb Hab. apply Prim2SF_inj.
  rewrite FloatAxioms.sub_spec, !Prim2SF_whole by done. by apply SFsub_canon.
Qed.

Lemma whole_mul (a b : Z) :
  a <> 0 -> b <> 0 -> safe (a * b) -> (whole a * whole b)%float = whole (a * b).
Proof.
  intros Ha Hb Hab. apply Prim2SF_inj.
  assert (safe a /\ safe b) as [Hsa Hsb] by (unfold safe in *; nia).
  rewrite FloatAxioms.mul_spec, !Prim2SF_whole by done. by apply SFmul_canon.
Qed.

Lemma whole_mul_zero (a : Z) : 0 < a -> safe a -> (whole a * 0)%float = 0%float.
Proof.
  intros Ha Hs. apply Prim2SF_inj. rewrite FloatAxioms.mul_spec, Prim2SF_whole by done.
  destruct a; done.
Qed.

Lemma whole_inj (a b : Z) : safe a -> safe b -> whole a = whole b -> a = b.
Proof.
  intros Ha Hb Heq. apply (f_equal Prim2SF) in Heq.
  rewrite !Prim2SF_whole in Heq by done.
  unfold safe in *.
  destruct a as [|p|p], b as [|q|q]; try done;
    rewrite ?canon_pos, ?canon_neg in Heq; injection Heq as Hm He;
    (assert (Zpos p < 2 ^ 53) as Hp by lia; assert (Zpos q < 2 ^ 53) as Hq by lia;
     pose proof (mant_value p Hp) as Hvp; pose proof (mant_value q Hq) as Hvq;
     rewrite Hm, He in Hvp; rewrite Hvp in Hvq;
     assert (0 < 2 ^ (- expo q)) by (apply Z.pow_pos_nonneg;
       pose proof (expo_range q Hq); lia);
     assert (Zpos p = Zpos q) as Hpq by nia); congruence.
Qed.


Lemma Prim2SF_zero : Prim2SF 0%float = S754_zero false.
Proof. reflexivity. Qed.

Lemma SFcompare_refl (s : bool) (m : positive) (e : Z) :
  SFcompare (S754_finite s m e) (S754_finite s m e) = Some Eq.
Proof.
  cbn [SFcompare]. rewrite Z.compare_refl, Pos.compare_cont_refl. by destruct s.
Qed.

Lemma whole_not_nan (z : Z) : safe z -> is_nan (whole z) = false.
Proof.
  intros Hz. unfold is_nan. rewrite FloatAxioms.eqb_spec, Prim2SF_whole by done.
  unfold SFeqb. destruct z; cbn [canon]; [done|by rewrite SFcompare_refl..].
Qed.

Lemma whole_eqb_zero (z : Z) : safe z -> (whole z =? 0)%float = (z =? 0).
Proof.
  intros Hz. rewrite FloatAxioms.eqb_spec, Prim2SF_whole, Prim2SF_zero by done.
  by destruct z.
Qed.

Lemma whole_falsy (z : Z) : safe z -> falsy_float (whole z) = (z =? 0).
Proof.
  intros Hz. unfold falsy_float.
  rewrite whole_eqb_zero, whole_not_nan by done. apply orb_false_r.
Qed.

Lemma whole_pos (z : Z) : safe z -> (0 <? whole z)%float = (0 <? z).
Proof.
  intros Hz. rewrite FloatAxioms.ltb_spec, Prim2SF_whole, Prim2SF_zero by done.
  by destruct z.
Qed.

Lemma integer_column_whole (z : Z) : safe z -> integer_column (whole z) = whole z.
Proof.
  intros Hz. unfold integer_column. rewrite whole_eqb_zero by done.
  destruct (Z.eqb_spec z 0) as [->|]; done.
Qed.

Lemma integer_column_truthy (x : float) : falsy_float x = false -> integer_column x = x.
Proof.
  unfold falsy_float, integer_column. intros [H _]%orb_false_iff. by rewrite H.
Qed.

Lemma integer_spec (x : float) (z : Z) : integer x = Some z -> x = whole z /\ safe z.
Proof.
  unfold integer. destruct (Prim2SF x) as [[]| | |s m e] eqn:Hx; try done.
  - intros [= <-]. split; [|done]. apply Prim2SF_inj. by rewrite Hx.
  - destruct (bool_decide _ && _) eqn:Hc; [|done]. intros [= <-].
    apply andb_true_iff in Hc as [Hc%bool_decide_eq_true_1 Hs%Z.ltb_lt].
    split; [|done]. apply Prim2SF_inj. by rewrite Prim2SF_whole, Hx.
Qed.

Lemma shiftl_mant (p : positive) :
  Zpos p < 2 ^ 53 -> Z.shiftl (Zpos (mant p)) (expo p) = Zpos p.
Proof.
  intros Hp. pose proof (expo_range p Hp) as He.
  rewrite mant_value by done.
  rewrite <- (Z.opp_involutive (expo p)) at 2. rewrite Z.shiftl_opp_r.
  rewrite Z.shiftr_div_pow2 by lia. apply Z.div_mul.
  apply Z.pow_nonzero; lia.
Qed.

Lemma integer_whole (z : Z) : safe z -> integer (whole z) = Some z.
Proof.
  intros Hz. unfold integer. rewrite Prim2SF_whole by done.
  unfold safe in Hz.
  destruct z as [|p|p]; [done| |]; cbn [canon];
    rewrite shiftl_mant by lia; cbn [cond_Zopp];
    rewrite <- ?Pos2Z.opp_pos;
    [rewrite bool_decide_eq_true_2 by done
    |rewrite bool_decide_eq_true_2 by (by rewrite Pos2Z.opp_pos)];
    (destruct (Z.ltb_spec (Z.abs (Zpos p)) (2 ^ 53)) as [|Hn];
       [|rewrite ?Z.abs_opp in *; lia]);
    rewrite ?Z.abs_opp; (destruct (Z.ltb_spec (Z.abs (Zpos p)) (2 ^ 53)); [done|lia]).
Qed.

Lemma dyadic_whole (z : Z) : safe z -> dyadic (whole z) = Some (z * 2 ^ 1074).
Proof.
  intros Hz. unfold dyadic. rewrite Prim2SF_whole by done. unfold safe in Hz.
  destruct z as [|p|p]; [done| |]; cbn [canon cond_Zopp];
    (assert (Zpos p < 2 ^ 53) as Hp by lia; pose proof (expo_range p Hp) as He;
     rewrite mant_value by done; f_equal;
     rewrite <- ?Pos2Z.opp_pos, ?Z.mul_opp_l, <- Z.mul_assoc, <- Z.pow_add_r by lia;
     do 2 f_equal; try f_equal; lia).
Qed.

Lemma whole_mul_dyadic (a b : Z) :
  safe a -> safe b -> safe (a * b) ->
  dyadic (whole a * whole b)%float = Some (a * b * 2 ^ 1074).
Proof.
  intros Ha Hb Hab.
  destruct (decide (a = 0)) as [->|Hna]; [|destruct (decide (b = 0)) as [->|Hnb]].
  - unfold dyadic. rewrite FloatAxioms.mul_spec, !Prim2SF_whole by done. by destruct b.
  - unfold dyadic. rewrite FloatAxioms.mul_spec, !Prim2SF_whole by done. rewrite Z.mul_0_r.
    by destruct a.
  - rewrite whole_mul by done. by apply dyadic_whole.
Qed.


Lemma whole_finite (z : Z) : safe z -> is_finite (whole z) = true.
Proof.
  intros Hz. unfold is_finite, is_infinity.
  rewrite whole_not_nan by done. rewrite FloatAxioms.eqb_spec, FloatAxioms.abs_spec, Prim2SF_whole by done.
  by destruct z.
Qed.


Lemma finite_not_nan (x : float) : is_finite x = true -> is_nan x = false.
Proof. unfold is_finite. by intros [? ?]%negb_true_iff%orb_false_iff. Qed.

Lemma finite_not_infinity (x : float) : is_finite x = true -> is_infinity x = false.
Proof. unfold is_finite. by intros [? ?]%negb_true_iff%orb_false_iff. Qed.

Lemma real_column_whole (z : Z) : safe z -> real_column (whole z) = whole z.
Proof. apply integer_column_whole. Qed.

Lemma real_column_truthy (x : float) : falsy_float x = false -> real_column x = x.
Proof. apply integer_column_truthy. Qed.

(** A number that is not NaN compares equal to what a column keeps of it. *)
Lemma real_column_eqb (x : float) : is_nan x = false -> (real_column x =? x)%float = true.
Proof.
  unfold real_column, is_nan. intros Hx%negb_false_iff.
  destruct (x =? 0)%float eqn:Hzero; [|done].
  rewrite FloatAxioms.eqb_spec, Prim2SF_zero in *.
  destruct (Prim2SF x) as [[]|[]| |[] m e]; done.
Qed.

(** Doubles that compare equal have the same value. *)
Lemma eqb_dyadic (a b : float) : (a =? b)%float = true -> dyadic a = dyadic b.
Proof.
  rewrite FloatAxioms.eqb_spec. unfold dyadic, SFeqb, SFcompare.
  destruct (Prim2SF a) as [sa|sa| |sa ma ea], (Prim2SF b) as [sb|sb| |sb mb eb];
    try done; try (by destruct sa); try (by destruct sa, sb).
  destruct sa, sb; try done;
    (destruct (Z.compare_spec ea eb) as [->| |]; try done;
     change (PosDef.Pos.compare_cont Eq ma mb) with (Pos.compare ma mb);
     destruct (Pos.compare_spec ma mb) as [->| |]; done).
Qed.
(** ** Sales (sales.ts) *)

Section SalesFacts.
Implicit Types (d : db) (s : sale) (c : customer) (cid id : Z).

Lemma sum_amounts_app (l1 l2 : list sale) :
  sum_amounts (l1 ++ l2) = sum_amounts l1 + sum_amounts l2.
Proof. unfold sum_amounts. induction l1 as [|s l1 IH]; simpl; lia. Qed.

Lemma volume_app (l1 l2 : list sale) : volume (l1 ++ l2) = volume l1 + volume l2.
Proof. unfold volume. induction l1 as [|s l1 IH]; simpl; lia. Qed.

Lemma sum_amounts_one (s : sale) : sum_amounts [s] = amount_Z s.
Proof. unfold sum_amounts. simpl. lia. Qed.

Lemma volume_one (s : sale) : volume [s] = Z.abs (amount_Z s).
Proof. unfold volume. simpl. lia. Qed.

Lemma volume_bounds (l : list sale) : Z.abs (sum_amounts l) <= volume l.
Proof. unfold volume, sum_amounts. induction l as [|s l IH]; simpl; lia. Qed.

Lemma purchases_of_map (f : customer -> customer) (g : float -> float) cid
    (cs : list customer) :
  (forall c, customer_id (f c) = customer_id c) ->
  (forall c, customer_id c = cid -> total_purchases (f c) = g (total_purchases c)) ->
  total_purchases <$> head (filter (fun c => customer_id c = cid) (f <$> cs))
  = g <$> (total_purchases <$> head (filter (fun c => customer_id c = cid) cs)).
Proof.
  intros Hid Htot. induction cs as [|c cs IH]; [done|].
  rewrite fmap_cons, !filter_cons, Hid.
  destruct (decide (customer_id c = cid)) as [Heq|Hne]; simpl; [|done].
  by rewrite Htot.
Qed.

Lemma purchases_of_increase t a cid' cid d d' :
  increase_total_purchases t a cid' d = Some (tt, d') ->
  purchases_of cid d'
  = (fun v => if decide (cid = cid') then real_column (v + a)%float else v)
      <$> purchases_of cid d.
Proof.
  intros [= <-]. unfold purchases_of. simpl.
  apply purchases_of_map.
  - intros c. by destruct (decide _).
  - intros c Hc. destruct (decide (customer_id c = cid')), (decide (cid = cid')); simpl; congruence.
Qed.

Lemma purchases_of_decrease t a cid' cid d d' :
  decrease_total_purchases t a cid' d = Some (tt, d') ->
  purchases_of cid d'
  = (fun v => if decide (cid = cid') then real_column (v - a)%float else v)
      <$> purchases_of cid d.
Proof.
  intros [= <-]. unfold purchases_of. simpl.
  apply purchases_of_map.
  - intros c. by destruct (decide _).
  - intros c Hc. destruct (decide (customer_id c = cid')), (decide (cid = cid')); simpl; congruence.
Qed.

End SalesFacts.

Section SaleHandlers.
Implicit Types (d : db) (s : sale) (e : env).

Lemma insert_sale_inv t cid date ty q p tot ps pm n u d id d1 :
  insert_sale t cid date ty q p tot ps pm n u d = Some (id, d1) ->
  id = seq_sales d + 1 /\
  exists s, d1 = set_sales (sales d ++ [s]) id d /\ sale_id s = id /\
            sale_customer_id s = cid /\ quantity s = integer_column q /\
            unit_price s = real_column p /\ total_amount s = real_column tot /\
            is_nan tot = false.
Proof.
  unfold insert_sale. destruct (_ && _) eqn:Hguard; [|done].
  apply andb_true_iff in Hguard as [_ Hnan%negb_true_iff].
  intros [= <- <-]. split; [done|]. eexists. split; [done|]. by simpl.
Qed.

Lemma post_sale_eq e u b d :
  post_sale e u b d =
  if falsy_num (SaleBody.customerId b) || falsy_str (SaleBody.saleDate b)
     || falsy_str (SaleBody.saleType b) || falsy_number (SaleBody.quantity b)
     || falsy_number (SaleBody.unitPrice b)
  then (d, {| status := 400;
              json := JError "Customer ID, sale date, sale type, quantity, and unit price are required" |})
  else
    let tot := (number (SaleBody.quantity b) * number (SaleBody.unitPrice b))%float in
    let cid := num (SaleBody.customerId b) in
    if faults e 0%nat then (d, server_error "Failed to create sale")
    else match insert_sale (now e) cid (str (SaleBody.saleDate b))
                 (str (SaleBody.saleType b)) (number (SaleBody.quantity b))
                 (number (SaleBody.unitPrice b)) tot
                 (str_or (SaleBody.paymentStatus b) "pending")
                 (str_or_null (SaleBody.paymentMethod b))
                 (str_or_null (SaleBody.notes b)) u d with
         | None => (d, server_error "Failed to create sale")
         | Some (id, d1) =>
             if faults e 1%nat then (d1, server_error "Failed to create sale")
             else
               let d2 := set_customers
                 ((fun c => if decide (customer_id c = cid)
                            then with_total_purchases
                                   (real_column (total_purchases c + tot)%float) (now e) c
                            else c) <$> customers d1) d1 in
               if faults e 2%nat then (d2, server_error "Failed to create sale")
               else (d2, {| status := 201;
                            json := JSale (head (filter (fun s => sale_id s = id) (sales d2))) |})
         end.
Proof.
  unfold post_sale, try_catch, bind, run, ret, server_error.
  destruct (_ || _); [done|]. cbv zeta.
  destruct (faults e 0%nat); [done|].
  destruct (insert_sale _ _ _ _ _ _ _ _ _ _ _ d) as [[id d1]|]; [|done].
  destruct (faults e 1%nat); [done|]. simpl.
  by destruct (faults e 2%nat).
Qed.

(** What POST /api/sales leaves in the store. *)
Lemma post_sale_cases e u b d :
  let tot := (number (SaleBody.quantity b) * number (SaleBody.unitPrice b))%float in
  let cid := num (SaleBody.customerId b) in
  fst (post_sale e u b d) = d
  \/ exists s d2,
       sale_id s = seq_sales d + 1 /\ sale_customer_id s = cid /\
       quantity s = number (SaleBody.quantity b) /\
       unit_price s = number (SaleBody.unitPrice b) /\ total_amount s = real_column tot /\
       is_nan tot = false /\
       increase_total_purchases (now e) tot cid
         (set_sales (sales d ++ [s]) (seq_sales d + 1) d) = Some (tt, d2) /\
       (fst (post_sale e u b d) = d2
        \/ faults e 1%nat = true /\
           fst (post_sale e u b d) = set_sales (sales d ++ [s]) (seq_sales d + 1) d)
       /\ falsy_number (SaleBody.quantity b) = false
       /\ falsy_number (SaleBody.unitPrice b) = false.
Proof.
  intros tot cid. rewrite post_sale_eq.
  destruct (_ || _) eqn:Hguard; [by left|]. cbv zeta.
  apply orb_false_iff in Hguard as [[_ Hq0]%orb_false_iff Hp0].
  assert (integer_column (number (SaleBody.quantity b)) = number (SaleBody.quantity b)) as Hcol.
  { destruct (SaleBody.quantity b); [by apply integer_column_truthy|done]. }
  assert (real_column (number (SaleBody.unitPrice b)) = number (SaleBody.unitPrice b)) as Hreal.
  { destruct (SaleBody.unitPrice b); [by apply real_column_truthy|done]. }
  destruct (faults e 0%nat); [by left|].
  destruct (insert_sale _ _ _ _ _ _ _ _ _ _ _ d) as [[id d1]|] eqn:Hins; [|by left].
  apply insert_sale_inv in Hins as (-> & s & -> & Hid & Hc & Hq & Hp & Ht & Hnan).
  rewrite Hcol in Hq. rewrite Hreal in Hp.
  right. exists s. eexists. do 6 (split; [done|]). split; [reflexivity|].
  split; [|done].
  destruct (faults e 1%nat); [by right|].
  left. by destruct (faults e 2%nat).
Qed.

Lemma delete_sale_by_id_eq e id d :
  delete_sale_by_id e id d =
  if faults e 0%nat then (d, server_error "Failed to delete sale")
  else match head (filter (fun s => sale_id s = id) (sales d)) with
       | Some s =>
           if faults e 1%nat then (d, server_error "Failed to delete sale")
           else
             let d1 := set_customers
               ((fun c => if decide (customer_id c = sale_customer_id s)
                          then with_total_purchases
                                 (real_column (total_purchases c - total_amount s)%float)
                                 (now e) c
                          else c) <$> customers d) d in
             if faults e 2%nat then (d1, server_error "Failed to delete sale")
             else (set_sales (filter (fun s => sale_id s <> id) (sales d)) (seq_sales d) d1,
                   {| status := 200; json := JMessage "Sale deleted successfully" |})
       | None =>
           if faults e 2%nat then (d, server_error "Failed to delete sale")
           else (set_sales (filter (fun s => sale_id s <> id) (sales d)) (seq_sales d) d,
                 {| status := 200; json := JMessage "Sale deleted successfully" |})
       end.
Proof.
  unfold delete_sale_by_id, try_catch, bind, run, ret, server_error.
  destruct (faults e 0%nat); [done|]. simpl.
  destruct (head _) as [s|]; simpl.
  - destruct (faults e 1%nat); [done|]. simpl. by destruct (faults e 2%nat).
  - by destruct (faults e 2%nat).
Qed.

Lemma put_sale_eq e id b d :
  put_sale e id b d =
  if faults e 0%nat then (d, server_error "Failed to update sale")
  else match update_sale_payment (SaleUpdate.paymentStatus b) (SaleUpdate.paymentMethod b)
               (SaleUpdate.notes b) id d with
       | None => (d, server_error "Failed to update sale")
       | Some (_, d1) =>
           if faults e 1%nat then (d1, server_error "Failed to update sale")
           else (d1, {| status := 200;
                        json := JSale (head (filter (fun s => sale_id s = id) (sales d1))) |})
       end.
Proof.
  unfold put_sale, try_catch, bind, run, ret, server_error.
  destruct (faults e 0%nat); [done|].
  destruct (update_sale_payment _ _ _ _ _) as [[[] d1]|]; [|done].
  by destruct (faults e 1%nat).
Qed.

Lemma filter_id_absent (l : list sale) id :
  id ∉ sale_id <$> l -> filter (fun s => sale_id s <> id) l = l.
Proof.
  induction l as [|x l IH]; [done|]. rewrite fmap_cons, not_elem_of_cons.
  intros [Hx Hl]. rewrite filter_cons. destruct (decide (sale_id x <> id)) as [|Hn]; [|by destruct Hn].
  by rewrite IH.
Qed.

Lemma head_filter_id_None (l : list sale) id :
  head (filter (fun s => sale_id s = id) l) = None -> id ∉ sale_id <$> l.
Proof.
  induction l as [|x l IH]; simpl; [intros _; apply not_elem_of_nil|].
  rewrite filter_cons. destruct (decide (sale_id x = id)); [done|].
  intros H. apply not_elem_of_cons. split; [congruence | by apply IH].
Qed.

(** Deleting by primary key takes exactly the selected row's amount out of
    its customer's sum. *)
Lemma sum_amounts_delete (l : list sale) id s cid :
  NoDup (sale_id <$> l) ->
  head (filter (fun s => sale_id s = id) l) = Some s ->
  sum_amounts (filter (fun s => sale_customer_id s = cid)
                 (filter (fun s => sale_id s <> id) l))
  = sum_amounts (filter (fun s => sale_customer_id s = cid) l)
    - (if decide (cid = sale_customer_id s) then amount_Z s else 0).
Proof.
  induction l as [|x l IH]; [done|].
  rewrite fmap_cons, NoDup_cons. intros [Hx Hl].
  rewrite (filter_cons (fun s => sale_id s = id)), (filter_cons (fun s => sale_id s <> id)).
  destruct (decide (sale_id x = id)) as [Heq|Hne].
  - intros [= ->]. destruct (decide (sale_id s <> id)); [congruence|].
    rewrite filter_id_absent by congruence.
    rewrite filter_cons. destruct (decide (sale_customer_id s = cid)), (decide (cid = sale_customer_id s));
      try congruence; unfold sum_amounts; simpl; lia.
  - intros Hh. destruct (decide (sale_id x <> id)) as [|Hn]; [|by destruct Hn].
    rewrite !filter_cons. destruct (decide (sale_customer_id x = cid)).
    + unfold sum_amounts in *. simpl. rewrite IH by done. lia.
    + by apply IH.
Qed.

Lemma sales_wf_insert d s :
  sales_wf d -> sale_id s = seq_sales d + 1 ->
  sales_wf (set_sales (sales d ++ [s]) (seq_sales d + 1) d).
Proof.
  intros [Hnd Hle] Hid. split; simpl.
  - rewrite fmap_app. apply NoDup_app. split_and!; [done| |apply NoDup_singleton].
    intros x Hx ->%list_elem_of_singleton.
    apply list_elem_of_fmap in Hx as (y & Hy & Hin).
    rewrite Forall_forall in Hle. apply Hle in Hin. simpl in Hy. lia.
  - apply Forall_app. split; [|apply Forall_singleton; lia].
    eapply Forall_impl; [done|]. simpl. intros; lia.
Qed.

Lemma sales_wf_filter d (P : sale -> Prop) `{forall s, Decision (P s)} :
  sales_wf d -> sales_wf (set_sales (filter P (sales d)) (seq_sales d) d).
Proof.
  intros [Hnd Hle]. split; simpl.
  - eapply sublist_NoDup; [done|]. apply fmap_sublist, sublist_filter.
  - rewrite Forall_forall in *. intros s [_ Hs]%list_elem_of_filter. by apply Hle.
Qed.

Lemma sales_wf_customers d cs : sales_wf d -> sales_wf (set_customers cs d).
Proof. done. Qed.

Lemma sales_wf_step d op : sales_wf d -> sales_wf (ledger_step d op).
Proof.
  intros Hwf. destruct op as [e u b|e id]; simpl.
  - destruct (post_sale_cases e u b d)
      as [->|(s & d2 & Hid & _ & _ & _ & _ & _ & [= <-] & [->| [_ ->]] & _)]; [done| |].
    + by apply sales_wf_customers, sales_wf_insert.
    + by apply sales_wf_insert.
  - rewrite delete_sale_by_id_eq.
    destruct (faults e 0%nat); [done|].
    destruct (head _) as [s|].
    + destruct (faults e 1%nat); [done|]. cbv zeta.
      destruct (faults e 2%nat); [done|]. simpl.
      by apply (sales_wf_filter (set_customers _ d)).
    + destruct (faults e 2%nat); [done|]. by apply sales_wf_filter.
Qed.

Lemma sales_of_insert cid d s :
  filter (fun s => sale_customer_id s = cid) (sales d ++ [s])%list
  = (sales_of cid d ++ (if decide (cid = sale_customer_id s) then [s] else []))%list.
Proof.
  rewrite filter_app. unfold sales_of. f_equal.
  rewrite filter_cons, filter_nil.
  by destruct (decide (sale_customer_id s = cid)), (decide (cid = sale_customer_id s)).
Qed.

Lemma volume_delete (l : list sale) id s cid :
  NoDup (sale_id <$> l) ->
  head (filter (fun s => sale_id s = id) l) = Some s ->
  volume (filter (fun s => sale_customer_id s = cid)
            (filter (fun s => sale_id s <> id) l))
  = volume (filter (fun s => sale_customer_id s = cid) l)
    - (if decide (cid = sale_customer_id s) then Z.abs (amount_Z s) else 0).
Proof.
  induction l as [|x l IH]; [done|].
  rewrite fmap_cons, NoDup_cons. intros [Hx Hl].
  rewrite (filter_cons (fun s => sale_id s = id)), (filter_cons (fun s => sale_id s <> id)).
  destruct (decide (sale_id x = id)) as [Heq|Hne].
  - intros [= ->]. destruct (decide (sale_id s <> id)); [congruence|].
    rewrite filter_id_absent by congruence.
    rewrite filter_cons. destruct (decide (sale_customer_id s = cid)), (decide (cid = sale_customer_id s));
      try congruence; unfold volume; simpl; lia.
  - intros Hh. destruct (decide (sale_id x <> id)) as [|Hn]; [|by destruct Hn].
    rewrite !filter_cons. destruct (decide (sale_customer_id x = cid)).
    + unfold volume in *. simpl. rewrite IH by done. lia.
    + by apply IH.
Qed.

Lemma head_filter_elem (l : list sale) id s :
  head (filter (fun s => sale_id s = id) l) = Some s -> s ∈ l.
Proof.
  intros Hh. assert (s ∈ filter (fun s => sale_id s = id) l) as Hin.
  { destruct (filter _ l); [done|]. injection Hh as ->. apply list_elem_of_here. }
  by apply list_elem_of_filter in Hin as [_ ?].
Qed.

Lemma ledger_whole_mono cid B B' d : B <= B' -> ledger_whole cid B d -> ledger_whole cid B' d.
Proof. intros Hle (Hw & Hv & Htp). split_and!; [done|lia|done]. Qed.

(** The amount of a request of whole numbers is the whole number it asks
    for, once the request has passed the presence check. *)
Lemma request_amount_total (b : SaleBody.t) (r : Z) :
  request_amount b = Some r -> safe r ->
  falsy_number (SaleBody.quantity b) = false ->
  falsy_number (SaleBody.unitPrice b) = false ->
  (number (SaleBody.quantity b) * number (SaleBody.unitPrice b))%float = whole r.
Proof.
  unfold request_amount. intros Hr Hsafe Hq Hp.
  destruct (integer (number (SaleBody.quantity b))) as [zq|] eqn:Hzq; [|done].
  destruct (integer (number (SaleBody.unitPrice b))) as [zp|] eqn:Hzp; [|done].
  injection Hr as <-.
  apply integer_spec in Hzq as [Hxq Hsq]. apply integer_spec in Hzp as [Hxp Hsp].
  destruct (SaleBody.quantity b) as [xq|]; [|done].
  destruct (SaleBody.unitPrice b) as [xp|]; [|done].
  simpl in *. subst xq xp. rewrite whole_falsy in Hq, Hp by done.
  apply whole_mul; [by apply Z.eqb_neq..|done].
Qed.

(** One ledger request of whole numbers on reliable storage keeps the
    customer's ledger in whole numbers, the counter being their sum, as
    long as the absolute amounts stay below 2^53 in total. *)
Lemma ledger_whole_step cid B d op a :
  reliable (ledger_op_env op) -> sales_wf d ->
  ledger_op_volume op = Some a -> B + a < 2 ^ 53 ->
  ledger_whole cid B d -> ledger_whole cid (B + a) (ledger_step d op).
Proof.
  intros Hrel [Hnd _] Ha Hbound (Hwhole & Hvol & Htp).
  pose proof (volume_bounds (sales_of cid d)) as Hsum.
  assert (0 <= volume (sales_of cid d)) as Hv0 by lia.
  destruct op as [e u b|e id]; simpl in *.
  - destruct (request_amount b) as [r|] eqn:Hr; [|done]. injection Ha as <-.
    destruct (post_sale_cases e u b d)
      as [->|(s & d2 & _ & Hc & _ & _ & Ht & _ & Hinc & [->| [Hf _]] & Hq & Hp)].
    + apply (ledger_whole_mono cid B); [lia|done].
    + rewrite (request_amount_total b r Hr) in Ht, Hinc by (done || unfold safe; lia).
      rewrite real_column_whole in Ht by (unfold safe; lia).
      assert (amount_Z s = r) as Hrs
        by (unfold amount_Z; rewrite Ht, integer_whole by (unfold safe; lia); done).
      unfold ledger_whole.
      rewrite (purchases_of_increase _ _ _ _ _ _ Hinc).
      injection Hinc as <-. unfold sales_of at 1 2 3. simpl. rewrite sales_of_insert.
      change (purchases_of cid (set_sales _ _ d)) with (purchases_of cid d).
      rewrite Htp, Hc. simpl.
      destruct (decide (cid = num (SaleBody.customerId b))) as [_|_].
      * rewrite sum_amounts_app, volume_app, sum_amounts_one, volume_one, Hrs. split_and!.
        -- apply Forall_app. split; [done|]. apply Forall_singleton.
           rewrite Ht, integer_whole by (unfold safe; lia). by eexists.
        -- lia.
        -- f_equal. rewrite whole_add, real_column_whole by (unfold safe; lia). done.
      * rewrite app_nil_r. split_and!; [done|lia|done].
    + by rewrite Hrel in Hf.
  - injection Ha as <-. rewrite Z.add_0_r.
    rewrite delete_sale_by_id_eq, !Hrel.
    destruct (head _) as [s|] eqn:Hs; cbv zeta; simpl.
    + unfold ledger_whole, sales_of at 1 2 3. simpl.
      rewrite (sum_amounts_delete _ _ s), (volume_delete _ _ s) by done.
      unfold purchases_of. simpl.
      erewrite (purchases_of_map _ (fun v => if decide (cid = sale_customer_id s)
                                             then real_column (v - total_amount s)%float
                                             else v)).
      * fold (purchases_of cid d). rewrite Htp. simpl. fold (sales_of cid d).
        split_and!.
        -- rewrite Forall_forall in *. intros x [Hx [_ Hin]%list_elem_of_filter]%list_elem_of_filter.
           apply Hwhole. by apply list_elem_of_filter.
        -- destruct (decide _); lia.
        -- f_equal. destruct (decide (cid = sale_customer_id s)) as [Hcs|]; [|by rewrite Z.sub_0_r].
           assert (s ∈ sales_of cid d) as Hin
             by (apply list_elem_of_filter; split; [done|by eapply head_filter_elem]).
           rewrite Forall_forall in Hwhole. destruct (Hwhole s Hin) as [z Hz].
           pose proof (volume_delete (sales d) id s cid Hnd Hs) as Hvd.
           pose proof (sum_amounts_delete (sales d) id s cid Hnd Hs) as Hsd.
           pose proof (volume_bounds (filter (fun s => sale_customer_id s = cid)
                          (filter (fun s => sale_id s <> id) (sales d)))) as Hb.
           rewrite Hvd, Hsd in Hb. rewrite !decide_True in Hb by done.
           fold (sales_of cid d) in Hb.
           unfold amount_Z in *. rewrite Hz in *. simpl in *.
           apply integer_spec in Hz as [-> Hsz].
           rewrite whole_sub, real_column_whole by (unfold safe in *; lia). done.
      * intros c. by destruct (decide _).
      * intros c Hc. destruct (decide (customer_id c = sale_customer_id s)),
          (decide (cid = sale_customer_id s)); simpl; congruence.
    + unfold ledger_whole, sales_of at 1 2 3. simpl.
      rewrite filter_id_absent by by apply head_filter_id_None. done.
Qed.

Lemma ledger_volume_nonneg (ops : list ledger_op) (v : Z) :
  ledger_volume ops = Some v -> 0 <= v.
Proof.
  revert v. induction ops as [|op ops IH]; intros v; simpl; [intros [= <-]; lia|].
  destruct (ledger_op_volume op) as [a|] eqn:Ha; [|done]. simpl.
  destruct (ledger_volume ops) as [w|]; [|done]. simpl. intros [= <-].
  specialize (IH w eq_refl).
  destruct op as [e u b|e id]; simpl in Ha.
  - destruct (request_amount b); [|done]. injection Ha as <-. lia.
  - injection Ha as <-. lia.
Qed.

Lemma ledger_volume_take (ops : list ledger_op) (k : nat) (v : Z) :
  ledger_volume ops = Some v ->
  exists v', ledger_volume (take k ops) = Some v' /\ v' <= v.
Proof.
  revert k v. induction ops as [|op ops IH]; intros [|k] v Hv; simpl in *.
  - exists 0. by injection Hv as <-.
  - exists 0. by injection Hv as <-.
  - exists 0. split; [done|]. by apply (ledger_volume_nonneg (op :: ops)).
  - destruct (ledger_op_volume op) as [a|]; [|done]. simpl in *.
    destruct (ledger_volume ops) as [w|] eqn:Hw; [|done]. simpl in *. injection Hv as <-.
    destruct (IH k w eq_refl) as (w' & -> & Hle). simpl. eexists. split; [done|]. lia.
Qed.

Lemma ledger_whole_run cid ops d B v :
  Forall (fun op => reliable (ledger_op_env op)) ops ->
  sales_wf d -> ledger_volume ops = Some v -> B + v < 2 ^ 53 ->
  ledger_whole cid B d -> ledger_whole cid (B + v) (run_ledger_ops ops d).
Proof.
  intros Hrel. revert d B v.
  induction Hrel as [|op ops Hop _ IH]; intros d B v Hwf Hv Hbound Hok; simpl in *.
  - injection Hv as <-. by rewrite Z.add_0_r.
  - destruct (ledger_op_volume op) as [a|] eqn:Ha; [|done]. simpl in Hv.
    destruct (ledger_volume ops) as [w|] eqn:Hw; [|done]. simpl in Hv. injection Hv as <-.
    pose proof (ledger_volume_nonneg _ _ Hw).
    rewrite Z.add_assoc. apply IH; [by apply sales_wf_step|done|lia|].
    apply ledger_whole_step; [done..|lia|done].
Qed.

Lemma sum_dyadic_whole (l : list sale) :
  Forall (fun s => is_Some (integer (total_amount s))) l ->
  sum_dyadic (total_amount <$> l) = Some (sum_amounts l * 2 ^ 1074).
Proof.
  induction 1 as [|s l [z Hz] _ IH]; [done|].
  rewrite fmap_cons. unfold sum_dyadic, sum_amounts in *. simpl. rewrite IH.
  unfold amount_Z. rewrite Hz. apply integer_spec in Hz as [-> Hs].
  rewrite dyadic_whole by done. simpl. f_equal. lia.
Qed.

(** A ledger kept in whole numbers below 2^53 satisfies the ledger
    equation. *)
Lemma ledger_whole_ok cid B d : B < 2 ^ 53 -> ledger_whole cid B d -> ledger_ok cid d.
Proof.
  intros HB (Hwhole & Hvol & Htp).
  pose proof (volume_bounds (sales_of cid d)).
  eexists _, _. split_and!; [exact Htp| |by apply sum_dyadic_whole].
  apply dyadic_whole. unfold safe. lia.
Qed.

End SaleHandlers.

(** ** The ledger (sales.ts) *)

(** Scenario 1 of the specification: a sale of 10 at 1000 brings the
    customer to 10000, deleting it brings the customer back to 0. *)
Example ledger_scenario :
  purchases_of 1 (run_ledger_ops [RecordSale env0 1 (sale_body 10 1000)] db1)
    = Some 10000%float
  /\ purchases_of 1 (run_ledger_ops [RecordSale env0 1 (sale_body 10 1000); DeleteSale env0 1] db1)
     = Some 0%float.
Proof. split; reflexivity. Qed.

(** C1 as stated fails, in two ways. Amounts are doubles and the counter
    is moved by rounded additions and subtractions: after sales of 0.1 and
    of 0.2 and the deletion of the first, served without any failure, the
    counter stands at 0.20000000000000004 while the one remaining sale
    amounts to 0.2. And the two statements of a request are not one
    transaction: when the counter update of a sale of 10000 fails, the
    sale stays and the counter is still 0. *)
Lemma ledger_drifts :
  (purchases_of 1 (run_ledger_ops drift_ops db1) = Some 0.20000000000000004%float
   /\ total_amount <$> sales_of 1 (run_ledger_ops drift_ops db1) = [0.2%float]
   /\ ~ ledger_ok 1 (run_ledger_ops drift_ops db1))
  /\ (purchases_of 1 (run_ledger_ops [RecordSale env_fail1 1 (sale_body 10 1000)] db1)
        = Some 0%float
      /\ total_amount
            <$> sales_of 1 (run_ledger_ops [RecordSale env_fail1 1 (sale_body 10 1000)] db1)
          = [10000%float]
      /\ ~ ledger_ok 1 (run_ledger_ops [RecordSale env_fail1 1 (sale_body 10 1000)] db1)).
Proof.
  split; (split_and!; [reflexivity..|]);
    intros (tp & v & Htp & Hv & Hsum);
    vm_compute in Htp; injection Htp as <-;
    vm_compute in Hv; vm_compute in Hsum; congruence.
Qed.

(** C1, amended. For a customer whose total_purchases starts at 0 (and
    whom no sale references yet), and any sequence of RecordSale and
    DeleteSale requests in which no statement fails and whose quantities
    and unit prices are whole numbers with amounts that stay below 2^53 in
    absolute total: after each request, total_purchases equals the sum of
    total_amount over the sales that currently reference the customer. *)
Theorem ledger_invariant (d0 : db) (cid : Z) (ops : list ledger_op) (k : nat) (v : Z) :
  sales_wf d0 ->
  purchases_of cid d0 = Some 0%float ->
  sales_of cid d0 = [] ->
  Forall (fun op => reliable (ledger_op_env op)) ops ->
  ledger_volume ops = Some v -> v < 2 ^ 53 ->
  ledger_ok cid (run_ledger_ops (take k ops) d0)
  /\ purchases_of cid (run_ledger_ops (take k ops) d0)
     = Some (whole (sum_amounts (sales_of cid (run_ledger_ops (take k ops) d0)))).
Proof.
  intros Hwf H0 Hnone Hrel Hv Hbound.
  destruct (ledger_volume_take ops k v Hv) as (v' & Hv' & Hle).
  assert (ledger_whole cid (0 + v') (run_ledger_ops (take k ops) d0)) as Hw.
  { apply ledger_whole_run; [by apply Forall_take|done|done|lia|].
    unfold ledger_whole. rewrite Hnone, H0. split_and!; [apply Forall_nil_2|done|done]. }
  split; [apply (ledger_whole_ok cid (0 + v')); [lia|done]|]. apply Hw.
Qed.

Lemma ledger_invariant_witness :
  ledger_ok 1 (run_ledger_ops
                 (take 1 [RecordSale env0 1 (sale_body 10 1000); DeleteSale env0 1]) db1)
  /\ purchases_of 1 (run_ledger_ops
                       (take 1 [RecordSale env0 1 (sale_body 10 1000); DeleteSale env0 1]) db1)
     = Some (whole (sum_amounts (sales_of 1 (run_ledger_ops
                       (take 1 [RecordSale env0 1 (sale_body 10 1000); DeleteSale env0 1])
                       db1)))).
Proof.
  apply (ledger_invariant db1 1 [RecordSale env0 1 (sale_body 10 1000); DeleteSale env0 1] 1
           10000).
  - split; [apply NoDup_nil_2 | apply Forall_nil_2].
  - reflexivity.
  - reflexivity.
  - repeat apply Forall_cons_2; [intros k; reflexivity..|apply Forall_nil_2].
  - vm_compute. reflexivity.
  - reflexivity.
Defined.

(** C2, evaluated: the second statement of POST /api/sales (the counter
    update) fails; the handler answers 500 "Failed to create sale", yet the
    sale row of 10000 stays in the store and the customer's counter is
    still 0. *)
Theorem record_sale_not_atomic :
  snd (post_sale env_fail1 1 (sale_body 10 1000) db1)
    = {| status := 500; json := JError "Failed to create sale" |}
  /\ sale_core <$> sales (fst (post_sale env_fail1 1 (sale_body 10 1000) db1))
     = [(1, 1, 10%float, 1000%float, 10000%float)]
  /\ purchases_of 1 (fst (post_sale env_fail1 1 (sale_body 10 1000) db1)) = Some 0%float.
Proof. split_and!; reflexivity. Qed.

(** The same on any store: once the insert has gone through, a failure of
    the counter update leaves the inserted row behind. *)
Lemma post_sale_insert_survives e u b d id d1 :
  (falsy_num (SaleBody.customerId b) || falsy_str (SaleBody.saleDate b)
   || falsy_str (SaleBody.saleType b) || falsy_number (SaleBody.quantity b)
   || falsy_number (SaleBody.unitPrice b)) = false ->
  faults e 0%nat = false -> faults e 1%nat = true ->
  insert_sale (now e) (num (SaleBody.customerId b)) (str (SaleBody.saleDate b))
    (str (SaleBody.saleType b)) (number (SaleBody.quantity b)) (number (SaleBody.unitPrice b))
    (number (SaleBody.quantity b) * number (SaleBody.unitPrice b))%float
    (str_or (SaleBody.paymentStatus b) "pending") (str_or_null (SaleBody.paymentMethod b))
    (str_or_null (SaleBody.notes b)) u d = Some (id, d1) ->
  post_sale e u b d = (d1, server_error "Failed to create sale")
  /\ customers d1 = customers d /\ length (sales d1) = S (length (sales d)).
Proof.
  intros Hg H0 H1 Hins. rewrite post_sale_eq, Hg. cbv zeta. rewrite H0, Hins, H1.
  split; [done|].
  apply insert_sale_inv in Hins as (-> & s & -> & _). simpl.
  split; [done|]. rewrite length_app. simpl. lia.
Qed.

(** ** Sale update and the total equation (sales.ts) *)

Section SaleUpdateFacts.
Implicit Types (d : db) (s : sale) (e : env).

Lemma put_sale_db e id b d :
  fst (put_sale e id b d) = d
  \/ fst (put_sale e id b d)
     = set_sales ((fun s => if decide (sale_id s = id)
                            then with_payment (SaleUpdate.paymentStatus b)
                                   (SaleUpdate.paymentMethod b) (SaleUpdate.notes b) s
                            else s) <$> sales d) (seq_sales d) d.
Proof.
  rewrite put_sale_eq. destruct (faults e 0%nat); [by left|].
  unfold update_sale_payment. destruct (_ && _); [by left|].
  right. by destruct (faults e 1%nat).
Qed.

Lemma amounts_rewrite (g : sale -> sale) cid (l : list sale) :
  (forall s, sale_customer_id (g s) = sale_customer_id s) ->
  (forall s, total_amount (g s) = total_amount s) ->
  total_amount <$> filter (fun s => sale_customer_id s = cid) (g <$> l)
  = total_amount <$> filter (fun s => sale_customer_id s = cid) l.
Proof.
  intros Hc Ht. induction l as [|s l IH]; [done|].
  rewrite fmap_cons, !filter_cons, Hc.
  destruct (decide (sale_customer_id s = cid)); [|done].
  rewrite !fmap_cons. by rewrite Ht, IH.
Qed.

Lemma post_sale_client_total e u b x d :
  post_sale e u (with_client_total x b) d = post_sale e u b d.
Proof. reflexivity. Qed.

Lemma sale_total_ok_step d op : sale_total_ok d -> sale_total_ok (sale_step d op).
Proof.
  unfold sale_total_ok. intros Hok. destruct op as [[e u b|e id]|e id b]; simpl.
  - destruct (post_sale_cases e u b d)
      as [->|(s & d2 & _ & _ & Hq & Hp & Ht & Hnan & [= <-] & [->| [_ ->]] & _)];
      [done| |]; simpl.
    all: apply Forall_app; split; [done|]; apply Forall_singleton.
    all: rewrite Ht, Hq, Hp; by apply real_column_eqb.
  - rewrite delete_sale_by_id_eq.
    destruct (faults e 0%nat); [done|].
    destruct (head _) as [s|]; cbv zeta;
      repeat (match goal with |- context [if faults e ?k then _ else _] =>
                destruct (faults e k) end; [done|]);
      simpl; rewrite Forall_forall in *; intros s' [_ Hs]%list_elem_of_filter; by apply Hok.
  - destruct (put_sale_db e id b d) as [->| ->]; [done|]. simpl.
    apply Forall_fmap. eapply Forall_impl; [done|]. intros s Hs. simpl.
    by destruct (decide _).
Qed.

End SaleUpdateFacts.

(** Where quantity and unit price are whole numbers with a product below
    2^53, the product of the doubles is the product of the numbers. *)
Lemma sale_total_whole (s : sale) (q p : Z) :
  (total_amount s =? quantity s * unit_price s)%float = true ->
  integer (quantity s) = Some q -> integer (unit_price s) = Some p -> safe (q * p) ->
  sale_total_exact s.
Proof.
  intros Ht%eqb_dyadic [Hq Hsq]%integer_spec [Hp Hsp]%integer_spec Hs.
  exists (q * p * 2 ^ 1074), (q * 2 ^ 1074), (p * 2 ^ 1074).
  rewrite Ht, Hq, Hp. rewrite whole_mul_dyadic, !dyadic_whole by done.
  split_and!; [done..|ring].
Qed.

(** C4 as stated fails: the total is a rounded product. A sale of
    94906267 at 94906267 is stored with total_amount 9007199515875288,
    one less than quantity times unit_price. *)
Lemma sale_total_rounded :
  sale_core <$> sales (fst (post_sale env0 1 (sale_body 94906267 94906267) db1))
    = [(1, 1, 94906267%float, 94906267%float, 9007199515875288%float)]
  /\ 94906267 * 94906267 = 9007199515875288 + 1
  /\ ~ Forall sale_total_exact (sales (fst (post_sale env0 1 (sale_body 94906267 94906267) db1))).
Proof.
  split_and!; [reflexivity..|].
  intros H. apply Forall_inv in H as (t & q & p & Ht & Hq & Hp & Heq).
  vm_compute in Ht, Hq, Hp. injection Ht as <-. injection Hq as <-. injection Hp as <-.
  apply (f_equal (fun v => v / 2 ^ 2148)) in Heq. vm_compute in Heq. discriminate.
Qed.

(** C4, amended. Every persisted sale has total_amount equal to quantity
    times unit_price as the program multiplies, in double precision; this
    is their exact product wherever quantity and unit price are whole
    numbers whose product is below 2^53 in absolute value. The handler
    computes the total from quantity and unitPrice, whatever total the
    client sends along, and the equation survives every sequence of
    create, update and delete requests (whatever statement of them
    fails). *)
Theorem sale_total_correct (d0 : db) (ops : list sale_op)
    (e : env) (userId : Z) (b : SaleBody.t) (x : option float) :
  sale_total_ok d0 ->
  sale_total_ok (run_sale_ops ops d0)
  /\ post_sale e userId (with_client_total x b) d0 = post_sale e userId b d0
  /\ sale_total_ok (fst (post_sale e userId b d0))
  /\ (forall s q p,
        s ∈ sales (run_sale_ops ops d0) ->
        integer (quantity s) = Some q -> integer (unit_price s) = Some p ->
        safe (q * p) -> sale_total_exact s).
Proof.
  intros Hok.
  assert (sale_total_ok (run_sale_ops ops d0)) as Hrun.
  { revert d0 Hok. induction ops as [|op ops IH]; intros d0 Hok; [done|].
    simpl. by apply IH, sale_total_ok_step. }
  split_and!.
  - done.
  - apply post_sale_client_total.
  - by apply (sale_total_ok_step d0 (Ledger (RecordSale e userId b))).
  - intros s q p Hin. unfold sale_total_ok in Hrun. rewrite Forall_forall in Hrun.
    by apply sale_total_whole, Hrun.
Qed.

Lemma sale_total_correct_witness :
  sale_total_ok (run_sale_ops [Ledger (RecordSale env0 1 (sale_body 10 1000));
                               UpdateSale env0 1 paid_update] db1)
  /\ post_sale env0 1 (with_client_total (Some 7%float) (sale_body 10 1000)) db1
     = post_sale env0 1 (sale_body 10 1000) db1
  /\ sale_total_ok (fst (post_sale env0 1 (sale_body 10 1000) db1))
  /\ (forall s q p,
        s ∈ sales (run_sale_ops [Ledger (RecordSale env0 1 (sale_body 10 1000));
                                 UpdateSale env0 1 paid_update] db1) ->
        integer (quantity s) = Some q -> integer (unit_price s) = Some p ->
        safe (q * p) -> sale_total_exact s).
Proof.
  apply (sale_total_correct db1 _ env0 1 (sale_body 10 1000) (Some 7%float)).
  apply Forall_nil_2.
Defined.

(** C10. Frame of sale update: PUT /api/sales/:id rewrites nothing but
    payment_status, payment_method and notes of sales. Customers (hence
    every total_purchases) and every other table are untouched; id,
    customer_id, quantity, unit_price and total_amount of every sale are
    unchanged; so the ledger equation of any customer and the total
    equation are preserved. *)
Theorem put_sale_frame (e : env) (id : Z) (b : SaleUpdate.t) (d : db) :
  customers (fst (put_sale e id b d)) = customers d
  /\ fst (put_sale e id b d) = set_sales (sales (fst (put_sale e id b d))) (seq_sales d) d
  /\ sale_core <$> sales (fst (put_sale e id b d)) = sale_core <$> sales d
  /\ sale_frame <$> sales (fst (put_sale e id b d)) = sale_frame <$> sales d
  /\ (forall cid, ledger_ok cid d -> ledger_ok cid (fst (put_sale e id b d)))
  /\ (sale_total_ok d -> sale_total_ok (fst (put_sale e id b d))).
Proof.
  split_and!.
  - by destruct (put_sale_db e id b d) as [->| ->].
  - destruct (put_sale_db e id b d) as [->| ->]; [by destruct d|done].
  - destruct (put_sale_db e id b d) as [->| ->]; [done|]. simpl.
    rewrite <- list_fmap_compose. apply list_fmap_ext. intros _ s _. simpl.
    by destruct (decide _).
  - destruct (put_sale_db e id b d) as [->| ->]; [done|]. simpl.
    rewrite <- list_fmap_compose. apply list_fmap_ext. intros _ s _. simpl.
    by destruct (decide _).
  - intros cid Hok. destruct (put_sale_db e id b d) as [->| ->]; [done|].
    unfold ledger_ok, sales_of in *. simpl.
    rewrite amounts_rewrite; [done|intros s; by destruct (decide _)..].
  - intros Hok. by apply (sale_total_ok_step d (UpdateSale e id b)).
Qed.

Lemma put_sale_frame_witness :
  let d := fst (post_sale env0 1 (sale_body 10 1000) db1) in
  ledger_ok 1 (fst (put_sale env0 1 paid_update d))
  /\ sale_total_ok (fst (put_sale env0 1 paid_update d))
  /\ payment_status <$> sales (fst (put_sale env0 1 paid_update d)) = [Some "paid"].
Proof.
  intros d.
  destruct (put_sale_frame env0 1 paid_update d) as (_ & _ & _ & _ & Hledger & Htotal).
  split_and!.
  - apply Hledger. exists 10000%float, (10000 * 2 ^ 1074). split_and!; reflexivity.
  - apply Htotal. apply Forall_cons_2; [reflexivity|apply Forall_nil_2].
  - reflexivity.
Defined.

(** ** Validation of RecordSale (sales.ts) *)

(** C8 as stated fails: a sale of -5 at 1000 is answered 201, its row is
    persisted with total -5000 and the customer's counter moves to -5000. *)
Lemma negative_quantity_accepted :
  SaleBody.quantity (sale_body (-5) 1000) = Some (-5)%float
  /\ status (snd (post_sale env0 1 (sale_body (-5) 1000) db1)) = 201%nat
  /\ sale_core <$> sales (fst (post_sale env0 1 (sale_body (-5) 1000) db1))
     = [(1, 1, (-5)%float, 1000%float, (-5000)%float)]
  /\ purchases_of 1 (fst (post_sale env0 1 (sale_body (-5) 1000) db1)) = Some (-5000)%float.
Proof. split_and!; reflexivity. Qed.

(** C8, amended. A RecordSale request whose quantity is 0 or whose
    unitPrice is 0 is answered 400 before any statement runs: the store,
    hence the sales table and every customer's total_purchases, is what it
    was. *)
Theorem record_sale_rejects_zero (e : env) (userId : Z) (b : SaleBody.t) (d : db) :
  SaleBody.quantity b = Some 0%float \/ SaleBody.unitPrice b = Some 0%float ->
  post_sale e userId b d
  = (d, {| status := 400;
           json := JError "Customer ID, sale date, sale type, quantity, and unit price are required" |}).
Proof.
  intros H. rewrite post_sale_eq.
  assert (falsy_number (SaleBody.quantity b) || falsy_number (SaleBody.unitPrice b) = true) as Hf.
  { destruct H as [-> | ->]; simpl; [done|]. apply orb_true_r. }
  apply orb_true_iff in Hf as [Hf|Hf]; rewrite Hf; by rewrite ?orb_true_r.
Qed.

Lemma record_sale_rejects_zero_witness :
  post_sale env_fail1 1 (sale_body 0 1000) db1
  = (db1, {| status := 400;
             json := JError "Customer ID, sale date, sale type, quantity, and unit price are required" |}).
Proof.
  apply (record_sale_rejects_zero env_fail1 1 (sale_body 0 1000) db1).
  left. reflexivity.
Defined.

(** ** Mortality (poultry.ts) *)

Section PoultryFacts.
Implicit Types (d : db) (h : health_record) (e : env).

Lemma post_batch_eq e u b d :
  post_batch e u b d =
  if falsy_str (BatchBody.batchName b) || falsy_str (BatchBody.birdType b)
     || falsy_number (BatchBody.initialCount b) || falsy_str (BatchBody.dateAcquired b)
  then (d, {| status := 400;
              json := JError "Batch name, bird type, initial count, and date acquired are required" |})
  else if faults e 0%nat then (d, server_error "Failed to create batch")
  else match insert_batch (now e) (str (BatchBody.batchName b)) (str (BatchBody.birdType b))
               (number (BatchBody.initialCount b)) (str (BatchBody.dateAcquired b))
               (str_or_null (BatchBody.source b)) (num_or_null (BatchBody.costPerBird b))
               (str_or_null (BatchBody.notes b)) u d with
       | None => (d, server_error "Failed to create batch")
       | Some (id, d1) =>
           if faults e 1%nat then (d1, server_error "Failed to create batch")
           else (d1, {| status := 201;
                        json := JBatch (head (filter (fun x => batch_id x = id)
                                                (poultry_batches d1))) |})
       end.
Proof.
  unfold post_batch, try_catch, bind, run, ret, server_error.
  destruct (_ || _); [done|].
  destruct (faults e 0%nat); [done|].
  destruct (insert_batch _ _ _ _ _ _ _ _ _ d) as [[id d1]|]; [|done].
  by destruct (faults e 1%nat).
Qed.

Lemma post_health_eq e u b d :
  post_health e u b d =
  if falsy_num (HealthBody.batchId b) || falsy_str (HealthBody.date b)
     || falsy_str (HealthBody.recordType b) || falsy_str (HealthBody.description b)
  then (d, {| status := 400;
              json := JError "Batch ID, date, record type, and description are required" |})
  else if faults e 0%nat then (d, server_error "Failed to create health record")
  else match insert_health (now e) (num (HealthBody.batchId b)) (str (HealthBody.date b))
               (str (HealthBody.recordType b)) (str (HealthBody.description b))
               (number_or (HealthBody.mortalityCount b) 0) (num_or (HealthBody.cost b) 0)
               (str_or_null (HealthBody.administeredBy b)) (str_or_null (HealthBody.notes b))
               u d with
       | None => (d, server_error "Failed to create health record")
       | Some (id, d1) =>
           let answer d' :=
             if faults e 2%nat then (d', server_error "Failed to create health record")
             else (d', {| status := 201;
                          json := JHealth (head (filter (fun h => health_id h = id)
                                                   (health_records d'))) |}) in
           if negb (falsy_number (HealthBody.mortalityCount b))
              && (0 <? number (HealthBody.mortalityCount b))%float
           then if faults e 1%nat then (d1, server_error "Failed to create health record")
                else match decrease_current_count (now e)
                             (number (HealthBody.mortalityCount b))
                             (num (HealthBody.batchId b)) d1 with
                     | None => (d1, server_error "Failed to create health record")
                     | Some (_, d2) => answer d2
                     end
           else answer d1
       end.
Proof.
  unfold post_health, try_catch, bind, run, ret, server_error.
  destruct (_ || _); [done|].
  destruct (faults e 0%nat); [done|].
  destruct (insert_health _ _ _ _ _ _ _ _ _ _ d) as [[id d1]|]; [|done].
  destruct (_ && _).
  - destruct (faults e 1%nat); [done|].
    destruct (decrease_current_count _ _ _ d1) as [[[] d2]|]; [|done].
    simpl. by destruct (faults e 2%nat).
  - simpl. by destruct (faults e 2%nat).
Qed.

Lemma sum_mortality_app (l1 l2 : list health_record) :
  sum_mortality (l1 ++ l2) = sum_mortality l1 + sum_mortality l2.
Proof. unfold sum_mortality. induction l1 as [|h l1 IH]; simpl; lia. Qed.

Lemma sum_mortality_one (h : health_record) : sum_mortality [h] = mortality_Z h.
Proof. unfold sum_mortality. simpl. lia. Qed.

Lemma sum_mortality_nonneg (l : list health_record) :
  Forall (fun h => exists m, integer (mortality_count h) = Some m /\ 0 <= m) l ->
  0 <= sum_mortality l.
Proof.
  induction 1 as [|h l (m & Hm & Hpos) _ IH]; [done|].
  unfold sum_mortality, mortality_Z in *. simpl. rewrite Hm. simpl. lia.
Qed.

Lemma counts_map (f : poultry_batch -> poultry_batch) (g : float -> float) bid
    (bs : list poultry_batch) :
  (forall x, batch_id (f x) = batch_id x) ->
  (forall x, batch_id x = bid -> current_count (f x) = g (current_count x)) ->
  current_count <$> filter (fun x => batch_id x = bid) (f <$> bs)
  = g <$> (current_count <$> filter (fun x => batch_id x = bid) bs).
Proof.
  intros Hid Hc. induction bs as [|x bs IH]; [done|].
  rewrite fmap_cons, !filter_cons, Hid.
  destruct (decide (batch_id x = bid)) as [Heq|]; [|done].
  by rewrite !fmap_cons, (Hc _ Heq), IH.
Qed.

Lemma count_of_head bid d :
  count_of bid d
  = head (current_count <$> filter (fun x => batch_id x = bid) (poultry_batches d)).
Proof. unfold count_of. by destruct (filter _ _). Qed.

Lemma count_of_map (f : poultry_batch -> poultry_batch) (g : float -> float) bid
    (bs : list poultry_batch) :
  (forall x, batch_id (f x) = batch_id x) ->
  (forall x, batch_id x = bid -> current_count (f x) = g (current_count x)) ->
  current_count <$> head (filter (fun x => batch_id x = bid) (f <$> bs))
  = g <$> (current_count <$> head (filter (fun x => batch_id x = bid) bs)).
Proof.
  intros Hid Hc. induction bs as [|x bs IH]; [done|].
  rewrite fmap_cons, !filter_cons, Hid.
  destruct (decide (batch_id x = bid)); simpl; [|done].
  by rewrite Hc.
Qed.

(** What a request that reports whole, non-negative deaths stores and
    subtracts. *)
Lemma deaths_asked_spec e u (b : HealthBody.t) (m : Z) :
  deaths_asked (RecordHealthEvent e u b) = Some m ->
  0 <= m /\ safe m
  /\ number_or (HealthBody.mortalityCount b) 0 = whole m
  /\ negb (falsy_number (HealthBody.mortalityCount b))
     && (0 <? number (HealthBody.mortalityCount b))%float = (0 <? m)
  /\ (0 < m -> number (HealthBody.mortalityCount b) = whole m).
Proof.
  simpl. destruct (HealthBody.mortalityCount b) as [x|]; simpl.
  - destruct (integer x) as [z|] eqn:Hz; [|done]. simpl.
    destruct (Z.leb_spec 0 z) as [Hpos|]; [|done]. intros [= <-].
    apply integer_spec in Hz as [-> Hs].
    rewrite whole_falsy, whole_pos by done.
    split_and!; [done|done| | |done].
    + destruct (Z.eqb_spec z 0) as [->|]; done.
    + destruct (Z.eqb_spec z 0) as [->|]; [done|]. done.
  - intros [= <-]. split_and!; [done|by unfold safe|done|done|lia].
Qed.

(** One health event on reliable storage that reports whole deaths, not
    negative, keeps the headcount equal to [n] minus the recorded deaths,
    as long as the numbers stay below 2^53. *)
Lemma mortality_ok_step bid n d op m :
  reliable (health_op_env op) -> deaths_asked op = Some m ->
  Z.abs n + sum_mortality (health_of bid d) + m < 2 ^ 53 ->
  mortality_ok bid n d ->
  mortality_ok bid n (health_step d op)
  /\ sum_mortality (health_of bid (health_step d op)) <= sum_mortality (health_of bid d) + m.
Proof.
  destruct op as [e u b]. intros Hrel Hasked Hbound [Hwhole Hcount].
  destruct (deaths_asked_spec e u b m Hasked) as (Hpos & Hsafe & Hstored & Hguard & Hsub).
  pose proof (sum_mortality_nonneg _ Hwhole) as Hsum0.
  assert (Hsame : mortality_ok bid n d
                  /\ sum_mortality (health_of bid d) <= sum_mortality (health_of bid d) + m)
    by (split; [by split|lia]).
  cbn [health_step health_op_env] in *.
  rewrite post_health_eq. destruct (_ || _); [done|]. rewrite !Hrel.
  unfold insert_health. destruct (_ && _ && check_in _ _); [|done]. cbv zeta.
  rewrite Hstored, integer_column_whole, Hguard by done.
  set (h := Build_health_record _ _ _ _ _ _ _ _ _ _ _).
  set (d1 := set_health (health_records d ++ [h]) (seq_health d + 1) d).
  assert (mortality_Z h = m) as Hm by (unfold mortality_Z; simpl; by rewrite integer_whole).
  assert (Hrecords : forall d', health_records d' = health_records d1 ->
            health_of bid d'
            = (health_of bid d
               ++ (if decide (num (HealthBody.batchId b) = bid) then [h] else []))%list).
  { intros d' Hd'. unfold health_of. rewrite Hd'. unfold d1. simpl.
    by rewrite filter_app. }
  assert (Hforall : forall d', health_records d' = health_records d1 ->
            Forall (fun h => exists m, integer (mortality_count h) = Some m /\ 0 <= m)
                   (health_of bid d')).
  { intros d' Hd'. rewrite (Hrecords d' Hd'). apply Forall_app. split; [done|].
    destruct (decide _); [|apply Forall_nil_2]. apply Forall_singleton.
    exists m. simpl. by rewrite integer_whole. }
  assert (Hsums : forall d', health_records d' = health_records d1 ->
            sum_mortality (health_of bid d')
            = sum_mortality (health_of bid d)
              + (if decide (num (HealthBody.batchId b) = bid) then m else 0)).
  { intros d' Hd'. rewrite (Hrecords d' Hd'), sum_mortality_app. f_equal.
    destruct (decide _); [by rewrite sum_mortality_one|done]. }
  assert (Hkeep : forall d', health_records d' = health_records d1 ->
            poultry_batches d' = poultry_batches d ->
            (0 < m -> num (HealthBody.batchId b) <> bid) ->
            mortality_ok bid n d'
            /\ sum_mortality (health_of bid d') <= sum_mortality (health_of bid d) + m).
  { intros d' Hh Hb Hother. split; [split; [by apply Hforall|]|].
    - rewrite Hb, Hcount, (Hsums d' Hh). do 3 f_equal.
      destruct (decide _); [|lia]. destruct (decide (0 < m)); [by destruct Hother|lia].
    - rewrite (Hsums d' Hh). destruct (decide _); lia. }
  destruct (Z.ltb_spec 0 m) as [Hlt|Hge].
  - rewrite (Hsub Hlt).
    destruct (decide (num (HealthBody.batchId b) = bid)) as [Hbid|Hother].
    + assert (decrease_current_count (now e) (whole m) (num (HealthBody.batchId b)) d1
              = Some (tt, set_batches
                  ((fun x => if decide (batch_id x = num (HealthBody.batchId b))
                             then with_current_count
                                    (integer_column (current_count x - whole m)%float) (now e) x
                             else x) <$> poultry_batches d1) (seq_batches d1) d1)) as ->.
      { unfold decrease_current_count. rewrite bool_decide_eq_false_2; [done|].
        rewrite Exists_exists. intros (x & Hx & Hid & Hnan).
        assert (current_count x ∈ current_count <$> filter (fun x => batch_id x = bid)
                                                     (poultry_batches d)) as Hin.
        { apply list_elem_of_fmap. exists x. split; [done|].
          apply list_elem_of_filter. split; [congruence|done]. }
        rewrite Hcount in Hin. apply list_elem_of_singleton in Hin. rewrite Hin in Hnan.
        rewrite whole_sub, whole_not_nan in Hnan by (unfold safe in *; lia). done. }
      set (d2 := set_batches _ _ d1).
      assert (mortality_ok bid n d2
              /\ sum_mortality (health_of bid d2) <= sum_mortality (health_of bid d) + m)
        as Hgoal; [|by destruct (faults e 2%nat)].
      split; [split; [by apply Hforall|]|].
      * rewrite (Hsums d2 eq_refl). unfold d2. simpl.
        rewrite (counts_map _ (fun v => integer_column (v - whole m)%float)).
        -- rewrite Hcount. simpl. f_equal.
           rewrite whole_sub, integer_column_whole by (unfold safe in *; lia).
           f_equal. lia.
        -- intros x. by destruct (decide _).
        -- intros x Hx. rewrite decide_True by congruence. done.
      * rewrite (Hsums d2 eq_refl). lia.
    + destruct (decrease_current_count _ _ _ d1) as [[[] d2]|] eqn:Hdec.
      * assert (mortality_ok bid n d2
                /\ sum_mortality (health_of bid d2) <= sum_mortality (health_of bid d) + m)
          as Hgoal; [|by destruct (faults e 2%nat)].
        unfold decrease_current_count in Hdec. destruct (bool_decide _); [done|].
        injection Hdec as Hd2.
        assert (health_records d2 = health_records d1) as Hh2 by (by rewrite <- Hd2).
        split; [split; [by apply Hforall|]|].
        -- rewrite (Hsums _ Hh2), <- Hd2. simpl.
           rewrite (counts_map _ (fun v => v)).
           ++ rewrite list_fmap_id, Hcount. do 3 f_equal. lia.
           ++ intros x. by destruct (decide _).
           ++ intros x Hx. rewrite decide_False by congruence. done.
        -- rewrite (Hsums _ Hh2). lia.
      * by apply Hkeep.
  - assert (mortality_ok bid n d1
            /\ sum_mortality (health_of bid d1) <= sum_mortality (health_of bid d) + m)
      as Hgoal by (apply Hkeep; [done|done|lia]).
    by destruct (faults e 2%nat).
Qed.

Lemma total_deaths_nonneg (ops : list health_op) (v : Z) :
  total_deaths_asked ops = Some v -> 0 <= v.
Proof.
  revert v. induction ops as [|[e u b] ops IH]; intros v; [intros [= <-]; lia|].
  cbn [total_deaths_asked].
  destruct (deaths_asked _) as [m|] eqn:Hm; [|done]. simpl.
  destruct (total_deaths_asked ops) as [w|]; [|done]. simpl. intros [= <-].
  apply deaths_asked_spec in Hm as [? _]. specialize (IH w eq_refl). lia.
Qed.

Lemma total_deaths_take (ops : list health_op) (k : nat) (v : Z) :
  total_deaths_asked ops = Some v ->
  exists v', total_deaths_asked (take k ops) = Some v' /\ v' <= v.
Proof.
  revert k v. induction ops as [|op ops IH]; intros [|k] v Hv.
  - exists 0. by injection Hv as <-.
  - exists 0. by injection Hv as <-.
  - exists 0. split; [done|]. by apply (total_deaths_nonneg (op :: ops)).
  - cbn [take total_deaths_asked] in *.
    destruct (deaths_asked op) as [m|]; [|done]. simpl in *.
    destruct (total_deaths_asked ops) as [w|] eqn:Hw; [|done]. simpl in *. injection Hv as <-.
    destruct (IH k w eq_refl) as (w' & -> & Hle). simpl. eexists. split; [done|]. lia.
Qed.

Lemma mortality_ok_run bid n ops d v :
  Forall (fun op => reliable (health_op_env op)) ops ->
  total_deaths_asked ops = Some v ->
  Z.abs n + sum_mortality (health_of bid d) + v < 2 ^ 53 ->
  mortality_ok bid n d -> mortality_ok bid n (run_health_ops ops d).
Proof.
  intros Hops. revert d v. induction Hops as [|op ops Hrel _ IH]; intros d v Hv Hb Hok; [done|].
  cbn [total_deaths_asked] in Hv.
  destruct (deaths_asked op) as [m|] eqn:Hm; [|done]. simpl in Hv.
  destruct (total_deaths_asked ops) as [w|] eqn:Hw; [|done]. simpl in Hv. injection Hv as <-.
  pose proof (total_deaths_nonneg _ _ Hw).
  destruct (mortality_ok_step bid n d op m Hrel Hm) as [Hok' Hle]; [lia|done|].
  simpl. apply (IH _ w); [done|lia|done].
Qed.

Lemma filter_none {A} (P : A -> Prop) `{forall x, Decision (P x)} (l : list A) :
  Forall (fun x => ~ P x) l -> filter P l = [].
Proof.
  induction 1 as [|x l Hx _ IH]; [done|].
  rewrite filter_cons. by destruct (decide (P x)).
Qed.

(** A created batch is the row the handler returns: it carries the fresh
    id, starts at its initial count, and no health record points to it. *)
Lemma post_batch_created e u b d batch n :
  batches_wf d ->
  BatchBody.initialCount b ≫= integer = Some n ->
  snd (post_batch e u b d) = {| status := 201; json := JBatch (Some batch) |} ->
  mortality_ok (batch_id batch) n (fst (post_batch e u b d))
  /\ health_of (batch_id batch) (fst (post_batch e u b d)) = [].
Proof.
  intros [Hb Hh] Hn. rewrite post_batch_eq. destruct (_ || _); [done|].
  destruct (faults e 0%nat); [done|].
  unfold insert_batch. destruct (_ && _); [|done].
  destruct (faults e 1%nat); [done|]. simpl.
  assert (Hold : filter (fun x => batch_id x = seq_batches d + 1) (poultry_batches d) = []).
  { apply filter_none. eapply Forall_impl; [done|]. simpl. intros; lia. }
  rewrite filter_app, Hold, filter_cons, filter_nil. simpl.
  destruct (decide _); [|done]. simpl. intros [= <-]. simpl.
  assert (forall bs id, health_of (seq_batches d + 1) (set_batches bs id d) = []) as Hnone.
  { intros bs id. unfold health_of. simpl. apply filter_none.
    eapply Forall_impl; [done|]. simpl. intros; lia. }
  split; [|apply Hnone].
  unfold mortality_ok. rewrite Hnone. split; [apply Forall_nil_2|]. simpl.
  rewrite filter_app, Hold, filter_cons, filter_nil. simpl.
  destruct (decide _); [|done]. simpl.
  destruct (BatchBody.initialCount b) as [x|]; [|done]. simpl in *.
  apply integer_spec in Hn as [-> Hs].
  rewrite integer_column_whole by done. do 2 f_equal. unfold sum_mortality. simpl. lia.
Qed.

End PoultryFacts.

(** Scenario 2 of the specification: a batch of 500 with 5 and then 3
    deaths recorded stands at 492. *)
Example mortality_scenario :
  count_of 1 (run_health_ops [RecordHealthEvent env0 1 (health_body 5);
                              RecordHealthEvent env0 1 (health_body 3)]
                (fst (post_batch env0 1 (batch_body 500) db1))) = Some 492%float.
Proof. reflexivity. Qed.

(** C3 as stated fails, in four ways. Nothing clamps the headcount: a
    batch of 5 with 10 deaths recorded stands at -5. The record and the
    decrement are two statements: when the decrement fails, the 5 deaths
    are recorded and the batch of 500 still stands at 500. A
    mortalityCount of -3 is stored with the record but skips the decrement
    (the guard is [mortalityCount > 0]). And the subtraction is one of
    doubles: a batch of 18014398509481984 (2^54) with 1 death recorded
    stands at 18014398509481984. *)
Lemma current_count_goes_negative :
  (exists c,
     count_of 1 (run_health_ops [RecordHealthEvent env0 1 (health_body 10)]
                   (fst (post_batch env0 1 (batch_body 5) db1))) = Some c
     /\ c = (5 - 10)%float /\ (c <? 0)%float = true)
  /\ (count_of 1 (run_health_ops [RecordHealthEvent env_fail1 1 (health_body 5)]
                    (fst (post_batch env0 1 (batch_body 500) db1))) = Some 500%float
      /\ mortality_count
           <$> health_of 1 (run_health_ops [RecordHealthEvent env_fail1 1 (health_body 5)]
                              (fst (post_batch env0 1 (batch_body 500) db1)))
         = [5%float])
  /\ (count_of 1 (run_health_ops [RecordHealthEvent env0 1 (health_body (-3))]
                    (fst (post_batch env0 1 (batch_body 500) db1))) = Some 500%float
      /\ mortality_count
           <$> health_of 1 (run_health_ops [RecordHealthEvent env0 1 (health_body (-3))]
                              (fst (post_batch env0 1 (batch_body 500) db1)))
         = [(-3)%float])
  /\ (count_of 1 (run_health_ops [RecordHealthEvent env0 1 (health_body 1)]
                    (fst (post_batch env0 1 (batch_body 18014398509481984) db1)))
        = Some 18014398509481984%float
      /\ mortality_count
           <$> health_of 1 (run_health_ops [RecordHealthEvent env0 1 (health_body 1)]
                              (fst (post_batch env0 1 (batch_body 18014398509481984) db1)))
         = [1%float]).
Proof.
  split_and!; try reflexivity. exists (-5)%float. split_and!; reflexivity.
Qed.

(** C3, amended. For a batch created with a whole initial_count n and
    every sequence of RecordHealthEvent requests in which no statement
    fails and whose mortalityCount is a whole number, not negative, with n
    and the reported deaths below 2^53 in absolute total: after each
    request current_count equals n minus the sum of mortality_count over
    the health events recorded for that batch. Nothing clamps it:
    current_count is non-negative exactly while the recorded deaths do not
    exceed n. *)
Theorem mortality_equation (d0 : db) (e : env) (userId : Z) (b : BatchBody.t)
    (n : Z) (batch : poultry_batch) (ops : list health_op) (k : nat) (v : Z) :
  batches_wf d0 ->
  BatchBody.initialCount b ≫= integer = Some n ->
  snd (post_batch e userId b d0) = {| status := 201; json := JBatch (Some batch) |} ->
  Forall (fun op => reliable (health_op_env op)) ops ->
  total_deaths_asked ops = Some v -> Z.abs n + v < 2 ^ 53 ->
  exists c deaths,
    count_of (batch_id batch) (run_health_ops (take k ops) (fst (post_batch e userId b d0)))
      = Some (whole c)
    /\ Forall (fun h => is_Some (integer (mortality_count h)))
              (health_of (batch_id batch)
                 (run_health_ops (take k ops) (fst (post_batch e userId b d0))))
    /\ deaths = sum_mortality (health_of (batch_id batch)
                 (run_health_ops (take k ops) (fst (post_batch e userId b d0))))
    /\ c = n - deaths
    /\ (0 <= c <-> deaths <= n).
Proof.
  intros Hwf Hn Hcreated Hops Hv Hbound.
  destruct (post_batch_created e userId b d0 batch n Hwf Hn Hcreated) as [Hok Hnone].
  destruct (total_deaths_take ops k v Hv) as (v' & Hv' & Hle).
  apply (mortality_ok_run _ _ (take k ops) _ v') in Hok;
    [|by apply Forall_take|done|rewrite Hnone; unfold sum_mortality; simpl; lia].
  destruct Hok as [Hwhole Hcount].
  eexists _, _. split_and!; [|  |reflexivity|reflexivity|lia].
  - by rewrite count_of_head, Hcount.
  - eapply Forall_impl; [exact Hwhole|]. intros h (m & -> & _). by eexists.
Qed.

Lemma mortality_equation_witness :
  exists c deaths,
    count_of 1 (run_health_ops
                  (take 2 [RecordHealthEvent env0 1 (health_body 5);
                           RecordHealthEvent env0 1 (health_body 3)])
                  (fst (post_batch env0 1 (batch_body 500) db1))) = Some (whole c)
    /\ Forall (fun h => is_Some (integer (mortality_count h)))
              (health_of 1 (run_health_ops
                  (take 2 [RecordHealthEvent env0 1 (health_body 5);
                           RecordHealthEvent env0 1 (health_body 3)])
                  (fst (post_batch env0 1 (batch_body 500) db1))))
    /\ deaths = sum_mortality (health_of 1 (run_health_ops
                  (take 2 [RecordHealthEvent env0 1 (health_body 5);
                           RecordHealthEvent env0 1 (health_body 3)])
                  (fst (post_batch env0 1 (batch_body 500) db1))))
    /\ c = 500 - deaths
    /\ (0 <= c <-> deaths <= 500).
Proof.
  apply (mortality_equation db1 env0 1 (batch_body 500) 500
           {| batch_id := 1; batch_name := "Layers A"; bird_type := "layer";
              initial_count := 500; current_count := 500; date_acquired := "2024-01-10";
              batch_source := None; cost_per_bird := None; batch_notes := None;
              batch_status := Some "active"; batch_created_by := 1;
              batch_created_at := 100; batch_updated_at := 100 |}
           [RecordHealthEvent env0 1 (health_body 5);
            RecordHealthEvent env0 1 (health_body 3)] 2 8).
  - split; apply Forall_nil_2.
  - vm_compute. reflexivity.
  - reflexivity.
  - repeat apply Forall_cons_2; try apply Forall_nil_2; intros k; reflexivity.
  - vm_compute. reflexivity.
  - reflexivity.
Defined.

(** ** Orders (orders.ts) *)

Section OrderFacts.
Implicit Types (d : db) (o : order) (e : env).







Lemma post_order_eq e b d :
  post_order e b d =
  if falsy_str (OrderBody.customerName b) || falsy_str (OrderBody.customerPhone b)
     || match OrderBody.items b with
        | Some items => bool_decide (length items = 0%nat)
        | None => true
        end
  then (d, {| status := 400;
              json := JError "Customer name, phone, and at least one item are required" |})
  else
    let items := default [] (OrderBody.items b) in
    if existsb item_invalid items
    then (d, {| status := 400;
                json := JError "Each item must have a product and quantity >= 1" |})
    else if faults e 0%nat then (d, server_error "Failed to place order")
    else match insert_order (now e) (generateOrderNumber e) (str (OrderBody.customerName b))
                 (str_or_null (OrderBody.customerEmail b)) (str (OrderBody.customerPhone b))
                 (str_or_null (OrderBody.deliveryAddress b)) items (items_total items)
                 (str_or_null (OrderBody.notes b)) d with
         | None => (d, server_error "Failed to place order")
         | Some (id, d1) =>
             if faults e 1%nat then (d1, server_error "Failed to place order")
             else match head (filter (fun o => order_id o = id) (orders d1)) with
                  | None => (d1, server_error "Failed to place order")
                  | Some o => (d1, {| status := 201;
                                      json := JOrderPlaced "Order placed successfully!"
                                                (order_number o) o |})
                  end
         end.
Proof.
  unfold post_order, try_catch, bind, run, ret, server_error.
  destruct (_ || _); [done|]. cbv zeta.
  destruct (existsb _ _); [done|].
  destruct (faults e 0%nat); [done|].
  destruct (insert_order _ _ _ _ _ _ _ _ _ d) as [[id d1]|]; [|done].
  destruct (faults e 1%nat); [done|]. simpl.
  destruct (head _) as [o|]; [|done].
  unfold swallow, notify_operator, bind, run.
  by destruct (faults e 2%nat), (email_fails e).
Qed.

Lemma put_order_status_eq e id status d :
  put_order_status e id status d =
  if falsy_str status || negb (bool_decide (str status ∈ validStatuses))
  then (d, {| status := 400;
              json := JError "Invalid status. Must be one of: new, confirmed, processing, delivered, cancelled" |})
  else if faults e 0%nat then (d, server_error "Failed to update order status")
  else
    let d1 := set_orders
      ((fun o => if decide (order_id o = id) then with_status (str status) (now e) o else o)
         <$> orders d) (seq_orders d) d in
    if faults e 1%nat then (d1, server_error "Failed to update order status")
    else match head (filter (fun o => order_id o = id) (orders d1)) with
         | None => (d1, {| status := 404; json := JError "Order not found" |})
         | Some o => (d1, {| status := 200; json := JOrder o |})
         end.
Proof.
  unfold put_order_status, try_catch, bind, run, ret, server_error.
  destruct (falsy_str status) eqn:Hf; [done|]. simpl.
  destruct (bool_decide (str status ∈ validStatuses)) eqn:Hv; [|done]. simpl.
  destruct (faults e 0%nat); [done|].
  unfold update_order_status, check_in. rewrite Hv, andb_false_r.
  destruct (faults e 1%nat); [done|]. simpl.
  by destruct (head _).
Qed.

Lemma delete_order_by_id_eq e id d :
  delete_order_by_id e id d =
  if faults e 0%nat then (d, server_error "Failed to delete order")
  else match head (filter (fun o => order_id o = id) (orders d)) with
       | None => (d, {| status := 404; json := JError "Order not found" |})
       | Some _ =>
           if faults e 1%nat then (d, server_error "Failed to delete order")
           else (set_orders (filter (fun o => order_id o <> id) (orders d)) (seq_orders d) d,
                 {| status := 200; json := JMessage "Order deleted successfully" |})
       end.
Proof.
  unfold delete_order_by_id, try_catch, bind, run, ret, server_error.
  destruct (faults e 0%nat); [done|]. simpl.
  destruct (head _); [|done].
  by destruct (faults e 1%nat).
Qed.


End OrderFacts.

(** Scenario 3 of the specification: two trays at 15000 make an order of
    30000. *)
Example order_scenario :
  order_total_amount <$> orders db_one_order = [30000%float].
Proof. reflexivity. Qed.





(** Scenario 5 of the specification: a cancelled order can be set back to
    confirmed. *)
Example status_scenario :
  order_status <$> orders (run_order_ops [UpdateStatus env0 1 (Some "cancelled")] db_one_order)
    = ["cancelled"]
  /\ order_status <$> orders (run_order_ops [UpdateStatus env0 1 (Some "cancelled");
                                              UpdateStatus env0 1 (Some "confirmed")] db_one_order)
     = ["confirmed"].
Proof. split; reflexivity. Qed.



(** ** Order numbers (orders.ts) *)

Lemma length_toUpperCase (s : string) : String.length (toUpperCase s) = String.length s.
Proof. induction s as [|c s IH]; simpl; congruence. Qed.

Lemma length_substring_le (n m : nat) (s : string) :
  (String.length (String.substring n m s) <= m)%nat.
Proof.
  revert n m. induction s as [|c s IH]; intros [|n] [|m]; simpl; try lia.
  - specialize (IH 0%nat m). lia.
  - apply (IH n 0%nat).
  - apply (IH n (S m)).
Qed.

(** Every generated number is CFM, the clock in base 36, and at most four
    characters taken from the random number's digits. *)
Lemma generateOrderNumber_shape (e : env) :
  generateOrderNumber e
  = "CFM-" ++ toUpperCase (toString36 (date_now e)) ++ "-"
    ++ toUpperCase (substring 2 6 (fraction_toString36 (random e)))
  /\ (String.length (toUpperCase (substring 2 6 (fraction_toString36 (random e)))) <= 4)%nat.
Proof.
  split; [reflexivity|]. rewrite length_toUpperCase. apply length_substring_le.
Qed.

(** A usual draw gives the documented shape. *)
Example order_number_usual :
  generateOrderNumber {| faults := no_faults; now := 100; date_now := 1700000000000%N;
                         random := 1234567890123456%N; email_fails := false |}
  = "CFM-LOYW3V28-4XMV".
Proof. reflexivity. Qed.

(** C6, evaluated: at Date.now() = 1700000000000 and Math.random() = 0.5
    the random number prints as "0.i" in base 36, so the order number ends
    in the single character I instead of four. *)
Theorem order_number_short_suffix :
  random env0 = (2 ^ 52)%N
  /\ fraction_toString36 (random env0) = "0.i"
  /\ generateOrderNumber env0 = "CFM-LOYW3V28-I"
  /\ order_number <$> orders (fst (post_order env0 (order_body [eggs_tray 2]) db1))
     = ["CFM-LOYW3V28-I"].
Proof. split_and!; reflexivity. Qed.

(** ** The recent-activity feed (dashboard.ts) *)

Section FeedFacts.
Variable Date_parse : string -> option Z.

(** No row of the three SELECTs has a property called date. *)
Lemma activity_has_no_date ty id ts v de : activity ty id ts v de !! "date" = None.
Proof. reflexivity. Qed.

Lemma by_date_undefined (a b : gmap string jsval) :
  b !! "date" = None -> by_date Date_parse a b = None.
Proof. intros Hb. unfold by_date. by rewrite Hb. Qed.

(** A comparator that answers NaN on every pair leaves the array as it is. *)
Lemma js_sort_NaN {A} (cmp : A -> A -> option Z) (l : list A) :
  (forall a b, b ∈ l -> cmp a b = None) -> js_sort cmp l = l.
Proof.
  unfold js_sort. induction l as [|x l IH]; intros Hcmp; [done|].
  simpl. rewrite IH by (intros a b Hb; apply Hcmp; by right).
  destruct l as [|y l]; [done|]. simpl.
  rewrite (Hcmp x y) by (right; left). done.
Qed.

(** On reliable storage the feed is the egg rows, then the sale rows,
    then the health rows, cut at the limit, for a limit that SQLite
    accepts: the sort moves nothing. *)
Lemma get_activities_unsorted (e : env) (limit_query : option Z) (d : db) :
  reliable e -> limit_admissible (num_or limit_query 20) = true ->
  exists eggs sales health,
    select_recent_eggs (num_or limit_query 20) d = Some (eggs, d)
    /\ select_recent_sales (num_or limit_query 20) d = Some (sales, d)
    /\ select_recent_health (num_or limit_query 20) d = Some (health, d)
    /\ get_activities Date_parse e limit_query d
       = (d, {| status := 200;
                json := JActivities (js_slice0 (num_or limit_query 20)
                                       (eggs ++ sales ++ health)%list) |}).
Proof.
  intros Hrel Hlimit. unfold select_recent_eggs, select_recent_sales, select_recent_health.
  rewrite Hlimit. cbn [negb]. eexists _, _, _. split_and!; [reflexivity..|].
  unfold get_activities, try_catch, bind, run, ret. rewrite !Hrel.
  unfold select_recent_eggs, select_recent_sales, select_recent_health.
  rewrite Hlimit. cbn [negb].
  rewrite js_sort_NaN; [done|].
  intros a b Hb. apply by_date_undefined.
  rewrite !elem_of_app, !list_elem_of_fmap in Hb.
  destruct Hb as [(r & -> & _)|[(r & -> & _)|(r & -> & _)]]; apply activity_has_no_date.
Qed.

End FeedFacts.

(** C9, evaluated: whatever the runtime's date parser, the feed over an
    egg record of January, a sale of June and a health record of March
    comes back in that order (eggs, sales, health), not by timestamp
    descending: the comparator reads a property date that no row has. *)
Theorem activities_not_by_timestamp (Date_parse : string -> option Z) :
  feed_timestamps (snd (get_activities Date_parse env0 None db_feed))
  = [Some (JString "2024-01-05"); Some (JString "2024-06-01"); Some (JString "2024-03-01")]
  /\ String.compare "2024-01-05" "2024-06-01" = Lt
  /\ String.compare "2024-06-01" "2024-03-01" = Gt.
Proof. split_and!; reflexivity. Qed.

(** * Further properties *)

(** ** Sales (sales.ts) *)

Section SaleRoundTrip.
Implicit Types (d : db) (s : sale) (e : env).

Lemma set_sales_same d : set_sales (sales d) (seq_sales d) d = d.
Proof. by destruct d. Qed.

Lemma sales_ids_fresh d :
  sales_wf d -> filter (fun s => sale_id s = seq_sales d + 1) (sales d) = [].
Proof.
  intros [_ Hle]. apply filter_none. eapply Forall_impl; [done|]. simpl. intros; lia.
Qed.

Lemma sales_ids_not_fresh d : sales_wf d -> seq_sales d + 1 ∉ sale_id <$> sales d.
Proof.
  intros [_ Hle] (s & Hs & Hin)%list_elem_of_fmap.
  rewrite Forall_forall in Hle. apply Hle in Hin. lia.
Qed.

End SaleRoundTrip.

(** X1. Recording a sale of whole numbers and then deleting the sale
    that was returned (both on reliable storage) puts the sales table back
    as it was and leaves every customer's total_purchases at its old
    value, provided the buyer's total is a whole number that, with the
    amount of the sale, stays below 2^53 in absolute value. *)
Theorem record_then_delete_restores (e1 e2 : env) (userId : Z) (b : SaleBody.t)
    (d : db) (s : sale) (a : Z) :
  reliable e1 -> reliable e2 -> sales_wf d ->
  request_amount b = Some a ->
  (forall v, purchases_of (num (SaleBody.customerId b)) d = Some v ->
             exists z, integer v = Some z /\ Z.abs z + Z.abs a < 2 ^ 53) ->
  snd (post_sale e1 userId b d) = {| status := 201; json := JSale (Some s) |} ->
  sales (fst (delete_sale_by_id e2 (sale_id s) (fst (post_sale e1 userId b d)))) = sales d
  /\ forall cid,
       purchases_of cid (fst (delete_sale_by_id e2 (sale_id s) (fst (post_sale e1 userId b d))))
       = purchases_of cid d.
Proof.
  intros Hr1 Hr2 Hwf Ha Hwhole. rewrite post_sale_eq.
  destruct (_ || _) eqn:Hreq; [done|]. cbv zeta. rewrite !Hr1.
  apply orb_false_iff in Hreq as [[_ Hq]%orb_false_iff Hp].
  unfold insert_sale. destruct (_ && _ && negb (is_nan (_ * _)%float)); [|done].
  cbn [fst snd sales set_sales set_customers].
  rewrite filter_app, (sales_ids_fresh d Hwf), filter_cons, filter_nil.
  cbn [sale_id app head]. destruct (decide _) as [_|Hne]; [|done].
  cbn [head]. intros [= <-]. cbn [sale_id].
  rewrite delete_sale_by_id_eq, !Hr2.
  cbn [fst snd sales set_sales set_customers].
  rewrite filter_app, (sales_ids_fresh d Hwf), filter_cons, filter_nil.
  cbn [sale_id app head]. destruct (decide _) as [_|Hne]; [|done].
  simpl. split.
  - rewrite filter_app, filter_id_absent by by apply sales_ids_not_fresh.
    rewrite filter_cons, filter_nil. cbn [sale_id].
    destruct (decide _) as [Hne|_]; [done|]. by rewrite app_nil_r.
  - intros cid. unfold purchases_of. simpl.
    set (tot := (number (SaleBody.quantity b) * number (SaleBody.unitPrice b))%float).
    erewrite (purchases_of_map _ (fun v => if decide (cid = num (SaleBody.customerId b))
        then real_column (v - real_column tot)%float else v)).
    + erewrite (purchases_of_map _ (fun v => if decide (cid = num (SaleBody.customerId b))
        then real_column (v + tot)%float else v)).
      * destruct (head _) as [c|] eqn:Hc; [|done]. cbn [fmap option_fmap option_map].
        f_equal. destruct (decide _) as [->|]; [|done].
        destruct (Hwhole (total_purchases c)) as (z & Hz & Hb).
        { unfold purchases_of. by rewrite Hc. }
        apply integer_spec in Hz as [-> Hz]. unfold tot.
        rewrite (request_amount_total b a Ha) by (done || unfold safe; lia).
        rewrite whole_add, !real_column_whole, whole_sub, real_column_whole
          by (unfold safe in *; lia).
        f_equal. lia.
      * intros c. by destruct (decide (customer_id c = _)).
      * intros c Hc. destruct (decide (customer_id c = _)), (decide (cid = _));
          simpl; congruence.
    + intros c. by destruct (decide (customer_id c = _)).
    + intros c Hc. destruct (decide (customer_id c = _)), (decide (cid = _));
        simpl; congruence.
Qed.

Lemma record_then_delete_restores_witness :
  sales (fst (delete_sale_by_id env0 1 db_one_sale)) = sales db1
  /\ forall cid, purchases_of cid (fst (delete_sale_by_id env0 1 db_one_sale))
                 = purchases_of cid db1.
Proof.
  apply (record_then_delete_restores env0 env0 1 (sale_body 10 1000) db1
           {| sale_id := 1; sale_customer_id := 1; sale_date := "2024-06-01";
              sale_type := "eggs"; quantity := 10; unit_price := 1000;
              total_amount := 10000; payment_status := Some "pending";
              payment_method := None; sale_notes := None; sale_recorded_by := 1;
              sale_created_at := 100 |} 10000).
  - intros k. reflexivity.
  - intros k. reflexivity.
  - split; [apply NoDup_nil_2 | apply Forall_nil_2].
  - vm_compute. reflexivity.
  - intros v [= <-]. exists 0. split; [reflexivity|]. reflexivity.
  - reflexivity.
Defined.

Lemma filter_sale_id_absent (l : list sale) (id : Z) :
  id ∉ sale_id <$> l -> filter (fun s => sale_id s = id) l = [].
Proof.
  intros Hid. apply filter_none. apply Forall_forall. intros s Hs Heq.
  apply Hid. apply list_elem_of_fmap. by exists s.
Qed.

Lemma fmap_sale_id_absent (f : sale -> sale) (l : list sale) (id : Z) :
  id ∉ sale_id <$> l ->
  (fun s => if decide (sale_id s = id) then f s else s) <$> l = l.
Proof.
  induction l as [|s l IH]; [done|]. rewrite !fmap_cons, not_elem_of_cons.
  intros [Hs Hl]. rewrite IH by done. by destruct (decide (sale_id s = id)).
Qed.

(** X2. Deleting a sale that does not exist changes nothing, whatever
    statement fails, and on reliable storage it is answered 200 like a
    real deletion: the delete is idempotent. *)
Theorem delete_missing_sale (e : env) (id : Z) (d : db) :
  id ∉ sale_id <$> sales d ->
  fst (delete_sale_by_id e id d) = d
  /\ (reliable e ->
      snd (delete_sale_by_id e id d)
      = {| status := 200; json := JMessage "Sale deleted successfully" |}).
Proof.
  intros Hid. rewrite delete_sale_by_id_eq, filter_sale_id_absent by done. simpl.
  rewrite filter_id_absent, set_sales_same by done.
  split.
  - by destruct (faults e 0%nat), (faults e 2%nat).
  - intros Hrel. by rewrite !Hrel.
Qed.

Lemma delete_missing_sale_witness :
  fst (delete_sale_by_id env_fail1 7 db_one_sale) = db_one_sale
  /\ snd (delete_sale_by_id env0 7 db_one_sale)
     = {| status := 200; json := JMessage "Sale deleted successfully" |}.
Proof.
  split.
  - apply (delete_missing_sale env_fail1 7 db_one_sale).
    apply (bool_decide_unpack _). exact I.
  - apply (delete_missing_sale env0 7 db_one_sale).
    + apply (bool_decide_unpack _). exact I.
    + intros k. reflexivity.
Defined.

(** X3. Updating a sale that does not exist changes nothing and, on
    reliable storage, is answered 200 with no sale in the body: the
    handler has no 404. *)
Theorem put_missing_sale (e : env) (id : Z) (b : SaleUpdate.t) (d : db) :
  id ∉ sale_id <$> sales d ->
  fst (put_sale e id b d) = d
  /\ (reliable e -> snd (put_sale e id b d) = {| status := 200; json := JSale None |}).
Proof.
  intros Hid. rewrite put_sale_eq. unfold update_sale_payment.
  rewrite bool_decide_eq_false_2.
  2: { rewrite Exists_exists. intros (s & Hs & Heq). apply Hid.
       apply list_elem_of_fmap. by exists s. }
  simpl. rewrite fmap_sale_id_absent, set_sales_same by done.
  split.
  - by destruct (faults e 0%nat), (faults e 1%nat).
  - intros Hrel. rewrite !Hrel. by rewrite filter_sale_id_absent.
Qed.

Lemma put_missing_sale_witness :
  fst (put_sale env0 7 paid_update db_one_sale) = db_one_sale
  /\ snd (put_sale env0 7 paid_update db_one_sale) = {| status := 200; json := JSale None |}.
Proof.
  split.
  - apply (put_missing_sale env0 7 paid_update db_one_sale).
    apply (bool_decide_unpack _). exact I.
  - apply (put_missing_sale env0 7 paid_update db_one_sale).
    + apply (bool_decide_unpack _). exact I.
    + intros k. reflexivity.
Defined.

(** X4. Updating an existing sale to a payment status outside pending,
    partial, paid is refused by the table's CHECK: the answer is 500
    "Failed to update sale" and the store is unchanged. *)
Theorem put_sale_rejects_unknown_status (e : env) (id : Z) (b : SaleUpdate.t)
    (d : db) (ps : string) :
  id ∈ sale_id <$> sales d ->
  SaleUpdate.paymentStatus b = Some ps -> ps ∉ payment_statuses ->
  put_sale e id b d = (d, {| status := 500; json := JError "Failed to update sale" |}).
Proof.
  intros (s & Hs & Hin)%list_elem_of_fmap Hps Hbad. rewrite put_sale_eq.
  unfold update_sale_payment, check_in. rewrite Hps.
  rewrite bool_decide_eq_true_2 by (apply Exists_exists; by exists s).
  rewrite (bool_decide_eq_false_2 _ Hbad). simpl.
  by destruct (faults e 0%nat).
Qed.

Lemma put_sale_rejects_unknown_status_witness :
  put_sale env0 1
    {| SaleUpdate.paymentStatus := Some "refunded"; SaleUpdate.paymentMethod := None;
       SaleUpdate.notes := None |} db_one_sale
  = (db_one_sale, {| status := 500; json := JError "Failed to update sale" |}).
Proof.
  apply (put_sale_rejects_unknown_status env0 1 _ db_one_sale "refunded").
  - apply (bool_decide_unpack _). exact I.
  - reflexivity.
  - intros H. exact (bool_decide_pack _ H).
Defined.

Section SummaryFacts.

Lemma sum_Z_cons (x : Z) (l : list Z) : sum_Z (x :: l) = x + sum_Z l.
Proof. reflexivity. Qed.

Lemma sum_Z_indicator_absent (ks : list string) (x : string) (a : Z) :
  x ∉ ks -> sum_Z ((fun k => if decide (x = k) then a else 0) <$> ks) = 0.
Proof.
  induction ks as [|k ks IH]; [done|].
  intros [Hne Hk]%not_elem_of_cons. rewrite fmap_cons, sum_Z_cons, IH by done.
  by destruct (decide (x = k)).
Qed.

Lemma sum_Z_indicator (ks : list string) (x : string) (a : Z) :
  NoDup ks -> x ∈ ks ->
  sum_Z ((fun k => if decide (x = k) then a else 0) <$> ks) = a.
Proof.
  induction 1 as [|k ks Hk Hnd IH]; [by intros ?%not_elem_of_nil|].
  rewrite fmap_cons, sum_Z_cons.
  intros [->|Hin]%elem_of_cons.
  - rewrite sum_Z_indicator_absent by done. destruct (decide (k = k)); [lia|done].
  - rewrite IH by done. destruct (decide (x = k)) as [->|_]; [done|lia].
Qed.

(** Grouping splits a table: the groups' weights add up to the table's. *)
Lemma group_weights (w : sale -> Z) (ks : list string) (l : list sale) :
  NoDup ks -> (forall s, s ∈ l -> sale_type s ∈ ks) ->
  sum_Z ((fun k => sum_Z (w <$> filter (fun s => sale_type s = k) l)) <$> ks)
  = sum_Z (w <$> l).
Proof.
  intros Hnd. induction l as [|s l IH]; intros Hin.
  - clear. induction ks as [|k ks IH]; [done|].
    rewrite fmap_cons, sum_Z_cons, IH. done.
  - rewrite fmap_cons, sum_Z_cons.
    rewrite <- IH by (intros s' Hs'; apply Hin; by right).
    rewrite <- (sum_Z_indicator ks (sale_type s) (w s) Hnd) at 1 by (apply Hin; by left).
    clear. induction ks as [|k ks IHk]; [done|].
    rewrite !fmap_cons, !sum_Z_cons, IHk, filter_cons.
    destruct (decide (sale_type s = k)).
    + rewrite fmap_cons, sum_Z_cons. lia.
    + lia.
Qed.

Lemma insert_asc_perm (x : string) (l : list string) : insert_asc x l ≡ₚ x :: l.
Proof.
  induction l as [|y l IH]; [done|]. simpl.
  destruct (String.leb x y); [done|]. rewrite IH. apply Permutation_swap.
Qed.

Lemma sort_asc_perm (l : list string) : sort_asc l ≡ₚ l.
Proof.
  unfold sort_asc. induction l as [|x l IH]; [done|].
  simpl. by rewrite insert_asc_perm, IH.
Qed.

Lemma sale_types_listed (l : list sale) (t : string) :
  t ∈ sort_asc (remove_dups (sale_type <$> l)) <-> t ∈ sale_type <$> l.
Proof. by rewrite sort_asc_perm, elem_of_remove_dups. Qed.

Lemma sale_types_distinct (l : list sale) : NoDup (sort_asc (remove_dups (sale_type <$> l))).
Proof. rewrite sort_asc_perm. apply NoDup_remove_dups. Qed.

End SummaryFacts.

(** Two sales of manure around one of eggs are reported as the group of
    eggs, then the group of manure. *)
Example sales_summary_groups :
  let sold (ty : string) (amount : float) :=
    {| sale_id := 1; sale_customer_id := 1; sale_date := "2024-06-01"; sale_type := ty;
       quantity := 1; unit_price := amount; total_amount := amount;
       payment_status := Some "paid"; payment_method := None; sale_notes := None;
       sale_recorded_by := 1; sale_created_at := 100 |} in
  group_by_sale_type (foldr PrimFloat.add 0%float)
    [sold "manure" 5000%float; sold "eggs" 15000%float; sold "manure" 7000%float]
  = [("eggs", 15000%float, 1); ("manure", 12000%float, 2)].
Proof. reflexivity. Qed.

(** X5. The sales summary on reliable storage leaves the store as it is
    and reports one salesByType row for each sale type that occurs among
    the sales, none twice; the count of a row is the number of sales of
    its type and its total is SQLite's SUM over their amounts; the counts
    add up to the number of sales. *)
Theorem sales_summary_adds_up (sql_date sql_month : string -> option string)
    (today this_month : string) (sql_total : list float -> float) (e : env) (d : db) :
  reliable e ->
  exists totalSales todaySales monthSales pendingPayments salesByType,
    get_sales_summary sql_date sql_month today this_month sql_total e d
    = (d, {| code := 200;
             content := PSalesSummary totalSales todaySales monthSales
                          pendingPayments salesByType |})
    /\ sum_Z ((fun r => r.2) <$> salesByType) = Z.of_nat (length (sales d))
    /\ NoDup ((fun r => r.1.1) <$> salesByType)
    /\ (forall t, t ∈ (fun r => r.1.1) <$> salesByType <-> t ∈ sale_type <$> sales d)
    /\ (forall t x n,
          (t, x, n) ∈ salesByType ->
          x = sql_total (total_amount <$> filter (fun s => sale_type s = t) (sales d))
          /\ n = Z.of_nat (length (filter (fun s => sale_type s = t) (sales d)))).
Proof.
  intros Hrel. eexists _, _, _, _, (group_by_sale_type sql_total (sales d)). split_and!.
  - unfold get_sales_summary, try_catch_reply, bind, run, ret. rewrite !Hrel. reflexivity.
  - unfold group_by_sale_type. rewrite <- list_fmap_compose.
    transitivity (sum_Z ((fun _ => 1) <$> sales d)).
    + rewrite <- (group_weights (fun _ => 1) (sort_asc (remove_dups (sale_type <$> sales d)))
                    (sales d)).
      * f_equal. apply list_fmap_ext. intros _ k _. simpl.
        generalize (filter (fun s => sale_type s = k) (sales d)). intros l.
        induction l as [|x l IH]; [done|].
        rewrite fmap_cons, sum_Z_cons, <- IH. simpl length. lia.
      * apply sale_types_distinct.
      * intros s Hs. apply sale_types_listed, list_elem_of_fmap. by exists s.
    + generalize (sales d). intros l. induction l as [|x l IH]; [done|].
      rewrite fmap_cons, sum_Z_cons, IH. simpl length. lia.
  - unfold group_by_sale_type. rewrite <- list_fmap_compose.
    apply NoDup_fmap_2_strong; [|apply sale_types_distinct].
    intros x y _ _ H. exact H.
  - intros t. unfold group_by_sale_type. rewrite <- list_fmap_compose.
    rewrite <- sale_types_listed. rewrite list_elem_of_fmap. split.
    + by intros (k & -> & Hk).
    + intros Ht. by exists t.
  - intros t x n (k & [= -> -> ->] & _)%list_elem_of_fmap. done.
Qed.

Lemma sales_summary_adds_up_witness :
  exists totalSales todaySales monthSales pendingPayments salesByType,
    get_sales_summary (fun x => Some x) (fun x => Some (String.substring 0 7 x))
      "2024-06-01" "2024-06" (foldr PrimFloat.add 0%float) env0 db_one_sale
    = (db_one_sale,
       {| code := 200;
          content := PSalesSummary totalSales todaySales monthSales
                       pendingPayments salesByType |})
    /\ sum_Z ((fun r => r.2) <$> salesByType) = Z.of_nat (length (sales db_one_sale))
    /\ NoDup ((fun r => r.1.1) <$> salesByType)
    /\ (forall t, t ∈ (fun r => r.1.1) <$> salesByType <-> t ∈ sale_type <$> sales db_one_sale)
    /\ (forall t x n,
          (t, x, n) ∈ salesByType ->
          x = foldr PrimFloat.add 0%float
                (total_amount <$> filter (fun s => sale_type s = t) (sales db_one_sale))
          /\ n = Z.of_nat (length (filter (fun s => sale_type s = t) (sales db_one_sale)))).
Proof.
  apply (sales_summary_adds_up (fun x => Some x) (fun x => Some (String.substring 0 7 x))
           "2024-06-01" "2024-06" (foldr PrimFloat.add 0%float) env0 db_one_sale).
  intros k. reflexivity.
Defined.

(** ** Poultry (poultry.ts) *)

Section PoultryMore.
Implicit Types (d : db) (s : store) (e : env) (x : poultry_batch).

Lemma put_batch_eq e id b d :
  put_batch e id b d =
  if faults e 0%nat then (d, server_error "Failed to update batch")
  else match update_batch (now e) b id d with
       | None => (d, server_error "Failed to update batch")
       | Some (_, d1) =>
           if faults e 1%nat then (d1, server_error "Failed to update batch")
           else (d1, {| status := 200;
                        json := JBatch (head (filter (fun x => batch_id x = id)
                                                (poultry_batches d1))) |})
       end.
Proof.
  unfold put_batch, try_catch, bind, run, ret, server_error.
  destruct (faults e 0%nat); [done|].
  destruct (update_batch _ _ _ _) as [[[] d1]|]; [|done].
  by destruct (faults e 1%nat).
Qed.

Lemma post_batch_batches e u b d :
  batches_step (poultry_batches d) (poultry_batches (fst (post_batch e u b d))).
Proof.
  rewrite post_batch_eq. destruct (_ || _); [constructor|].
  destruct (faults e 0%nat); [constructor|].
  unfold insert_batch. destruct (references _ _ _ && _); [|constructor].
  destruct (faults e 1%nat); simpl; apply batches_appended.
Qed.

Lemma put_batch_batches e id b d :
  batches_step (poultry_batches d) (poultry_batches (fst (put_batch e id b d))).
Proof.
  rewrite put_batch_eq. destruct (faults e 0%nat); [constructor|].
  unfold update_batch. destruct (_ && _); [constructor|].
  destruct (faults e 1%nat); simpl;
    apply batches_rewritten; intros x; by destruct (decide _).
Qed.

Lemma post_health_batches e u b d :
  batches_step (poultry_batches d) (poultry_batches (fst (post_health e u b d))).
Proof.
  rewrite post_health_eq. destruct (_ || _); [constructor|].
  destruct (faults e 0%nat); [constructor|].
  unfold insert_health. destruct (_ && _ && check_in _ _); [|constructor]. cbv zeta.
  destruct (negb _ && _).
  - destruct (faults e 1%nat); [constructor|].
    unfold decrease_current_count. destruct (bool_decide _); [constructor|].
    destruct (faults e 2%nat); simpl;
      apply batches_rewritten; intros x; by destruct (decide _).
  - destruct (faults e 2%nat); constructor.
Qed.

Lemma post_egg_eq e u b s :
  post_egg e u b s =
  if falsy_num (EggBody.batchId b) || falsy_str (EggBody.date b)
     || negb (bool_decide (is_Some (EggBody.eggsCollected b)))
  then (s, {| code := 400; content := PError "Batch ID, date, and eggs collected are required" |})
  else if faults e 0%nat
  then (s, {| code := 500; content := PError "Failed to create egg record" |})
  else match insert_egg (now e) (num (EggBody.batchId b)) (str (EggBody.date b))
               (num (EggBody.eggsCollected b)) (num_or (EggBody.brokenEggs b) 0)
               (str_or_null (EggBody.notes b)) u s with
       | None => (s, {| code := 500; content := PError "Failed to create egg record" |})
       | Some (id, s1) =>
           if faults e 1%nat
           then (s1, {| code := 500; content := PError "Failed to create egg record" |})
           else (s1, {| code := 201;
                        content := PEgg (head (filter (fun r => egg_id r = id)
                                                 (egg_production (core s1)))) |})
       end.
Proof.
  unfold post_egg, try_catch_on, bind_on, run_on, ret_on.
  destruct (_ || _); [done|].
  destruct (faults e 0%nat); [done|].
  destruct (insert_egg _ _ _ _ _ _ _ s) as [[id s1]|]; [|done].
  by destruct (faults e 1%nat).
Qed.

Lemma post_feed_eq e u b s :
  post_feed e u b s =
  if falsy_num (FeedBody.batchId b) || falsy_str (FeedBody.date b)
     || falsy_str (FeedBody.feedType b) || falsy_num (FeedBody.quantityKg b)
  then (s, {| code := 400;
              content := PError "Batch ID, date, feed type, and quantity are required" |})
  else if faults e 0%nat
  then (s, {| code := 500; content := PError "Failed to create feed record" |})
  else match insert_feed (now e) (num (FeedBody.batchId b)) (str (FeedBody.date b))
               (str (FeedBody.feedType b)) (num (FeedBody.quantityKg b))
               (num_or_null (FeedBody.cost b)) (str_or_null (FeedBody.supplier b))
               (str_or_null (FeedBody.notes b)) u s with
       | None => (s, {| code := 500; content := PError "Failed to create feed record" |})
       | Some (id, s1) =>
           if faults e 1%nat
           then (s1, {| code := 500; content := PError "Failed to create feed record" |})
           else (s1, {| code := 201;
                        content := PFeed (head (filter (fun r => feed_id r = id)
                                                  (feed_records s1))) |})
       end.
Proof.
  unfold post_feed, try_catch_on, bind_on, run_on, ret_on.
  destruct (_ || _); [done|].
  destruct (faults e 0%nat); [done|].
  destruct (insert_feed _ _ _ _ _ _ _ _ _ s) as [[id s1]|]; [|done].
  by destruct (faults e 1%nat).
Qed.

Lemma poultry_step_batches s op :
  batches_step (poultry_batches (core s)) (poultry_batches (core (poultry_step s op))).
Proof.
  destruct op as [e u b|e id b|e u b|e u b|e u b]; simpl.
  - apply post_batch_batches.
  - apply put_batch_batches.
  - rewrite post_egg_eq. destruct (_ || _); [constructor|].
    destruct (faults e 0%nat); [constructor|].
    unfold insert_egg. destruct (_ && _); [|constructor].
    destruct (faults e 1%nat); constructor.
  - rewrite post_feed_eq. destruct (_ || _); [constructor|].
    destruct (faults e 0%nat); [constructor|].
    unfold insert_feed. destruct (_ && _); [|constructor].
    destruct (faults e 1%nat); constructor.
  - apply post_health_batches.
Qed.

Lemma initial_of_batches_step bid (n : float) (l l' : list poultry_batch) :
  batches_step l l' ->
  initial_count <$> head (filter (fun x => batch_id x = bid) l) = Some n ->
  initial_count <$> head (filter (fun x => batch_id x = bid) l') = Some n.
Proof.
  intros [|f Hid Hinit|x]; [done| |].
  - clear l'. induction l as [|x l IH]; [done|].
    rewrite fmap_cons, !filter_cons, Hid.
    destruct (decide (batch_id x = bid)); simpl; [by rewrite Hinit|done].
  - rewrite filter_app. destruct (filter _ l); [done|]. done.
Qed.

End PoultryMore.

(** X6. initial_count is write-once: once a batch exists, no sequence of
    poultry requests (create batch, update batch, egg, feed and health
    records, whatever statement of them fails) changes its
    initial_count. *)
Theorem initial_count_write_once (s : store) (ops : list poultry_op) (bid : Z) (n : float) :
  initial_of bid (core s) = Some n ->
  initial_of bid (core (run_poultry_ops ops s)) = Some n.
Proof.
  revert s. induction ops as [|op ops IH]; intros s Hn; [done|].
  simpl. apply IH. unfold initial_of in *.
  by eapply initial_of_batches_step; [apply poultry_step_batches|].
Qed.

Lemma initial_count_write_once_witness :
  initial_of 1 (core (run_poultry_ops
     [RecordHealth env0 1 (health_body 5); UpdateBatch env0 1 (batch_update 80);
      RecordEggs env0 1 (egg_body 120); CreateBatch env0 1 (batch_body 40)]
     store_one_batch)) = Some 500%float.
Proof.
  apply (initial_count_write_once store_one_batch _ 1 500). reflexivity.
Defined.

Section PoultryRefs.
Implicit Types (d : db) (s : store) (e : env) (x : poultry_batch).

Lemma batches_step_ids (l l' : list poultry_batch) (id : Z) :
  batches_step l l' -> id ∈ batch_id <$> l -> id ∈ batch_id <$> l'.
Proof.
  intros [|f Hid _|x] Hin; [done| |].
  - apply list_elem_of_fmap in Hin as (y & -> & Hy).
    apply list_elem_of_fmap. exists (f y). split; [by rewrite Hid|].
    apply list_elem_of_fmap. by exists y.
  - rewrite fmap_app. apply elem_of_app. by left.
Qed.

Lemma references_enforced d (ids : list Z) (id : Z) :
  foreign_keys d = true -> references d ids id = true -> id ∈ ids.
Proof.
  unfold references. intros ->. simpl. apply bool_decide_eq_true_1.
Qed.

(** What a request of poultry.ts can do to a table of records: nothing, or
    append one record that passed the foreign-key check. *)
Lemma health_records_step s op :
  foreign_keys (core s) = true ->
  health_records (core (poultry_step s op)) = health_records (core s)
  \/ exists h, health_records (core (poultry_step s op)) = (health_records (core s) ++ [h])%list
               /\ health_batch_id h ∈ batch_id <$> poultry_batches (core s).
Proof.
  intros Hfk. destruct op as [e u b|e id b|e u b|e u b|e u b]; simpl.
  - left. rewrite post_batch_eq. destruct (_ || _); [done|].
    destruct (faults e 0%nat); [done|].
    unfold insert_batch. destruct (references _ _ _ && _); [|done].
    by destruct (faults e 1%nat).
  - left. rewrite put_batch_eq. destruct (faults e 0%nat); [done|].
    unfold update_batch. destruct (_ && _); [done|]. by destruct (faults e 1%nat).
  - left. rewrite post_egg_eq. destruct (_ || _); [done|].
    destruct (faults e 0%nat); [done|].
    unfold insert_egg. destruct (_ && _); [|done]. by destruct (faults e 1%nat).
  - left. rewrite post_feed_eq. destruct (_ || _); [done|].
    destruct (faults e 0%nat); [done|].
    unfold insert_feed. destruct (_ && _); [|done]. by destruct (faults e 1%nat).
  - rewrite post_health_eq. destruct (_ || _); [by left|].
    destruct (faults e 0%nat); [by left|].
    unfold insert_health.
    destruct (references (core s) (batch_id <$> _) _) eqn:Href; [|by left].
    destruct (references (core s) (users _) _); [|by left].
    destruct (check_in _ _); [|by left]. simpl.
    right. eexists. split.
    { destruct (negb _ && _).
      + destruct (faults e 1%nat); [done|].
        unfold decrease_current_count. destruct (bool_decide _); [done|].
        by destruct (faults e 2%nat).
      + by destruct (faults e 2%nat). }
    simpl. by apply (references_enforced (core s)).
Qed.

Lemma egg_production_step s op :
  foreign_keys (core s) = true ->
  egg_production (core (poultry_step s op)) = egg_production (core s)
  \/ exists r, egg_production (core (poultry_step s op)) = (egg_production (core s) ++ [r])%list
               /\ egg_batch_id r ∈ batch_id <$> poultry_batches (core s).
Proof.
  intros Hfk. destruct op as [e u b|e id b|e u b|e u b|e u b]; simpl.
  - left. rewrite post_batch_eq. destruct (_ || _); [done|].
    destruct (faults e 0%nat); [done|].
    unfold insert_batch. destruct (references _ _ _ && _); [|done].
    by destruct (faults e 1%nat).
  - left. rewrite put_batch_eq. destruct (faults e 0%nat); [done|].
    unfold update_batch. destruct (_ && _); [done|]. by destruct (faults e 1%nat).
  - rewrite post_egg_eq. destruct (_ || _); [by left|].
    destruct (faults e 0%nat); [by left|].
    unfold insert_egg.
    destruct (references (core s) (batch_id <$> _) _) eqn:Href; [|by left].
    destruct (references (core s) (users _) _); [|by left]. simpl.
    right. eexists. split; [by destruct (faults e 1%nat)|].
    simpl. by apply (references_enforced (core s)).
  - left. rewrite post_feed_eq. destruct (_ || _); [done|].
    destruct (faults e 0%nat); [done|].
    unfold insert_feed. destruct (_ && _); [|done]. by destruct (faults e 1%nat).
  - left. rewrite post_health_eq. destruct (_ || _); [done|].
    destruct (faults e 0%nat); [done|].
    unfold insert_health. destruct (_ && _ && check_in _ _); [|done]. cbv zeta.
    destruct (negb _ && _).
    + destruct (faults e 1%nat); [done|].
      unfold decrease_current_count. destruct (bool_decide _); [done|].
      by destruct (faults e 2%nat).
    + by destruct (faults e 2%nat).
Qed.

Lemma feed_records_step s op :
  foreign_keys (core s) = true ->
  feed_records (poultry_step s op) = feed_records s
  \/ exists r, feed_records (poultry_step s op) = (feed_records s ++ [r])%list
               /\ feed_batch_id r ∈ batch_id <$> poultry_batches (core s).
Proof.
  intros Hfk. destruct op as [e u b|e id b|e u b|e u b|e u b]; simpl;
    [by left|by left| | |by left].
  - left. rewrite post_egg_eq. destruct (_ || _); [done|].
    destruct (faults e 0%nat); [done|].
    unfold insert_egg. destruct (_ && _); [|done]. by destruct (faults e 1%nat).
  - rewrite post_feed_eq. destruct (_ || _); [by left|].
    destruct (faults e 0%nat); [by left|].
    unfold insert_feed.
    destruct (references (core s) (batch_id <$> _) _) eqn:Href; [|by left].
    destruct (references (core s) (users _) _); [|by left]. simpl.
    right. eexists. split; [by destruct (faults e 1%nat)|].
    simpl. by apply (references_enforced (core s)).
Qed.

Lemma foreign_keys_step s op :
  foreign_keys (core (poultry_step s op)) = foreign_keys (core s).
Proof.
  destruct op as [e u b|e id b|e u b|e u b|e u b]; simpl.
  - rewrite post_batch_eq. destruct (_ || _); [done|].
    destruct (faults e 0%nat); [done|].
    unfold insert_batch. destruct (references _ _ _ && _); [|done].
    by destruct (faults e 1%nat).
  - rewrite put_batch_eq. destruct (faults e 0%nat); [done|].
    unfold update_batch. destruct (_ && _); [done|]. by destruct (faults e 1%nat).
  - rewrite post_egg_eq. destruct (_ || _); [done|].
    destruct (faults e 0%nat); [done|].
    unfold insert_egg. destruct (_ && _); [|done]. by destruct (faults e 1%nat).
  - rewrite post_feed_eq. destruct (_ || _); [done|].
    destruct (faults e 0%nat); [done|].
    unfold insert_feed. destruct (_ && _); [|done]. by destruct (faults e 1%nat).
  - rewrite post_health_eq. destruct (_ || _); [done|].
    destruct (faults e 0%nat); [done|].
    unfold insert_health. destruct (_ && _ && check_in _ _); [|done]. cbv zeta.
    destruct (negb _ && _).
    + destruct (faults e 1%nat); [done|].
      unfold decrease_current_count. destruct (bool_decide _); [done|].
      by destruct (faults e 2%nat).
    + by destruct (faults e 2%nat).
Qed.

Lemma refs_extend {A} (key : A -> Z) (l l' : list A) (bs bs' : list poultry_batch) :
  batches_step bs bs' ->
  Forall (fun r => key r ∈ batch_id <$> bs) l ->
  (l' = l \/ exists r, l' = (l ++ [r])%list /\ key r ∈ batch_id <$> bs) ->
  Forall (fun r => key r ∈ batch_id <$> bs') l'.
Proof.
  intros Hstep Hl [->|(r & -> & Hr)].
  - eapply Forall_impl; [done|]. intros r. by apply batches_step_ids.
  - apply Forall_app. split.
    + eapply Forall_impl; [done|]. intros r'. by apply batches_step_ids.
    + apply Forall_singleton. by apply (batches_step_ids bs).
Qed.

Lemma poultry_refs_ok_step s op :
  foreign_keys (core s) = true -> poultry_refs_ok s -> poultry_refs_ok (poultry_step s op).
Proof.
  intros Hfk (Hh & He & Hf). pose proof (poultry_step_batches s op) as Hb.
  split_and!.
  - by apply (refs_extend _ _ _ _ _ Hb Hh), health_records_step.
  - by apply (refs_extend _ _ _ _ _ Hb He), egg_production_step.
  - by apply (refs_extend _ _ _ _ _ Hb Hf), feed_records_step.
Qed.

End PoultryRefs.

(** X7. Referential integrity of poultry records: with foreign keys
    enforced, after any sequence of poultry requests (whatever statement
    of them fails) every health, egg and feed record still points to a
    batch that exists; a record for an unknown batch is never stored. *)
Theorem poultry_records_reference_batches (s : store) (ops : list poultry_op) :
  foreign_keys (core s) = true -> poultry_refs_ok s ->
  poultry_refs_ok (run_poultry_ops ops s).
Proof.
  revert s. induction ops as [|op ops IH]; intros s Hfk Hok; [done|].
  simpl. apply IH; [by rewrite foreign_keys_step | by apply poultry_refs_ok_step].
Qed.

Lemma poultry_records_reference_batches_witness :
  poultry_refs_ok (run_poultry_ops
     [RecordHealth env0 1 (health_body 5); RecordEggs env_fail1 1 (egg_body 120);
      RecordFeed env0 1 (feed_body 25)] store_one_batch).
Proof.
  apply (poultry_records_reference_batches store_one_batch).
  - reflexivity.
  - split_and!; apply Forall_nil_2.
Defined.

Lemma head_filter_batch_exists (l : list poultry_batch) (id : Z) :
  id ∈ batch_id <$> l -> is_Some (head (filter (fun x => batch_id x = id) l)).
Proof.
  intros (x & Hx & Hin)%list_elem_of_fmap.
  assert (x ∈ filter (fun x => batch_id x = id) l) as Hf by by apply list_elem_of_filter.
  destruct (filter _ l); [by apply not_elem_of_nil in Hf|]. by eexists.
Qed.

(** X8. The batch update is an override: on reliable storage, a complete
    update of an existing batch sets current_count to the number sent
    (as the INTEGER column keeps it: -0 becomes 0), whatever deaths were
    recorded, and touches no health record. *)
Theorem put_batch_overrides_count (e : env) (id : Z) (b : BatchUpdate.t) (d : db)
    (c : float) :
  reliable e ->
  id ∈ batch_id <$> poultry_batches d ->
  batch_update_admissible b = true ->
  BatchUpdate.currentCount b = Some c ->
  count_of id (fst (put_batch e id b d)) = Some (integer_column c)
  /\ health_records (fst (put_batch e id b d)) = health_records d.
Proof.
  intros Hrel Hid Hadm Hc. rewrite put_batch_eq, !Hrel.
  unfold update_batch. rewrite Hadm, andb_false_r. simpl. split; [|done].
  unfold count_of. simpl.
  rewrite (count_of_map _ (fun _ => integer_column c)).
  - by destruct (head_filter_batch_exists _ _ Hid) as [x ->].
  - intros x. by destruct (decide _).
  - intros x Hx. destruct (decide _); [|done]. simpl. by rewrite Hc.
Qed.

Lemma put_batch_overrides_count_witness :
  count_of 1 (fst (put_batch env0 1 (batch_update 500)
                     (fst (post_health env0 1 (health_body 5) (core store_one_batch)))))
  = Some 500%float
  /\ sum_mortality <$> Some (health_records
       (fst (put_batch env0 1 (batch_update 500)
               (fst (post_health env0 1 (health_body 5) (core store_one_batch))))))
     = Some 5.
Proof.
  destruct (put_batch_overrides_count env0 1 (batch_update 500)
              (fst (post_health env0 1 (health_body 5) (core store_one_batch))) 500)
    as [Hc Hh].
  - intros k. reflexivity.
  - apply (bool_decide_unpack _). exact I.
  - reflexivity.
  - reflexivity.
  - split; [exact Hc|]. rewrite Hh. reflexivity.
Defined.

(** X9. No partial batch update: a PUT for an existing batch that leaves
    out batchName, birdType or currentCount is answered 500 "Failed to
    update batch" and changes nothing (the columns are NOT NULL). *)
Theorem put_batch_needs_all_fields (e : env) (id : Z) (b : BatchUpdate.t) (d : db) :
  id ∈ batch_id <$> poultry_batches d ->
  BatchUpdate.batchName b = None \/ BatchUpdate.birdType b = None
  \/ BatchUpdate.currentCount b = None ->
  put_batch e id b d = (d, {| status := 500; json := JError "Failed to update batch" |}).
Proof.
  intros (x & Hx & Hin)%list_elem_of_fmap Hmiss. rewrite put_batch_eq.
  unfold update_batch.
  rewrite bool_decide_eq_true_2 by (apply Exists_exists; by exists x).
  assert (batch_update_admissible b = false) as ->.
  { unfold batch_update_admissible.
    destruct Hmiss as [-> | [-> | ->]]; simpl;
      rewrite ?andb_false_r; reflexivity. }
  by destruct (faults e 0%nat).
Qed.

Lemma put_batch_needs_all_fields_witness :
  put_batch env0 1
    {| BatchUpdate.batchName := None; BatchUpdate.birdType := None;
       BatchUpdate.currentCount := Some 480%float; BatchUpdate.status := None;
       BatchUpdate.notes := None |} (core store_one_batch)
  = (core store_one_batch, {| status := 500; json := JError "Failed to update batch" |}).
Proof.
  apply (put_batch_needs_all_fields env0 1 _ (core store_one_batch)).
  - apply (bool_decide_unpack _). exact I.
  - left. reflexivity.
Defined.



(** ** Orders (orders.ts) *)

Section OrderInvariants.
Implicit Types (d : db) (o : order) (e : env).

Lemma json_item_valid (item : OrderItem.t) :
  finite_item item -> item_invalid item = false -> item_invalid (json_item item) = false.
Proof.
  intros [Hq _]. unfold item_invalid, json_item. simpl.
  destruct (OrderItem.quantity item) as [q|]; simpl; [|by rewrite orb_true_r].
  unfold json_number. rewrite finite_not_nan, finite_not_infinity by done. simpl.
  intros H. apply orb_false_iff in H as [[Hprod Hfalsy]%orb_false_iff Hlt].
  unfold falsy_float in Hfalsy. apply orb_false_iff in Hfalsy as [Hzero Hnan].
  rewrite Hzero. simpl. unfold falsy_float. by rewrite Hprod, Hzero, Hnan, Hlt.
Qed.

Lemma json_item_kept (item : OrderItem.t) :
  item_invalid item = false -> item_kept (json_item item).
Proof.
  unfold item_invalid. intros H.
  apply orb_false_iff in H as [[Hprod Hfalsy]%orb_false_iff Hlt].
  destruct (OrderItem.quantity item) as [q|] eqn:Hq; [|done]. simpl in *.
  unfold falsy_float in Hfalsy. apply orb_false_iff in Hfalsy as [Hzero Hnan].
  unfold item_kept, item_invalid, json_item. simpl. rewrite Hq. simpl.
  unfold json_number. rewrite Hnan. simpl.
  destruct (is_infinity q); [by right|]. left. simpl.
  rewrite Hzero. simpl. unfold falsy_float. by rewrite Hprod, Hzero, Hnan, Hlt.
Qed.

Lemma post_order_change e b d : orders_change d (orders (fst (post_order e b d))).
Proof.
  rewrite post_order_eq.
  destruct (falsy_str (OrderBody.customerName b) || falsy_str (OrderBody.customerPhone b))
    eqn:Hname; simpl; [constructor|].
  destruct (OrderBody.items b) as [items|]; [|constructor].
  destruct (bool_decide (length items = 0%nat)) eqn:Hlen; [constructor|]. simpl.
  destruct (existsb item_invalid items) eqn:Hinv; [constructor|].
  destruct (faults e 0%nat); [constructor|].
  unfold insert_order. destruct (bool_decide (_ ∈ _)) eqn:Hnum; [constructor|].
  destruct (is_nan _); [constructor|]. cbn [orb].
  assert (orders_change d (orders (set_orders (orders d ++ [
     {| order_id := seq_orders d + 1; order_number := generateOrderNumber e;
        order_customer_name := str (OrderBody.customerName b);
        order_customer_email := str_or_null (OrderBody.customerEmail b);
        order_customer_phone := str (OrderBody.customerPhone b);
        delivery_address := str_or_null (OrderBody.deliveryAddress b);
        order_items := json_item <$> items;
        order_total_amount := real_column (items_total items);
        order_notes := str_or_null (OrderBody.notes b); order_status := "new";
        order_created_at := now e; order_updated_at := now e |} ])
     (seq_orders d + 1) d))) as Hnew.
  { simpl. apply orders_placed; simpl.
    - by apply (bool_decide_eq_false_1 _).
    - done.
    - split; simpl.
      + apply (bool_decide_eq_false_1 _) in Hlen. by destruct items.
      + apply Forall_fmap, Forall_forall. intros item Hitem. simpl.
        apply json_item_kept.
        destruct (item_invalid item) eqn:Hi; [|done].
        assert (existsb item_invalid items = true) as Hex; [|congruence].
        apply existsb_exists. exists item. split; [by apply list_elem_of_In|done]. }
  destruct (faults e 1%nat); [done|]. by destruct (head _).
Qed.

(** Placing an order of finite numbers stores the items as they passed
    the checks. *)
Lemma order_step_items_valid d op :
  finite_order op -> Forall order_items_valid (orders d) ->
  Forall order_items_valid (orders (order_step d op)).
Proof.
  intros Hfin Hok. destruct op as [e b|e id st|e id]; simpl.
  - rewrite post_order_eq.
    destruct (falsy_str (OrderBody.customerName b) || falsy_str (OrderBody.customerPhone b))
      eqn:Hname; simpl; [done|].
    simpl in Hfin.
    destruct (OrderBody.items b) as [items|]; [|done].
    destruct (bool_decide (length items = 0%nat)) eqn:Hlen; [done|]. simpl in *.
    destruct (existsb item_invalid items) eqn:Hinv; [done|].
    destruct (faults e 0%nat); [done|].
    unfold insert_order. destruct (_ || is_nan _); [done|].
    assert (forall o', order_items o' = json_item <$> items ->
              Forall order_items_valid (orders d ++ [o'])) as Hnew.
    { intros o' Ho'. apply Forall_app. split; [done|]. apply Forall_singleton.
      unfold order_items_valid. rewrite Ho'. split.
      - apply (bool_decide_eq_false_1 _) in Hlen. by destruct items.
      - apply Forall_fmap, Forall_forall. intros item Hitem. simpl.
        rewrite Forall_forall in Hfin. apply json_item_valid; [by apply Hfin|].
        destruct (item_invalid item) eqn:Hi; [|done].
        assert (existsb item_invalid items = true) as Hex; [|congruence].
        apply existsb_exists. exists item. split; [by apply list_elem_of_In|done]. }
    destruct (faults e 1%nat); simpl; [by apply Hnew|].
    destruct (head _); simpl; by apply Hnew.
  - rewrite put_order_status_eq. destruct (_ || _); [done|].
    destruct (faults e 0%nat); [done|]. cbv zeta.
    assert (Forall order_items_valid
              ((fun o => if decide (order_id o = id) then with_status (str st) (now e) o else o)
                 <$> orders d)) as Hupd.
    { apply Forall_fmap. eapply Forall_impl; [done|]. intros x Hx. simpl.
      by destruct (decide _). }
    destruct (faults e 1%nat); [done|]. by destruct (head _).
  - rewrite delete_order_by_id_eq. destruct (faults e 0%nat); [done|].
    destruct (head _); [|done]. destruct (faults e 1%nat); [done|]. simpl.
    rewrite Forall_forall in *. intros x [_ Hx]%list_elem_of_filter. by apply Hok.
Qed.

Lemma put_order_status_change e id st d :
  orders_change d (orders (fst (put_order_status e id st d))).
Proof.
  rewrite put_order_status_eq.
  destruct (falsy_str st) eqn:Hf; [constructor|]. simpl.
  destruct (bool_decide (str st ∈ validStatuses)) eqn:Hv; [|constructor]. simpl.
  apply (bool_decide_eq_true_1 _) in Hv.
  destruct (faults e 0%nat); [constructor|]. cbv zeta.
  destruct (faults e 1%nat); [by apply orders_restatused|].
  destruct (head _); by apply orders_restatused.
Qed.

Lemma delete_order_change e id d :
  orders_change d (orders (fst (delete_order_by_id e id d))).
Proof.
  rewrite delete_order_by_id_eq. destruct (faults e 0%nat); [constructor|].
  destruct (head _); [|constructor]. destruct (faults e 1%nat); constructor.
Qed.

Lemma order_step_change d op : orders_change d (orders (order_step d op)).
Proof.
  destruct op; simpl;
    [apply post_order_change | apply put_order_status_change | apply delete_order_change].
Qed.

End OrderInvariants.

(** X11. Order numbers stay pairwise distinct over every sequence of
    place, status-update and delete requests (whatever statement of them
    fails): the UNIQUE constraint, not the generator, is what keeps them
    apart. *)
Theorem order_numbers_stay_distinct (d : db) (ops : list order_op) :
  NoDup (order_number <$> orders d) ->
  NoDup (order_number <$> orders (run_order_ops ops d)).
Proof.
  revert d. induction ops as [|op ops IH]; intros d Hnd; [done|].
  simpl. apply IH.
  destruct (order_step_change d op) as [|o Hnum _ _|st t id _|id].
  - done.
  - rewrite fmap_app. apply NoDup_app. split_and!; [done| |apply NoDup_singleton].
    intros x Hx ->%list_elem_of_singleton. done.
  - rewrite <- list_fmap_compose.
    erewrite list_fmap_ext; [exact Hnd|]. intros _ o _. simpl. by destruct (decide _).
  - eapply sublist_NoDup; [done|]. apply fmap_sublist, sublist_filter.
Qed.

Lemma order_numbers_stay_distinct_witness :
  NoDup (order_number <$> orders (run_order_ops
     [PlaceOrder env0 (order_body [eggs_tray 2]); PlaceOrder env0 (order_body [eggs_tray 3])]
     db1)).
Proof.
  apply (order_numbers_stay_distinct db1). apply NoDup_nil_2.
Defined.

(** X12. No retry on a collision: when the generated order number is
    already taken, a valid order placed on reliable storage is answered
    500 "Failed to place order" and nothing is stored. *)
Theorem place_order_collision (e : env) (b : OrderBody.t) (d : db) :
  generateOrderNumber e ∈ order_number <$> orders d ->
  fst (post_order e b d) = d
  /\ (reliable e -> status (snd (post_order e b d)) <> 400%nat ->
      snd (post_order e b d) = {| status := 500; json := JError "Failed to place order" |}).
Proof.
  intros Hin. rewrite post_order_eq.
  destruct (_ || _); [done|]. cbv zeta.
  destruct (existsb _ _); [done|].
  unfold insert_order. rewrite (bool_decide_eq_true_2 _ Hin). cbn [orb].
  split; [by destruct (faults e 0%nat)|].
  intros Hrel _. by rewrite Hrel.
Qed.

Lemma place_order_collision_witness :
  post_order env0 (order_body [eggs_tray 3]) db_one_order
  = (db_one_order, {| status := 500; json := JError "Failed to place order" |}).
Proof.
  destruct (place_order_collision env0 (order_body [eggs_tray 3]) db_one_order) as [Hd Hr].
  - apply (bool_decide_unpack _). exact I.
  - rewrite (surjective_pairing (post_order _ _ _)), Hd, Hr; [reflexivity| |].
    + intros k. reflexivity.
    + discriminate.
Defined.

(** X13. Every stored order has one of the five valid statuses, after
    every sequence of place, status-update and delete requests; a newly
    placed order starts as new: a PlaceOrder answered 201 appends one
    order to the table, and its status is new. *)
Theorem order_statuses_stay_valid (d : db) (ops : list order_op) :
  Forall (fun o => order_status o ∈ validStatuses) (orders d) ->
  Forall (fun o => order_status o ∈ validStatuses) (orders (run_order_ops ops d))
  /\ (forall e b d',
        status (snd (post_order e b d')) = 201%nat ->
        exists o, orders (fst (post_order e b d')) = (orders d' ++ [o])%list
                  /\ order_status o = "new").
Proof.
  intros Hok. split.
  - revert d Hok. induction ops as [|op ops IH]; intros d Hok; [done|].
    simpl. apply IH.
    destruct (order_step_change d op) as [|o _ Hst _|st t id Hst|id].
    + done.
    + apply Forall_app. split; [done|]. apply Forall_singleton. rewrite Hst.
      apply (bool_decide_unpack _). exact I.
    + apply Forall_fmap. eapply Forall_impl; [done|]. intros o Ho. simpl.
      by destruct (decide _).
    + rewrite Forall_forall in *. intros o [_ Ho]%list_elem_of_filter. by apply Hok.
  - intros e b d'. rewrite post_order_eq.
    destruct (_ || _); [done|]. cbv zeta.
    destruct (existsb _ _); [done|].
    destruct (faults e 0%nat); [done|].
    unfold insert_order. destruct (_ || is_nan _); [done|].
    destruct (faults e 1%nat); [done|]. destruct (head _); [|done].
    intros _. simpl. by eexists.
Qed.

Lemma order_statuses_stay_valid_witness :
  Forall (fun o => order_status o ∈ validStatuses)
    (orders (run_order_ops
       [PlaceOrder env0 (order_body [eggs_tray 2]); UpdateStatus env0 1 (Some "delivered");
        UpdateStatus env0 1 (Some "returned")] db1))
  /\ order_status <$> orders (fst (post_order env0 (order_body [eggs_tray 2]) db1)) = ["new"].
Proof.
  destruct (order_statuses_stay_valid db1
              [PlaceOrder env0 (order_body [eggs_tray 2]);
               UpdateStatus env0 1 (Some "delivered");
               UpdateStatus env0 1 (Some "returned")]) as [Hall Hnew].
  - apply Forall_nil_2.
  - split; [exact Hall|].
    destruct (Hnew env0 (order_body [eggs_tray 2]) db1) as (o & -> & Ho); [reflexivity|].
    simpl. by rewrite Ho.
Defined.

(** X14. Every stored order has at least one item, and each of its items
    has a product and a quantity of at least 1, after every sequence of
    place, status-update and delete requests of finite numbers: an order
    with no items, or with an item of quantity 0 or less, is never
    stored. Whatever the numbers, every stored item has a product and a
    quantity that is at least 1 or null (what the JSON text makes of an
    infinite one). *)
Theorem order_items_stay_valid (d : db) (ops : list order_op) :
  (Forall finite_order ops -> Forall order_items_valid (orders d) ->
   Forall order_items_valid (orders (run_order_ops ops d)))
  /\ (Forall order_items_kept (orders d) ->
      Forall order_items_kept (orders (run_order_ops ops d))).
Proof.
  split.
  - intros Hfin. revert d. induction Hfin as [|op ops Hop _ IH]; intros d Hok; [done|].
    simpl. by apply IH, order_step_items_valid.
  - revert d. induction ops as [|op ops IH]; intros d Hok; [done|].
    simpl. apply IH.
    destruct (order_step_change d op) as [|o _ _ Hitems|st t id _|id].
    + done.
    + apply Forall_app. split; [done|]. by apply Forall_singleton.
    + apply Forall_fmap. eapply Forall_impl; [done|]. intros o Ho. simpl.
      by destruct (decide _).
    + rewrite Forall_forall in *. intros o [_ Ho]%list_elem_of_filter. by apply Hok.
Qed.

Lemma order_items_stay_valid_witness :
  Forall order_items_valid
    (orders (run_order_ops
       [PlaceOrder env0 (order_body [eggs_tray 2]); PlaceOrder env0 (order_body []);
        PlaceOrder env0 (order_body [eggs_tray (-1)])] db1)).
Proof.
  apply (order_items_stay_valid db1).
  - repeat apply Forall_cons_2; try apply Forall_nil_2; simpl;
      repeat apply Forall_cons_2; try apply Forall_nil_2; split; reflexivity.
  - apply Forall_nil_2.
Defined.

(** X15. The operator notification is best effort: the answer of
    PlaceOrder and the store it leaves do not depend on whether
    sendOrderEmail rejects, nor on a failure of the settings lookup that
    precedes it. *)
Theorem order_notification_best_effort (e e' : env) (b : OrderBody.t) (d : db) :
  faults e 0%nat = faults e' 0%nat -> faults e 1%nat = faults e' 1%nat ->
  now e = now e' -> date_now e = date_now e' -> random e = random e' ->
  post_order e b d = post_order e' b d.
Proof.
  intros H0 H1 Hnow Hdate Hrand. rewrite !post_order_eq.
  unfold generateOrderNumber. by rewrite H0, H1, Hnow, Hdate, Hrand.
Qed.

Lemma order_notification_best_effort_witness :
  post_order
    {| faults := fun k => bool_decide (k = 2%nat); now := 100; date_now := 1700000000000%N;
       random := (2 ^ 52)%N; email_fails := true |} (order_body [eggs_tray 2]) db1
  = post_order env0 (order_body [eggs_tray 2]) db1.
Proof.
  apply (order_notification_best_effort _ env0); reflexivity.
Defined.

Section OrderListing.
Implicit Types (d : db) (o : order) (e : env).

Lemma set_orders_same d : set_orders (orders d) (seq_orders d) d = d.
Proof. by destruct d. Qed.

Lemma filter_order_id_absent (l : list order) (id : Z) :
  id ∉ order_id <$> l -> filter (fun o => order_id o = id) l = [].
Proof.
  intros Hid. apply filter_none. apply Forall_forall. intros o Ho Heq.
  apply Hid. apply list_elem_of_fmap. by exists o.
Qed.

Lemma head_filter_order_exists (l : list order) (id : Z) :
  id ∈ order_id <$> l -> is_Some (head (filter (fun o => order_id o = id) l)).
Proof.
  intros (x & Hx & Hin)%list_elem_of_fmap.
  assert (x ∈ filter (fun o => order_id o = id) l) as Hf by by apply list_elem_of_filter.
  destruct (filter _ l); [by apply not_elem_of_nil in Hf|]. by eexists.
Qed.

Lemma get_order_eq e id d :
  get_order e id d =
  if faults e 0%nat then (d, {| code := 500; content := PError "Failed to fetch order" |})
  else match head (filter (fun o => order_id o = id) (orders d)) with
       | None => (d, {| code := 404; content := PError "Order not found" |})
       | Some o => (d, {| code := 200; content := POrder o |})
       end.
Proof.
  unfold get_order, try_catch_reply, bind, run, ret.
  destruct (faults e 0%nat); [done|]. simpl. by destruct (head _).
Qed.

Lemma insert_desc_perm {A} (key : A -> Z) (x : A) (l : list A) :
  insert_desc key x l ≡ₚ x :: l.
Proof.
  induction l as [|y l IH]; [done|]. simpl.
  destruct (key y <=? key x); [done|]. rewrite IH. apply Permutation_swap.
Qed.

Lemma order_by_desc_perm {A} (key : A -> Z) (l : list A) : order_by_desc key l ≡ₚ l.
Proof.
  unfold order_by_desc. induction l as [|x l IH]; [done|].
  simpl. by rewrite insert_desc_perm, IH.
Qed.

Lemma insert_desc_descending {A} (key : A -> Z) (x : A) (l : list A) :
  descending key l -> descending key (insert_desc key x l).
Proof.
  induction l as [|y l IH]; [done|]. simpl. intros [Hy Hl].
  destruct (key y <=? key x) eqn:Hle.
  - apply Z.leb_le in Hle. simpl. split_and!; [|done..].
    apply Forall_cons. split; [done|].
    eapply Forall_impl; [done|]. simpl. intros; lia.
  - apply Z.leb_gt in Hle. simpl. split; [|by apply IH].
    rewrite insert_desc_perm. apply Forall_cons. split; [lia|done].
Qed.

Lemma order_by_desc_descending {A} (key : A -> Z) (l : list A) :
  descending key (order_by_desc key l).
Proof.
  unfold order_by_desc. induction l as [|x l IH]; [done|].
  simpl. by apply insert_desc_descending.
Qed.

End OrderListing.

(** X16. Deleting an order that does not exist changes nothing, and on
    reliable storage it is answered 404 "Order not found" (unlike sales,
    where the same request is answered 200). *)
Theorem delete_missing_order (e : env) (id : Z) (d : db) :
  id ∉ order_id <$> orders d ->
  fst (delete_order_by_id e id d) = d
  /\ (reliable e ->
      snd (delete_order_by_id e id d) = {| status := 404; json := JError "Order not found" |}).
Proof.
  intros Hid. rewrite delete_order_by_id_eq, filter_order_id_absent by done. simpl.
  split; [by destruct (faults e 0%nat)|]. intros Hrel. by rewrite Hrel.
Qed.

Lemma delete_missing_order_witness :
  delete_order_by_id env0 9 db_one_order
  = (db_one_order, {| status := 404; json := JError "Order not found" |}).
Proof.
  destruct (delete_missing_order env0 9 db_one_order) as [Hd Hr].
  - intros H. exact (bool_decide_pack _ H).
  - rewrite (surjective_pairing (delete_order_by_id _ _ _)), Hd, Hr; [reflexivity|].
    intros k. reflexivity.
Defined.

(** X17. On reliable storage, deleting an existing order is answered 200,
    the order can no longer be fetched (GET answers 404), every other
    order is still there, and no customer's total_purchases moves. *)
Theorem delete_order_removes (e e' : env) (id : Z) (d : db) :
  reliable e -> reliable e' ->
  id ∈ order_id <$> orders d ->
  snd (delete_order_by_id e id d)
    = {| status := 200; json := JMessage "Order deleted successfully" |}
  /\ snd (get_order e' id (fst (delete_order_by_id e id d)))
     = {| code := 404; content := PError "Order not found" |}
  /\ orders (fst (delete_order_by_id e id d)) = filter (fun o => order_id o <> id) (orders d)
  /\ customers (fst (delete_order_by_id e id d)) = customers d.
Proof.
  intros Hrel Hrel' Hid. rewrite delete_order_by_id_eq, !Hrel.
  destruct (head_filter_order_exists _ _ Hid) as [o ->]. simpl.
  split_and!; [done| |done..].
  rewrite get_order_eq, Hrel'. simpl.
  rewrite filter_order_id_absent; [done|].
  intros (x & Hx & [Hne _]%list_elem_of_filter)%list_elem_of_fmap. done.
Qed.

Lemma delete_order_removes_witness :
  snd (delete_order_by_id env0 1 db_one_order)
    = {| status := 200; json := JMessage "Order deleted successfully" |}
  /\ snd (get_order env0 1 (fst (delete_order_by_id env0 1 db_one_order)))
     = {| code := 404; content := PError "Order not found" |}
  /\ orders (fst (delete_order_by_id env0 1 db_one_order))
     = filter (fun o => order_id o <> 1) (orders db_one_order)
  /\ customers (fst (delete_order_by_id env0 1 db_one_order)) = customers db_one_order.
Proof.
  apply (delete_order_removes env0 env0 1 db_one_order).
  - intros k. reflexivity.
  - intros k. reflexivity.
  - apply (bool_decide_unpack _). exact I.
Defined.

(** X18. The order listing, on reliable storage: with a status other than
    "all" it returns exactly the orders in that status, without one (or
    with "all") it returns every order; either way each order once, newest
    first by created_at. *)
Theorem get_orders_newest_first (e : env) (status : option string) (d : db) :
  reliable e ->
  exists l,
    get_orders e status d = (d, {| code := 200; content := POrders l |})
    /\ l ≡ₚ orders_asked_for status d
    /\ descending order_created_at l.
Proof.
  intros Hrel. unfold get_orders, try_catch_reply, bind, run, ret. rewrite Hrel. simpl.
  eexists. split; [reflexivity|]. split; [|apply order_by_desc_descending].
  rewrite order_by_desc_perm. unfold orders_asked_for.
  destruct status as [st|]; [|done].
  destruct (decide (st = "" \/ st = "all")) as [[-> | ->]|Hn]; [done..|].
  unfold falsy_str. destruct (decide (st = "")) as [->|_]; [destruct Hn; by left|].
  rewrite bool_decide_eq_false_2; [done|].
  intros [= ->]. destruct Hn. by right.
Qed.

Lemma get_orders_newest_first_witness :
  exists l,
    get_orders env0 (Some "new") db_one_order
    = (db_one_order, {| code := 200; content := POrders l |})
    /\ l ≡ₚ orders_asked_for (Some "new") db_one_order
    /\ descending order_created_at l.
Proof.
  apply (get_orders_newest_first env0 (Some "new") db_one_order).
  intros k. reflexivity.
Defined.

(** X19. The new-order counter follows placement: on reliable storage,
    after an order has been placed (201) the count of new orders is one
    more than before. *)
Theorem new_order_count_after_place (e e1 e2 : env) (b : OrderBody.t) (d : db) :
  reliable e1 -> reliable e2 ->
  status (snd (post_order e b d)) = 201%nat ->
  exists n,
    snd (get_new_order_count e1 d) = {| code := 200; content := PCount n |}
    /\ snd (get_new_order_count e2 (fst (post_order e b d)))
       = {| code := 200; content := PCount (n + 1) |}.
Proof.
  intros Hr1 Hr2. unfold get_new_order_count, try_catch_reply, bind, run, ret.
  rewrite Hr1, Hr2. simpl. rewrite post_order_eq.
  destruct (_ || _); [done|]. cbv zeta.
  destruct (existsb _ _); [done|].
  destruct (faults e 0%nat); [done|].
  unfold insert_order. destruct (bool_decide _ || is_nan _); [done|].
  destruct (faults e 1%nat); [done|]. simpl.
  destruct (head _); [|done]. simpl. intros _.
  eexists. split; [reflexivity|].
  rewrite filter_app, length_app, filter_cons, filter_nil. simpl.
  do 2 f_equal. lia.
Qed.

Lemma new_order_count_after_place_witness :
  exists n,
    snd (get_new_order_count env0 db1) = {| code := 200; content := PCount n |}
    /\ snd (get_new_order_count env0 (fst (post_order env0 (order_body [eggs_tray 2]) db1)))
       = {| code := 200; content := PCount (n + 1) |}.
Proof.
  apply (new_order_count_after_place env0 env0 env0 (order_body [eggs_tray 2]) db1).
  - intros k. reflexivity.
  - intros k. reflexivity.
  - reflexivity.
Defined.

(** ** The recent-activity feed (dashboard.ts) *)

(** X20. The feed is read-only and capped: whatever fails, the store is
    unchanged; on reliable storage, with no limit, limit 0 or a positive
    limit below 2^63, the answer is 200 with at most limit rows (20 by
    default); a limit of 2^63 or more is refused by SQLite, and the
    answer is 500. *)
Theorem activities_capped (Date_parse : string -> option Z) (e : env)
    (limit_query : option Z) (d : db) :
  fst (get_activities Date_parse e limit_query d) = d
  /\ (reliable e -> 0 <= num_or limit_query 20 < 2 ^ 63 ->
      exists rows,
        snd (get_activities Date_parse e limit_query d)
        = {| status := 200; json := JActivities rows |}
        /\ (length rows <= Z.to_nat (num_or limit_query 20))%nat)
  /\ (reliable e -> 2 ^ 63 <= num_or limit_query 20 ->
      snd (get_activities Date_parse e limit_query d)
      = {| status := 500; json := JError "Failed to fetch activities" |}).
Proof.
  split_and!.
  - unfold get_activities, try_catch, bind, run, ret, select_recent_eggs,
      select_recent_sales, select_recent_health.
    by destruct (faults e 0%nat), (faults e 1%nat), (faults e 2%nat),
      (limit_admissible (num_or limit_query 20)).
  - intros Hrel Hpos.
    destruct (get_activities_unsorted Date_parse e limit_query d Hrel)
      as (eggs & sales & health & _ & _ & _ & ->).
    { unfold limit_admissible. apply andb_true_iff. split; apply Z.ltb_lt; lia. }
    eexists. split; [reflexivity|]. unfold js_slice0.
    destruct (num_or limit_query 20 <? 0) eqn:Hneg; [apply Z.ltb_lt in Hneg; lia|].
    rewrite length_take. lia.
  - intros Hrel Hbig.
    unfold get_activities, try_catch, bind, run, ret, select_recent_eggs. rewrite Hrel.
    assert (limit_admissible (num_or limit_query 20) = false) as ->; [|done].
    unfold limit_admissible. apply andb_false_iff. right. apply Z.ltb_ge. lia.
Qed.

Lemma activities_capped_witness :
  (exists rows,
     snd (get_activities (fun _ => None) env0 (Some 2) db_feed)
     = {| status := 200; json := JActivities rows |}
     /\ (length rows <= Z.to_nat (num_or (Some 2%Z) 20%Z))%nat)
  /\ snd (get_activities (fun _ => None) env0 (Some (2 ^ 63)) db_feed)
     = {| status := 500; json := JError "Failed to fetch activities" |}.
Proof.
  split.
  - apply (activities_capped (fun _ => None) env0 (Some 2) db_feed).
    + intros k. reflexivity.
    + simpl. lia.
  - apply (activities_capped (fun _ => None) env0 (Some (2 ^ 63)) db_feed).
    + intros k. reflexivity.
    + simpl. lia.
Defined.

(** ** Customers (customers.ts) *)

Section CustomerFacts.
Implicit Types (d : db) (s : store) (e : env) (c : customer).

Lemma post_customer_eq e u b s :
  post_customer e u b s =
  if falsy_str (CustomerBody.name b) || falsy_str (CustomerBody.phone b)
  then (s, {| code := 400; content := PError "Name and phone are required" |})
  else if faults e 0%nat
  then (s, {| code := 500; content := PError "Failed to create customer" |})
  else match insert_customer (now e) (str (CustomerBody.name b))
               (str_or_null (CustomerBody.email b)) (str (CustomerBody.phone b))
               (str_or_null (CustomerBody.address b)) (str_or_null (CustomerBody.notes b))
               u s with
       | None => (s, {| code := 500; content := PError "Failed to create customer" |})
       | Some (id, s1) =>
           if faults e 1%nat
           then (s1, {| code := 500; content := PError "Failed to create customer" |})
           else (s1, {| code := 201;
                        content := PCustomer (head (filter (fun c => customer_id c = id)
                                                      (customers (core s1)))) |})
       end.
Proof.
  unfold post_customer, try_catch_on, bind_on, run_on, ret_on.
  destruct (_ || _); [done|].
  destruct (faults e 0%nat); [done|].
  destruct (insert_customer _ _ _ _ _ _ _ s) as [[id s1]|]; [|done].
  by destruct (faults e 1%nat).
Qed.

Lemma put_customer_eq e id b d :
  put_customer e id b d =
  if faults e 0%nat then (d, {| code := 500; content := PError "Failed to update customer" |})
  else match update_customer (now e) b id d with
       | None => (d, {| code := 500; content := PError "Failed to update customer" |})
       | Some (_, d1) =>
           if faults e 1%nat
           then (d1, {| code := 500; content := PError "Failed to update customer" |})
           else (d1, {| code := 200;
                        content := PCustomer (head (filter (fun c => customer_id c = id)
                                                      (customers d1))) |})
       end.
Proof.
  unfold put_customer, try_catch_reply, bind, run, ret.
  destruct (faults e 0%nat); [done|].
  destruct (update_customer _ _ _ _) as [[[] d1]|]; [|done].
  by destruct (faults e 1%nat).
Qed.

Lemma delete_customer_by_id_eq e id d :
  delete_customer_by_id e id d =
  if faults e 0%nat then (d, {| code := 500; content := PError "Failed to delete customer" |})
  else match delete_customer id d with
       | None => (d, {| code := 500; content := PError "Failed to delete customer" |})
       | Some (_, d1) => (d1, {| code := 200; content := PMessage "Customer deleted successfully" |})
       end.
Proof.
  unfold delete_customer_by_id, try_catch_reply, bind, run, ret.
  destruct (faults e 0%nat); [done|].
  by destruct (delete_customer _ _) as [[[] d1]|].
Qed.

End CustomerFacts.

(** X21. A created customer starts the ledger: when POST /api/customers
    answers 201, the returned customer has total_purchases 0, is stored
    under a fresh id, and no sale references it, which is the state the
    ledger invariant starts from. *)
Theorem post_customer_starts_at_zero (e : env) (userId : Z) (b : CustomerBody.t)
    (s : store) (c : customer) :
  Forall (fun x => customer_id x <= seq_customers s) (customers (core s)) ->
  Forall (fun x => sale_customer_id x <= seq_customers s) (sales (core s)) ->
  snd (post_customer e userId b s) = {| code := 201; content := PCustomer (Some c) |} ->
  customer_id c = seq_customers s + 1
  /\ purchases_of (customer_id c) (core (fst (post_customer e userId b s))) = Some 0%float
  /\ sales_of (customer_id c) (core (fst (post_customer e userId b s))) = []
  /\ ledger_ok (customer_id c) (core (fst (post_customer e userId b s))).
Proof.
  intros Hc Hs. rewrite post_customer_eq. destruct (_ || _); [done|].
  destruct (faults e 0%nat); [done|].
  unfold insert_customer. destruct (references _ _ _); [|done].
  destruct (faults e 1%nat); [done|]. simpl.
  assert (Hold : filter (fun x => customer_id x = seq_customers s + 1) (customers (core s)) = []).
  { apply filter_none. eapply Forall_impl; [done|]. simpl. intros; lia. }
  rewrite filter_app, Hold, filter_cons, filter_nil. simpl.
  destruct (decide _); [|done]. simpl. intros [= <-]. simpl.
  assert (Hnone : filter (fun x => sale_customer_id x = seq_customers s + 1) (sales (core s)) = []).
  { apply filter_none. eapply Forall_impl; [done|]. simpl. intros; lia. }
  unfold ledger_ok, purchases_of, sales_of. simpl.
  rewrite filter_app, Hold, filter_cons, filter_nil, Hnone. simpl.
  destruct (decide _); [|done]. simpl. split_and!; [done..|]. by exists 0%float, 0.
Qed.

Lemma post_customer_starts_at_zero_witness :
  purchases_of 2 (core (fst (post_customer env0 1 (customer_body "Brian") store_one_sale)))
  = Some 0%float
  /\ ledger_ok 2 (core (fst (post_customer env0 1 (customer_body "Brian") store_one_sale))).
Proof.
  destruct (post_customer_starts_at_zero env0 1 (customer_body "Brian") store_one_sale
    {| customer_id := 2; customer_name := "Brian"; customer_email := None;
       customer_phone := "0722222222"; customer_address := None; customer_notes := None;
       total_purchases := 0; customer_created_by := 1; customer_created_at := 100;
       customer_updated_at := 100 |}) as (_ & Hp & _ & Hl).
  - apply Forall_cons_2; [simpl; lia|apply Forall_nil_2].
  - apply Forall_cons_2; [simpl; lia|apply Forall_nil_2].
  - reflexivity.
  - split; [exact Hp|exact Hl].
Defined.

(** X22. Frame of customer update: PUT /api/customers/:id never changes a
    total_purchases or a sale, whatever statement fails, so it keeps the
    ledger equation of every customer. *)
Theorem put_customer_frame (e : env) (id : Z) (b : CustomerBody.t) (d : db) :
  sales (fst (put_customer e id b d)) = sales d
  /\ (forall cid, purchases_of cid (fst (put_customer e id b d)) = purchases_of cid d)
  /\ (forall cid, ledger_ok cid d -> ledger_ok cid (fst (put_customer e id b d))).
Proof.
  assert (fst (put_customer e id b d) = d
          \/ fst (put_customer e id b d)
             = set_customers ((fun c => if decide (customer_id c = id)
                                        then with_customer_update b (now e) c else c)
                                <$> customers d) d) as [-> | ->].
  { rewrite put_customer_eq. destruct (faults e 0%nat); [by left|].
    unfold update_customer. destruct (_ && _); [by left|].
    right. by destruct (faults e 1%nat). }
  { done. }
  assert (forall cid, purchases_of cid (set_customers
            ((fun c => if decide (customer_id c = id)
                       then with_customer_update b (now e) c else c) <$> customers d) d)
          = purchases_of cid d) as Hsame.
  { intros cid. unfold purchases_of. simpl.
    rewrite (purchases_of_map _ (fun v => v)).
    - by destruct (head _).
    - intros c. by destruct (decide _).
    - intros c _. by destruct (decide _). }
  split_and!; [done|done|].
  intros cid Hok. unfold ledger_ok in *. by rewrite Hsame.
Qed.

Lemma put_customer_frame_witness :
  purchases_of 1 (fst (put_customer env0 1 (customer_body "Amina K.") db_one_sale))
  = Some 10000%float
  /\ ledger_ok 1 (fst (put_customer env0 1 (customer_body "Amina K.") db_one_sale)).
Proof.
  destruct (put_customer_frame env0 1 (customer_body "Amina K.") db_one_sale)
    as (_ & Hp & Hl).
  split; [rewrite Hp; reflexivity|]. apply Hl.
  exists 10000%float, (10000 * 2 ^ 1074). split_and!; reflexivity.
Defined.

(** X23. A customer with sales cannot be deleted while foreign keys are
    enforced: the request is answered 500 "Failed to delete customer" and
    the store is unchanged. *)
Theorem delete_customer_with_sales (e : env) (id : Z) (d : db) :
  foreign_keys d = true ->
  id ∈ customer_id <$> customers d ->
  id ∈ sale_customer_id <$> sales d ->
  delete_customer_by_id e id d
  = (d, {| code := 500; content := PError "Failed to delete customer" |}).
Proof.
  intros Hfk (c & Hc & Hcin)%list_elem_of_fmap (s & Hs & Hsin)%list_elem_of_fmap.
  rewrite delete_customer_by_id_eq. unfold delete_customer. rewrite Hfk.
  rewrite !bool_decide_eq_true_2 by (apply Exists_exists; eauto). simpl.
  by destruct (faults e 0%nat).
Qed.

Lemma delete_customer_with_sales_witness :
  delete_customer_by_id env0 1 db_one_sale
  = (db_one_sale, {| code := 500; content := PError "Failed to delete customer" |}).
Proof.
  apply (delete_customer_with_sales env0 1 db_one_sale).
  - reflexivity.
  - apply (bool_decide_unpack _). exact I.
  - apply (bool_decide_unpack _). exact I.
Defined.

Section SalesRefs.
Implicit Types (d : db) (e : env) (c : customer).

Lemma sales_refs_weaken (cs cs' : list customer) (l : list sale) :
  (forall s, s ∈ l -> sale_customer_id s ∈ customer_id <$> cs ->
             sale_customer_id s ∈ customer_id <$> cs') ->
  Forall (fun s => sale_customer_id s ∈ customer_id <$> cs) l ->
  Forall (fun s => sale_customer_id s ∈ customer_id <$> cs') l.
Proof.
  rewrite !Forall_forall. intros Hmono Hl s Hs. apply Hmono; [done|]. by apply Hl.
Qed.

Lemma customer_ids_rewritten (f : customer -> customer) (cs : list customer) :
  (forall c, customer_id (f c) = customer_id c) ->
  customer_id <$> (f <$> cs) = customer_id <$> cs.
Proof.
  intros Hid. rewrite <- list_fmap_compose. apply list_fmap_ext. intros _ c _. apply Hid.
Qed.

Lemma sales_refs_rewritten (f : customer -> customer) d :
  (forall c, customer_id (f c) = customer_id c) ->
  sales_refs_ok d -> sales_refs_ok (set_customers (f <$> customers d) d).
Proof.
  intros Hid Hok. unfold sales_refs_ok in *. simpl. by rewrite customer_ids_rewritten.
Qed.

Lemma sale_step_refs d op :
  foreign_keys d = true -> sales_refs_ok d ->
  sales_refs_ok (sale_step d op) /\ foreign_keys (sale_step d op) = true.
Proof.
  intros Hfk Hok. destruct op as [[e u b|e id]|e id b]; simpl.
  - rewrite post_sale_eq. destruct (_ || _); [done|]. cbv zeta.
    destruct (faults e 0%nat); [done|].
    unfold insert_sale.
    destruct (_ && _ && negb (is_nan (_ * _)%float)) eqn:Hguard; [|done].
    do 6 apply andb_true_iff in Hguard as [Hguard _].
    apply (references_enforced d) in Hguard; [|done].
    match goal with |- context [(sales d ++ [?x])%list] => set (s0 := x) end.
    assert (Forall (fun s => sale_customer_id s ∈ customer_id <$> customers d)
              (sales d ++ [s0])) as Hnew.
    { apply Forall_app. split; [done|]. by apply Forall_singleton. }
    destruct (faults e 1%nat); [done|].
    assert (forall f : customer -> customer,
              (forall c, customer_id (f c) = customer_id c) ->
              sales_refs_ok (set_customers (f <$> customers d)
                               (set_sales (sales d ++ [s0]) (seq_sales d + 1) d))) as Hboth.
    { intros f Hf. by apply (sales_refs_rewritten _ (set_sales _ _ d)). }
    destruct (faults e 2%nat);
      (split; [apply Hboth; intros c; by destruct (decide _)|done]).
  - rewrite delete_sale_by_id_eq. destruct (faults e 0%nat); [done|].
    assert (Hfilter : forall cs : list customer,
              Forall (fun s => sale_customer_id s ∈ customer_id <$> cs) (sales d) ->
              Forall (fun s => sale_customer_id s ∈ customer_id <$> cs)
                     (filter (fun s => sale_id s <> id) (sales d))).
    { intros cs. rewrite !Forall_forall. intros H s [_ Hs]%list_elem_of_filter. by apply H. }
    destruct (head _) as [x|].
    + destruct (faults e 1%nat); [done|]. cbv zeta.
      assert (sales_refs_ok (set_customers
        ((fun c => if decide (customer_id c = sale_customer_id x)
                   then with_total_purchases
                          (real_column (total_purchases c - total_amount x)%float) (now e) c
                   else c) <$> customers d) d)) as Hdec.
      { apply sales_refs_rewritten; [|done]. intros c. by destruct (decide _). }
      destruct (faults e 2%nat); [done|]. split; [|done].
      unfold sales_refs_ok in *. simpl in *. by apply Hfilter.
    + destruct (faults e 2%nat); [done|]. split; [|done].
      unfold sales_refs_ok in *. simpl. by apply Hfilter.
  - destruct (put_sale_db e id b d) as [-> | ->]; [done|]. split; [|done].
    unfold sales_refs_ok in *. simpl. apply Forall_fmap.
    eapply Forall_impl; [done|]. intros s Hs. simpl. by destruct (decide _).
Qed.

Lemma customer_step_refs (s : store) op :
  foreign_keys (core s) = true -> sales_refs_ok (core s) ->
  sales_refs_ok (core (customer_step s op))
  /\ foreign_keys (core (customer_step s op)) = true.
Proof.
  intros Hfk Hok. destruct op as [e u b|e id b|e id|op]; simpl.
  - rewrite post_customer_eq. destruct (_ || _); [done|].
    destruct (faults e 0%nat); [done|].
    unfold insert_customer. destruct (references _ _ _); [|done].
    assert (sales_refs_ok (set_customers (customers (core s) ++
       [ {| customer_id := seq_customers s + 1;
            customer_name := str (CustomerBody.name b);
            customer_email := str_or_null (CustomerBody.email b);
            customer_phone := str (CustomerBody.phone b);
            customer_address := str_or_null (CustomerBody.address b);
            customer_notes := str_or_null (CustomerBody.notes b);
            total_purchases := 0; customer_created_by := u;
            customer_created_at := now e; customer_updated_at := now e |} ]) (core s)))
      as Hnew.
    { unfold sales_refs_ok in *. simpl. eapply sales_refs_weaken; [|done].
      intros x _ Hx. rewrite fmap_app. apply elem_of_app. by left. }
    by destruct (faults e 1%nat).
  - rewrite put_customer_eq. destruct (faults e 0%nat); [done|].
    unfold update_customer. destruct (_ && _); [done|].
    assert (sales_refs_ok (set_customers
      ((fun c => if decide (customer_id c = id) then with_customer_update b (now e) c else c)
         <$> customers (core s)) (core s))) as Hupd.
    { apply sales_refs_rewritten; [|done]. intros c. by destruct (decide _). }
    by destruct (faults e 1%nat).
  - rewrite delete_customer_by_id_eq. destruct (faults e 0%nat); [done|].
    unfold delete_customer. rewrite Hfk. simpl.
    destruct (bool_decide (Exists (fun c => customer_id c = id) (customers (core s)))) eqn:Hc;
      destruct (bool_decide (Exists (fun x => sale_customer_id x = id) (sales (core s)))) eqn:Hs;
      simpl; [done|..]; (split; [|done]).
    + apply (bool_decide_eq_false_1 _) in Hs.
      unfold sales_refs_ok in *. simpl. eapply sales_refs_weaken; [|done].
      intros x Hx (c & Hcx & Hcin)%list_elem_of_fmap.
      apply list_elem_of_fmap. exists c. split; [done|].
      apply list_elem_of_filter. split; [|done].
      intros Heq. apply Hs. apply Exists_exists. exists x. split; [done|]. congruence.
    + apply (bool_decide_eq_false_1 _) in Hc.
      unfold sales_refs_ok in *. simpl. eapply sales_refs_weaken; [|done].
      intros x Hx (c & Hcx & Hcin)%list_elem_of_fmap.
      apply list_elem_of_fmap. exists c. split; [done|].
      apply list_elem_of_filter. split; [|done].
      intros Heq. apply Hc. apply Exists_exists. by exists c.
    + apply (bool_decide_eq_false_1 _) in Hc.
      unfold sales_refs_ok in *. simpl. eapply sales_refs_weaken; [|done].
      intros x Hx (c & Hcx & Hcin)%list_elem_of_fmap.
      apply list_elem_of_fmap. exists c. split; [done|].
      apply list_elem_of_filter. split; [|done].
      intros Heq. apply Hc. apply Exists_exists. by exists c.
  - by apply sale_step_refs.
Qed.

End SalesRefs.

(** X24. Referential integrity of sales: with foreign keys enforced,
    after any sequence of customer requests (create, update, delete) and
    sale requests (record, update, delete), whatever statement of them
    fails, every sale still points to a customer that exists. *)
Theorem sales_reference_customers (s : store) (ops : list customer_op) :
  foreign_keys (core s) = true -> sales_refs_ok (core s) ->
  sales_refs_ok (core (run_customer_ops ops s)).
Proof.
  revert s. induction ops as [|op ops IH]; intros s Hfk Hok; [done|].
  simpl. destruct (customer_step_refs s op Hfk Hok) as [Hok' Hfk']. by apply IH.
Qed.

Lemma sales_reference_customers_witness :
  sales_refs_ok (core (run_customer_ops
    [CreateCustomer env0 1 (customer_body "Brian");
     SaleRequest (Ledger (RecordSale env0 1 (sale_body 10 1000)));
     DeleteCustomer env0 1; DeleteCustomer env0 2] store1)).
Proof.
  apply (sales_reference_customers store1).
  - reflexivity.
  - apply Forall_nil_2.
Defined.

(** ** Authentication and roles (middleware/auth.ts) *)

Section AuthFacts.
Variable jwt_verify : string -> option jwt_user.

Lemma employeeMiddleware_next (u : jwt_user) :
  employeeMiddleware (Some u) = None <-> role u = "employee" \/ role u = "admin".
Proof.
  unfold employeeMiddleware.
  destruct (decide (role u = "employee")) as [He|He];
    destruct (decide (role u = "admin")) as [Ha|Ha].
  - rewrite !bool_decide_eq_true_2 by done. simpl. split; [by left|done].
  - rewrite bool_decide_eq_true_2, bool_decide_eq_false_2 by done. simpl.
    split; [by left|done].
  - rewrite bool_decide_eq_false_2, bool_decide_eq_true_2 by done. simpl.
    split; [by right|done].
  - rewrite !bool_decide_eq_false_2 by done. simpl. split; [done|by intros [|]].
Qed.

End AuthFacts.

(** X25. The guard of the employee routes (sales, poultry, expenses,
    dashboard): a request reaches the handler only when its token verifies
    to a user whose role is exactly employee or admin; every other request
    leaves the store untouched and is answered 401 or 403. Whatever
    adminMiddleware lets through, employeeMiddleware lets through. *)
Theorem employee_route_guard (jwt_verify : string -> option jwt_user)
    (cookie authorization : option string)
    (handler : jwt_user -> db -> db * response) (d : db) :
  (fst (employee_route jwt_verify cookie authorization handler d) = d
   /\ (status (snd (employee_route jwt_verify cookie authorization handler d)) = 401%nat
       \/ status (snd (employee_route jwt_verify cookie authorization handler d)) = 403%nat)
   \/ exists token user,
        request_token cookie authorization = Some token /\ token <> ""
        /\ jwt_verify token = Some user
        /\ (role user = "employee" \/ role user = "admin")
        /\ employee_route jwt_verify cookie authorization handler d = handler user d)
  /\ (forall user, adminMiddleware user = None -> employeeMiddleware user = None).
Proof.
  split.
  - unfold employee_route, authMiddleware.
    destruct (request_token cookie authorization) as [token|] eqn:Htok; simpl; [|left; by split; [|left]].
    destruct (decide (token = "")) as [->|Hne]; [left; by split; [|left]|]. simpl.
    destruct (jwt_verify token) as [user|] eqn:Hv; [|left; by split; [|left]].
    destruct (negb (bool_decide (role user = "employee"))
              && negb (bool_decide (role user = "admin"))) eqn:Hrole.
    + left. simpl. split; [done|by right].
    + right. exists token, user. split_and!; [done..| |done].
      apply employeeMiddleware_next. unfold employeeMiddleware. by rewrite Hrole.
  - intros [u|]; [|done]. unfold adminMiddleware, employeeMiddleware.
    destruct (bool_decide (role u = "admin")); simpl; [|done].
    by rewrite andb_false_r.
Qed.

Lemma employee_route_guard_witness :
  employee_route
    (fun token => if decide (token = "t-customer")
                  then Some {| userId := 3; email := "c@example.com"; role := "customer" |}
                  else None)
    None (Some "Bearer t-customer")
    (fun user => post_sale env0 (userId user) (sale_body 10 1000)) db1
  = (db1, {| status := 403;
             json := JError "Access denied. Employee or admin role required." |})
  /\ employeeMiddleware (Some {| userId := 1; email := "a@example.com"; role := "admin" |})
     = None.
Proof.
  split.
  - reflexivity.
  - apply (employee_route_guard (fun _ => None) None None (fun _ d => (d, server_error "")) db1).
    reflexivity.
Defined.

Lemma substring_all (s : string) : String.substring 0 (String.length s) s = s.
Proof. induction s as [|c s IH]; simpl; [done|]. by rewrite IH. Qed.

Lemma prefix_nil (s : string) : String.prefix "" s = true.
Proof. by destruct s. Qed.

Lemma append_cons (c : ascii) (p t : string) : String c p ++ t = String c (p ++ t).
Proof. reflexivity. Qed.

Lemma append_nil (t : string) : "" ++ t = t.
Proof. reflexivity. Qed.

Lemma replace_first_bearer (token : string) :
  replace_first "Bearer " "" ("Bearer " ++ token) = token.
Proof.
  rewrite !append_cons, append_nil. simpl. rewrite prefix_nil, append_nil.
  rewrite Nat.sub_0_r. apply substring_all.
Qed.

(** X26. Where the token comes from: a non-empty token cookie wins over
    the Authorization header; without a cookie (or with an empty one),
    "Bearer " followed by a token yields that token; and a header that is
    just "Bearer " counts as no token at all: 401 "Authentication
    required" without the verifier being asked. *)
Theorem request_token_sources (jwt_verify : string -> option jwt_user)
    (cookie token : string) (authorization : option string) :
  (cookie <> "" -> request_token (Some cookie) authorization = Some cookie)
  /\ request_token None (Some ("Bearer " ++ token)) = Some token
  /\ request_token (Some "") (Some ("Bearer " ++ token)) = Some token
  /\ authMiddleware jwt_verify None (Some "Bearer ")
     = inl {| status := 401; json := JError "Authentication required" |}.
Proof.
  split_and!.
  - intros Hne. unfold request_token. simpl. by destruct (decide (cookie = "")).
  - change (request_token None (Some ("Bearer " ++ token)))
      with (Some (replace_first "Bearer " "" ("Bearer " ++ token))).
    by rewrite replace_first_bearer.
  - change (request_token (Some "") (Some ("Bearer " ++ token)))
      with (Some (replace_first "Bearer " "" ("Bearer " ++ token))).
    by rewrite replace_first_bearer.
  - reflexivity.
Qed.

Lemma request_token_sources_witness :
  request_token (Some "cookie-token") (Some "Bearer header-token") = Some "cookie-token"
  /\ request_token None (Some "Bearer header-token") = Some "header-token".
Proof.
  destruct (request_token_sources (fun _ => None) "cookie-token" "header-token"
              (Some "Bearer header-token")) as (Hc & Hh & _).
  split; [apply Hc; discriminate|exact Hh].
Defined.

(** ** Site settings (db/schema.ts, routes/settings.ts) *)

Section SettingsFacts.
Implicit Types (s : store) (e : env) (r : site_setting).

Lemma insert_settings_fresh (t : Z) (l : list (string * string * string)) s :
  NoDup (l.*1.*1) ->
  (forall k, k ∈ l.*1.*1 -> k ∉ setting_key <$> site_settings s) ->
  exists s',
    insert_settings t l s = Done_on tt s'
    /\ setting_triple <$> site_settings s' = ((setting_triple <$> site_settings s) ++ l)%list.
Proof.
  revert s. induction l as [|[[key value] type] l IH]; intros s Hnd Hfresh.
  - exists s. split; [done|]. by rewrite app_nil_r.
  - simpl in Hnd. apply NoDup_cons in Hnd as [Hkey Hnd].
    simpl. unfold bind_on, run_on, insert_setting.
    rewrite bool_decide_eq_false_2 by (apply Hfresh; simpl; by left).
    simpl.
    match goal with
    | |- context [insert_settings t l ?s0] =>
        destruct (IH s0 Hnd) as (s' & Hrun & Hrows)
    end.
    + intros k Hk. simpl. rewrite fmap_app.
      intros [Hin|Hin%list_elem_of_singleton]%elem_of_app.
      * revert Hin. apply Hfresh. simpl. by right.
      * simpl in Hin. by subst.
    + exists s'. split; [exact Hrun|].
      rewrite Hrows. simpl. rewrite fmap_app, <- app_assoc. done.
Qed.

Lemma defaultSettings_keys_distinct : NoDup (defaultSettings.*1.*1).
Proof. apply (bool_decide_unpack _). vm_compute. exact I. Qed.





End SettingsFacts.

(** X27. Seeding the settings happens once: on an empty settings table
    initializeDatabase inserts exactly the 37 default settings without
    tripping the UNIQUE key, on a non-empty table it changes nothing, and
    in both cases running it again changes nothing. *)
Theorem initializeDatabase_seeds_once (t t' : Z) (s : store) :
  exists s1,
    initializeDatabase t s = Done_on tt s1
    /\ (site_settings s = [] -> setting_triple <$> site_settings s1 = defaultSettings)
    /\ (site_settings s <> [] -> s1 = s)
    /\ initializeDatabase t' s1 = Done_on tt s1.
Proof.
  unfold initializeDatabase, bind_on, run_on, count_settings.
  destruct (site_settings s) as [|r rows] eqn:Hrows.
  - destruct (insert_settings_fresh t defaultSettings s) as (s1 & Hrun & Htriples).
    + apply defaultSettings_keys_distinct.
    + intros k _. rewrite Hrows. apply not_elem_of_nil.
    + exists s1. rewrite Hrows in Htriples. simpl in Htriples.
      assert (length (site_settings s1) = 37%nat) as Hlen
        by by rewrite <- (length_fmap setting_triple), Htriples.
      rewrite Hlen.
      change (Z.of_nat (length []) =? 0) with true.
      change (Z.of_nat 37 =? 0) with false. cbv iota.
      rewrite Hrun. split_and!; done.
  - exists s. rewrite Hrows. simpl. split_and!; done.
Qed.

Lemma initializeDatabase_seeds_once_witness :
  exists s1,
    initializeDatabase 50 store1 = Done_on tt s1
    /\ setting_triple <$> site_settings s1 = defaultSettings
    /\ initializeDatabase 60 s1 = Done_on tt s1.
Proof.
  destruct (initializeDatabase_seeds_once 50 60 store1) as (s1 & Hrun & Hseed & _ & Hagain).
  exists s1. split_and!; [exact Hrun|apply Hseed; reflexivity|exact Hagain].
Defined.



Section SettingsBatch.
Implicit Types (s : store) (e : env).

(** What [updateMany] does without storage failures it also did whenever
    it came to its end with them. *)
Lemma update_many_calm e (userId : Z) (entries : list (string * string)) (k : nat) s s' :
  update_many e userId k entries s = Done_on tt s' ->
  forall k', update_many (calm e) userId k' entries s = Done_on tt s'.
Proof.
  revert k s. induction entries as [|[key value] entries IH]; intros k s Hrun k'; [done|].
  simpl in *. unfold bind_on, run_on in *. simpl.
  destruct (faults e k); [done|].
  destruct (insert_or_ignore_setting (now e) key value userId s) as [[[] s1]|]; [|done].
  destruct (faults e (S k)); [done|].
  destruct (update_setting (now e) value userId key s1) as [[[] s2]|]; [|done].
  by eapply IH.
Qed.



End SettingsBatch.

(** X29. PUT /api/settings is all or nothing, whatever fails: either the
    store is exactly as before and the answer is 500, or every entry of the
    body has been applied, the store being the one the whole loop produces
    when no statement fails. *)
Theorem put_settings_all_or_nothing (e : env) (userId : Z)
    (entries : list (string * string)) (s : store) :
  (fst (put_settings e userId (Some entries) s) = s
   /\ code (snd (put_settings e userId (Some entries) s)) = 500%nat)
  \/ update_many (calm e) userId 0 entries s
     = Done_on tt (fst (put_settings e userId (Some entries) s)).
Proof.
  unfold put_settings, try_catch_on, bind_on, transaction.
  destruct (update_many e userId 0 entries s) as [[] s'|s'] eqn:Hrun.
  - right. rewrite (update_many_calm _ _ _ _ _ _ Hrun 0%nat). f_equal. unfold run_on, select_settings.
    by destruct (faults e (2 * length entries)).
  - left. done.
Qed.


